(** * EUCS spreadsheet to OSCAL: the row-to-tree builder and the profile writer

    A shallow embedding of [create_eucs_catalogs_profiles.py].  The Python
    objects of the OSCAL model become records, the local variables of [run]
    that survive from one row to the next become an explicit builder state,
    exceptions become the left summand of a result type, and the output
    directory becomes a finite map from path names to written documents. *)

From Stdlib Require Import Ascii String.
From stdpp Require Import gmap strings list fin_maps.

Local Open Scope string_scope.

Set Warnings "-register-all".

(** ** Python values that reach the builder *)

(** A cell of the data frame read with [dtype=str] is a string or the
    missing value; the look-back variables start as [None]. *)
Inductive pyval : Type :=
  | PyNone
  | PyNaN
  | PyStr (s : string).

#[global] Instance pyval_eq_dec : EqDecision pyval.
Proof. solve_decision. Defined.

(** [pd.isna] and [pd.notna] on such a value. *)
Definition isna (v : pyval) : bool :=
  match v with
  | PyStr _ => false
  | PyNone | PyNaN => true
  end.

Definition notna (v : pyval) : bool := negb (isna v).

(** Python's [a != b]: [nan != nan] holds, a string differs from [None]
    and from [nan], two strings are compared by content. *)
Definition py_ne (a b : pyval) : bool :=
  match a, b with
  | PyStr x, PyStr y => negb (String.eqb x y)
  | PyNone, PyNone => false
  | _, _ => true
  end.

Definition is_none (v : pyval) : bool :=
  match v with
  | PyNone => true
  | _ => false
  end.

(** The exceptions the script can raise on its own. *)
Inductive exn : Type :=
  | UnboundLocalError
  | TypeError
  | AttributeError
  | IndexError.

#[global] Instance exn_eq_dec : EqDecision exn.
Proof. solve_decision. Defined.

Definition result (A : Type) : Type := exn + A.

Definition ok {A : Type} (a : A) : result A := inr a.
Definition raise {A : Type} (e : exn) : result A := inl e.

Definition bind {A B : Type} (m : result A) (k : A -> result B) : result B :=
  match m with
  | inl e => inl e
  | inr a => k a
  end.

Notation "'try' x '<-' m 'in' k" := (bind m (fun x => k))
  (at level 10, x name, m at level 100, k at level 200).

Definition is_ok {A : Type} (m : result A) : bool :=
  match m with
  | inr _ => true
  | inl _ => false
  end.

(** ** String operations of the script *)

Module Str.

(** [s[-1]]: the last character, [IndexError] on the empty string. *)
Fixpoint last_char (s : string) : option ascii :=
  match s with
  | EmptyString => None
  | String c EmptyString => Some c
  | String _ rest => last_char rest
  end.

(** [s[:-1]]: everything but the last character. *)
Fixpoint drop_last (s : string) : string :=
  match s with
  | EmptyString => EmptyString
  | String _ EmptyString => EmptyString
  | String c rest => String c (drop_last rest)
  end.

(** [s[-2:]]: the last two characters, the whole string when shorter. *)
Definition last_two (s : string) : string :=
  substring (String.length s - 2) 2 s.

(** Whitespace of [str.split()] in the ASCII range. *)
Definition is_space (c : ascii) : bool :=
  let n := nat_of_ascii c in
  (((9 <=? n) && (n <=? 13)) || ((28 <=? n) && (n <=? 32)))%nat.

Fixpoint skip_spaces (s : string) : string :=
  match s with
  | EmptyString => EmptyString
  | String c rest => if is_space c then skip_spaces rest else s
  end.

Fixpoint take_word (s : string) : string :=
  match s with
  | EmptyString => EmptyString
  | String c rest => if is_space c then EmptyString else String c (take_word rest)
  end.

(** [s.split()[0]]: the first blank-separated token, none when the
    string holds only blanks. *)
Definition first_token (s : string) : option string :=
  match skip_spaces s with
  | EmptyString => None
  | w => Some (take_word w)
  end.

(** [s.lower()] in the ASCII range. *)
Definition lower_char (c : ascii) : ascii :=
  let n := nat_of_ascii c in
  if ((65 <=? n) && (n <=? 90))%nat then ascii_of_nat (n + 32) else c.

Fixpoint lower (s : string) : string :=
  match s with
  | EmptyString => EmptyString
  | String c rest => String (lower_char c) (lower rest)
  end.

(** [needle in hay]: substring test. *)
Fixpoint contains (needle hay : string) : bool :=
  String.prefix needle hay ||
  match hay with
  | EmptyString => false
  | String _ rest => contains needle rest
  end.

End Str.

(** Operands of the string operations: a value that is not a string makes
    [+] and subscripting raise [TypeError], and has no [split] method. *)
Definition str_operand (v : pyval) : result string :=
  match v with
  | PyStr s => ok s
  | _ => raise TypeError
  end.

Definition split_receiver (v : pyval) : result string :=
  match v with
  | PyStr s => ok s
  | _ => raise AttributeError
  end.

(** [v[-1]] as a one-character string. *)
Definition py_last (v : pyval) : result string :=
  try s <- str_operand v in
  match Str.last_char s with
  | Some c => ok (String c EmptyString)
  | None => raise IndexError
  end.

(** [v.split()[0]]. *)
Definition py_first_token (v : pyval) : result string :=
  try s <- split_receiver v in
  match Str.first_token s with
  | Some w => ok w
  | None => raise IndexError
  end.

(** ** The OSCAL objects the script builds

    Each record keeps the keyword arguments its constructor receives.  The
    validation the OSCAL library runs on them is outside the script and is
    not modelled. *)

Record Property := mkProperty {
  prop_name : string;
  prop_class : option string;
  prop_value : string
}.

Record Link := mkLink { link_rel : string; link_href : string }.

Record Role := mkRole { role_id : string; role_title : string }.

Record Address := mkAddress {
  addr_lines : list string;
  addr_city : string;
  addr_country : string
}.

Record Party := mkParty {
  party_type : string;
  party_uuid : string;
  party_name : string;
  party_email_addresses : list string;
  party_addresses : list Address
}.

Record ResponsibleParty := mkResponsibleParty {
  rp_role_id : string;
  rp_party_uuids : list string
}.

Record Metadata := mkMetadata {
  md_title : string;
  md_published : string;
  md_last_modified : string;
  md_version : string;
  md_oscal_version : string;
  md_props : list Property;
  md_links : list Link;
  md_roles : list Role;
  md_parties : list Party;
  md_responsible_parties : list ResponsibleParty;
  md_remarks : string
}.

Record Rlink := mkRlink { rlink_media_type : string; rlink_href : string }.

Record Resource := mkResource {
  res_uuid : string;
  res_title : string;
  res_rlinks : list Rlink
}.

Record BackMatter := mkBackMatter { bm_resources : list Resource }.

(** A part owns its sub-parts; a part built without [parts] has none, and
    one built without [prose] carries [PyNone]. *)
Inductive Part : Type := mkPart {
  part_name : string;
  part_class : option string;
  part_id : string;
  part_props : list Property;
  part_prose : pyval;
  part_parts : list Part
}.

Record Control := mkControl {
  control_id : string;
  control_class : string;
  control_title : pyval;
  control_props : list Property;
  control_parts : list Part
}.

Record Group := mkGroup {
  group_id : string;
  group_title : pyval;
  group_props : list Property;
  group_controls : list Control
}.

Record Catalog := mkCatalog {
  catalog_uuid : string;
  catalog_metadata : Metadata;
  catalog_groups : list Group;
  catalog_back_matter : BackMatter
}.

Record SelectControl := mkSelectControl { with_ids : option (list string) }.

Record Import := mkImport {
  import_href : string;
  include_controls : option (list SelectControl)
}.

Record Profile := mkProfile {
  profile_uuid : string;
  profile_metadata : Metadata;
  profile_imports : list Import
}.

(** ** Constructors of the script *)

Definition create_catalog (uuid : string) (metadata : Metadata)
    (groups : list Group) (back_matter : BackMatter) : Catalog :=
  mkCatalog uuid metadata groups back_matter.

(** The two time stamps are the two readings of the clock. *)
Definition create_metadata (published last_modified : string) : Metadata :=
  let properties :=
    [mkProperty "keywords" None
       "cybersecurity, information security, information system, OSCAL, Open Security Controls Assessment Language"] in
  let links := [mkLink "alternate" "3ab41d8a-66e3-4732-ae28-07405dad5127"] in
  let roles :=
    [mkRole "publisher" "Source document converter to OSCAL.";
     mkRole "author" "Source document author.";
     mkRole "contact" "Contact."] in
  let email_addresses := ["name@domain.eu"] in
  let address_lines := ["ENISA"; "Attn: Somebody"; "1 Some Street"] in
  let addresses := [mkAddress address_lines "City" "EU"] in
  let parties :=
    [mkParty "organization" "f550d94e-0f01-415f-a1e2-c8188c9ff4a5" "ENISA"
       email_addresses addresses] in
  let partyuuids := ["f550d94e-0f01-415f-a1e2-c8188c9ff4a5"] in
  let responsible_parties :=
    [mkResponsibleParty "publisher" partyuuids;
     mkResponsibleParty "author" partyuuids;
     mkResponsibleParty "contact" partyuuids] in
  mkMetadata "Sample EUCS Catalog" published last_modified "1.0" "1.1.2"
    properties links roles parties responsible_parties
    "The following is a short excerpt from EUCS Catalog. This work is provided here under copyright fair use for non-profit, educational purposes only. Copyrights for this work are held by the publisher.".

Definition create_backmatter : BackMatter :=
  let rlinks := [mkRlink "application/pdf" "https://enisa.europa.eu/publications/eucs.pdf"] in
  let resources :=
    [mkResource "3ab41d8a-66e3-4732-ae28-07405dad5127" "EUCS prCEN/TS (PDF)" rlinks] in
  mkBackMatter resources.

Definition create_category (category_id category_title : pyval) : result Group :=
  try cid <- str_operand category_id in
  let properties := [mkProperty "label" None (cid ++ ".")] in
  ok (mkGroup ("eucs-" ++ cid) category_title properties []).

(** The stem shared by the identifiers of a control and of its parts:
    ['eucs-' + category_id + '.' + control_title.split()[0]]. *)
Definition control_stem (category_id control_title : pyval) : result string :=
  try cid <- str_operand category_id in
  try tok <- py_first_token control_title in
  ok ("eucs-" ++ cid ++ "." ++ tok).

Definition create_control (category_id control_id control_title : pyval)
    : result Control :=
  try last <- py_last control_id in
  let properties := [mkProperty "label" None (last ++ ".")] in
  try stem <- control_stem category_id control_title in
  ok (mkControl stem "eucs" control_title properties []).

Definition create_objective_headline
    (category_id control_title control_objective : pyval) : result Part :=
  let properties :=
    [mkProperty "label" None "1."; mkProperty "alt-identifier" None "Objective"] in
  try stem <- control_stem category_id control_title in
  ok (mkPart "statement" None (stem ++ "_obj") properties control_objective []).

Definition create_requirement_headline (category_id control_title : pyval)
    : result Part :=
  let properties :=
    [mkProperty "label" None "2."; mkProperty "alt-identifier" None "Requirements"] in
  try stem <- control_stem category_id control_title in
  ok (mkPart "statement" None (stem ++ "_req") properties PyNone []).

Definition create_requirement (severity_level : string)
    (requirement_id category_id control_title requirement_description : pyval)
    : result Part :=
  try rid <- str_operand requirement_id in
  let properties := [mkProperty "alt-identifier" (Some severity_level) rid] in
  try stem <- control_stem category_id control_title in
  try description <- str_operand requirement_description in
  ok (mkPart "item" (Some severity_level)
        (stem ++ "_req" ++ "." ++ Str.last_two rid)
        properties
        (PyStr (rid ++ " - " ++ description))
        []).

(** ** The object store

    [catalog.groups], the [controls] of a group, the [parts] of a control
    and the [parts] of a part are Python lists that only ever grow by
    [append].  An object is therefore named by the positions at which it
    was appended, and a variable holding a reference to it holds those
    positions; mutating the object through the variable rewrites the tree at
    that place, which is what every other reference to it sees. *)

Definition append {A : Type} (l : list A) (x : A) : list A := (l ++ [x])%list.

Definition set_group_controls (g : Group) (cs : list Control) : Group :=
  mkGroup (group_id g) (group_title g) (group_props g) cs.

Definition set_control_parts (c : Control) (ps : list Part) : Control :=
  mkControl (control_id c) (control_class c) (control_title c) (control_props c) ps.

Definition set_part_parts (p : Part) (ps : list Part) : Part :=
  mkPart (part_name p) (part_class p) (part_id p) (part_props p) (part_prose p) ps.

(** Reference to a group, to a control of a group, to a part of a control. *)
Abbreviation GroupRef := nat (only parsing).
Abbreviation ControlRef := (nat * nat)%type (only parsing).
Abbreviation PartRef := (nat * nat * nat)%type (only parsing).

(** [category.controls.append(control)] *)
Definition controls_append (category : GroupRef) (control : Control)
    (groups : list Group) : list Group :=
  alter (fun g => set_group_controls g (append (group_controls g) control))
    category groups.

(** [control.parts.append(part)] *)
Definition control_parts_append (control : ControlRef) (part : Part)
    (groups : list Group) : list Group :=
  alter (fun g => set_group_controls g
           (alter (fun c => set_control_parts c (append (control_parts c) part))
              control.2 (group_controls g)))
    control.1 groups.

(** [headline.parts.append(requirement)] *)
Definition part_parts_append (headline : PartRef) (requirement : Part)
    (groups : list Group) : list Group :=
  alter (fun g => set_group_controls g
           (alter (fun c => set_control_parts c
                     (alter (fun p => set_part_parts p (append (part_parts p) requirement))
                        headline.2 (control_parts c)))
              headline.1.2 (group_controls g)))
    headline.1.1 groups.

Definition lookup_control (r : ControlRef) (groups : list Group) : option Control :=
  g ← groups !! r.1; group_controls g !! r.2.

Definition lookup_part (r : PartRef) (groups : list Group) : option Part :=
  c ← lookup_control r.1 groups; control_parts c !! r.2.

(** ** The rows *)

Record Row := mkRow {
  r_category : pyval;      (* 'EUCS Category' *)
  r_control : pyval;       (* 'EUCS Control' *)
  r_requirement : pyval;   (* 'EUCS Requirement' *)
  r_title : pyval;         (* 'Title' *)
  r_description : pyval;   (* 'Description' *)
  r_basic : pyval;         (* 'Basic' *)
  r_substantial : pyval;   (* 'Substantial' *)
  r_high : pyval           (* 'High' *)
}.

(** ** The builder state

    What the loop of [run] carries from one row to the next.  A local
    variable that has not been assigned yet is [None]. *)

Record State := mkState {
  groups : list Group;                         (* catalog.groups *)
  basic_profile : list string;
  substantial_profile : list string;
  high_profile : list string;
  current_loop_category : pyval;
  current_loop_control : pyval;
  category : option GroupRef;
  requirement_headline : option PartRef;
  current_loop_control_title : option pyval
}.

Definition initial_state : State :=
  mkState [] [] [] [] PyNone PyNone None None None.

Definition set_groups (st : State) (gs : list Group) : State :=
  mkState gs (basic_profile st) (substantial_profile st) (high_profile st)
    (current_loop_category st) (current_loop_control st)
    (category st) (requirement_headline st) (current_loop_control_title st).

Definition set_basic_profile (st : State) (l : list string) : State :=
  mkState (groups st) l (substantial_profile st) (high_profile st)
    (current_loop_category st) (current_loop_control st)
    (category st) (requirement_headline st) (current_loop_control_title st).

Definition set_substantial_profile (st : State) (l : list string) : State :=
  mkState (groups st) (basic_profile st) l (high_profile st)
    (current_loop_category st) (current_loop_control st)
    (category st) (requirement_headline st) (current_loop_control_title st).

Definition set_high_profile (st : State) (l : list string) : State :=
  mkState (groups st) (basic_profile st) (substantial_profile st) l
    (current_loop_category st) (current_loop_control st)
    (category st) (requirement_headline st) (current_loop_control_title st).

Definition set_current_loop (st : State) (cat ctl : pyval) : State :=
  mkState (groups st) (basic_profile st) (substantial_profile st) (high_profile st)
    cat ctl
    (category st) (requirement_headline st) (current_loop_control_title st).

Definition set_category (st : State) (c : GroupRef) : State :=
  mkState (groups st) (basic_profile st) (substantial_profile st) (high_profile st)
    (current_loop_category st) (current_loop_control st)
    (Some c) (requirement_headline st) (current_loop_control_title st).

Definition set_requirement_headline (st : State) (h : PartRef) : State :=
  mkState (groups st) (basic_profile st) (substantial_profile st) (high_profile st)
    (current_loop_category st) (current_loop_control st)
    (category st) (Some h) (current_loop_control_title st).

Definition set_current_loop_control_title (st : State) (t : pyval) : State :=
  mkState (groups st) (basic_profile st) (substantial_profile st) (high_profile st)
    (current_loop_category st) (current_loop_control st)
    (category st) (requirement_headline st) (Some t).

(** Reading a local variable: [UnboundLocalError] before its first
    assignment. *)
Definition read_local {A : Type} (v : option A) : result A :=
  match v with
  | Some a => ok a
  | None => raise UnboundLocalError
  end.

(** Position at which the next [append] to a list of the tree lands. *)
Definition next_control (category : GroupRef) (groups : list Group) : ControlRef :=
  (category, from_option (fun g => length (group_controls g)) 0 (groups !! category)).

Definition next_part (control : ControlRef) (groups : list Group) : PartRef :=
  (control, from_option (fun c => length (control_parts c)) 0 (lookup_control control groups)).

(** ** One iteration of the loop over the rows *)

(** Row holds a category but neither control nor requirement. *)
Definition category_branch (st : State) (row : Row) : result State :=
  let new_loop_category := r_category row in
  if py_ne new_loop_category (current_loop_category st)
     || is_none (current_loop_category st)
  then
    try category <- create_category (r_category row) (r_title row) in
    let ref := length (groups st) in
    ok (set_groups (set_category st ref) (append (groups st) category))
  else ok st.

(** Row holds a category and a control but no requirement. *)
Definition control_branch (st : State) (row : Row) : result State :=
  let new_loop_control := r_control row in
  if py_ne new_loop_control (current_loop_control st)
     || is_none (current_loop_control st)
  then
    try control <- create_control (r_category row) (r_control row) (r_title row) in
    try category <- read_local (category st) in
    let control_ref := next_control category (groups st) in
    let groups1 := controls_append category control (groups st) in
    try objective_headline <-
      create_objective_headline (r_category row) (r_title row) (r_description row) in
    let groups2 := control_parts_append control_ref objective_headline groups1 in
    try requirement_headline <-
      create_requirement_headline (r_category row) (r_title row) in
    let headline_ref := next_part control_ref groups2 in
    let groups3 := control_parts_append control_ref requirement_headline groups2 in
    ok (set_current_loop_control_title
          (set_requirement_headline (set_groups st groups3) headline_ref)
          (r_title row))
  else ok st.

(** [if pd.notna(row[basic_key])]: the raw identifier, as read. *)
Definition add_basic (st : State) (row : Row) : result State :=
  if notna (r_basic row) then
    try title <- read_local (current_loop_control_title st) in
    try requirement <-
      create_requirement "basic" (r_requirement row) (r_category row) title
        (r_description row) in
    try rid <- str_operand (r_requirement row) in
    let st1 := set_basic_profile st (append (basic_profile st) rid) in
    try headline <- read_local (requirement_headline st1) in
    ok (set_groups st1 (part_parts_append headline requirement (groups st1)))
  else ok st.

(** [if pd.notna(row[substantial_key])]: a trailing 'B' becomes 'S'. *)
Definition add_substantial (st : State) (row : Row) : result State :=
  if notna (r_substantial row) then
    try last <- py_last (r_requirement row) in
    try created <-
      (if String.eqb last "B" then
         try raw <- str_operand (r_requirement row) in
         let new_requirement_key := Str.drop_last raw ++ "S" in
         try title <- read_local (current_loop_control_title st) in
         try requirement <-
           create_requirement "substantial" (PyStr new_requirement_key)
             (r_category row) title (r_description row) in
         ok (requirement,
             set_substantial_profile st
               (append (substantial_profile st) new_requirement_key))
       else
         try title <- read_local (current_loop_control_title st) in
         try requirement <-
           create_requirement "substantial" (r_requirement row)
             (r_category row) title (r_description row) in
         try rid <- str_operand (r_requirement row) in
         ok (requirement,
             set_substantial_profile st (append (substantial_profile st) rid))) in
    let requirement := created.1 in
    let st1 := created.2 in
    try headline <- read_local (requirement_headline st1) in
    ok (set_groups st1 (part_parts_append headline requirement (groups st1)))
  else ok st.

(** [if pd.notna(row[high_key])]: a trailing 'B' or 'S' becomes 'H'. *)
Definition add_high (st : State) (row : Row) : result State :=
  if notna (r_high row) then
    try last <- py_last (r_requirement row) in
    try created <-
      (if String.eqb last "B" || String.eqb last "S" then
         try raw <- str_operand (r_requirement row) in
         let new_requirement_key := Str.drop_last raw ++ "H" in
         try title <- read_local (current_loop_control_title st) in
         try requirement <-
           create_requirement "high" (PyStr new_requirement_key)
             (r_category row) title (r_description row) in
         ok (requirement,
             set_high_profile st (append (high_profile st) new_requirement_key))
       else
         try title <- read_local (current_loop_control_title st) in
         try requirement <-
           create_requirement "high" (r_requirement row)
             (r_category row) title (r_description row) in
         try rid <- str_operand (r_requirement row) in
         ok (requirement,
             set_high_profile st (append (high_profile st) rid))) in
    let requirement := created.1 in
    let st1 := created.2 in
    try headline <- read_local (requirement_headline st1) in
    ok (set_groups st1 (part_parts_append headline requirement (groups st1)))
  else ok st.

(** Row holds a category, a control and a requirement. *)
Definition requirement_branch (st : State) (row : Row) : result State :=
  try st1 <- add_basic st row in
  try st2 <- add_substantial st1 row in
  add_high st2 row.

(** The three structural patterns, in the order the loop tests them. *)
Definition is_category_row (row : Row) : bool :=
  isna (r_control row) && isna (r_requirement row) && notna (r_category row).

Definition is_control_row (row : Row) : bool :=
  isna (r_requirement row) && notna (r_category row) && notna (r_control row).

Definition is_requirement_row (row : Row) : bool :=
  notna (r_category row) && notna (r_control row) && notna (r_requirement row).

(** The body of the loop: the [if]/[elif]/[elif] chain has no [else], and
    the two look-back identifiers are updated whatever the row was. *)
Definition process_row (st : State) (row : Row) : result State :=
  try st1 <-
    (if is_category_row row then category_branch st row
     else if is_control_row row then control_branch st row
     else if is_requirement_row row then requirement_branch st row
     else ok st) in
  ok (set_current_loop st1 (r_category row) (r_control row)).

(** [for _, row in df.iterrows()] *)
Fixpoint process_rows (st : State) (rows : list Row) : result State :=
  match rows with
  | [] => ok st
  | row :: rest =>
      try st1 <- process_row st row in
      process_rows st1 rest
  end.

Definition build (rows : list Row) : result State :=
  process_rows initial_state rows.

(** ** Choosing the sheet *)

(** The workbook as the script sees it: the sheets in workbook order, each
    with the rows [read_excel] returns for it. *)
Record Workbook := mkWorkbook { sheets : list (string * list Row) }.

Definition sheet_names (excel : Workbook) : list string := (sheets excel).*1.

Definition read_excel (excel : Workbook) (sheet_name : string) : list Row :=
  from_option snd [] (find (fun sh => String.eqb sh.1 sheet_name) (sheets excel)).

(** The loop over [sheet_names] assigns [sheet_name] at every match and
    has no [break]; the variable stays unbound when nothing matches. *)
Definition select_sheet (names : list string) : option string :=
  fold_left
    (fun sheet_name key =>
       if Str.contains "controls" (Str.lower key) then Some key else sheet_name)
    names None.

(** ** Writing the documents *)

Inductive Document : Type :=
  | CatalogDoc (c : Catalog)
  | ProfileDoc (p : Profile).

(** [obj.oscal_write(path)]: the file at [path] now holds the object as it
    is at the time of the call. *)
Definition oscal_write (doc : Document) (path : string)
    (fs : gmap string Document) : gmap string Document :=
  <[path := doc]> fs.

(** [dir / name] for a relative [name]. *)
Definition path_join (dir name : string) : string := dir ++ "/" ++ name.

Definition set_profile_imports (profile : Profile) (imports : list Import) : Profile :=
  mkProfile (profile_uuid profile) (profile_metadata profile) imports.

(** [write_profile] assigns the [include_controls] field of the first
    import of the profile object it is given, then writes that object.  The
    object is returned as the call leaves it. *)
Definition write_profile (profile : Profile) (control_list : list string)
    (path : string) (fs : gmap string Document)
    : result (Profile * gmap string Document) :=
  let selector := mkSelectControl (Some control_list) in
  let include_controls := [selector] in
  match profile_imports profile with
  | [] => raise IndexError
  | first :: others =>
      let profile1 :=
        set_profile_imports profile
          (mkImport (import_href first) (Some include_controls) :: others) in
      ok (profile1, oscal_write (ProfileDoc profile1) path fs)
  end.

(** ** The whole run *)

Definition catalog_name (EUCS_version : string) : string :=
  "EUCS_controls_version_" ++ EUCS_version ++ "_catalog.json".

Definition profile_name (EUCS_version tier : string) : string :=
  "EUCS_version_" ++ EUCS_version ++ "_profile_" ++ tier ++ ".json".

(** What is in memory when [run] returns. *)
Record RunEnd := mkRunEnd {
  end_state : State;
  end_catalog : Catalog;
  end_profile : Profile
}.

Section Run.

(** The working directory and the two readings of the clock taken by
    [create_metadata]. *)
Variable cwd : string.
Variables published last_modified : string.

Definition run (input_xls : Workbook) (output_directory EUCS_version : string)
    (fs : gmap string Document) : result RunEnd * gmap string Document :=
  match read_local (select_sheet (sheet_names input_xls)) with
  | inl e => (inl e, fs)
  | inr sheet_name =>
      let df := read_excel input_xls sheet_name in
      let catalog_metadata := create_metadata published last_modified in
      let backmatter := create_backmatter in
      match build df with
      | inl e => (inl e, fs)
      | inr st =>
          let catalog :=
            create_catalog "74c8ba1e-5cd4-4ad1-bbfd-d888e2f6c724"
              catalog_metadata (groups st) backmatter in
          let catalog_path :=
            path_join (path_join cwd output_directory) (catalog_name EUCS_version) in
          let fs0 := oscal_write (CatalogDoc catalog) catalog_path fs in
          let profile :=
            mkProfile "74c8ba1e-5cd4-4ad1-bbfd-d888e2f6c724" catalog_metadata
              [mkImport (catalog_name EUCS_version) None] in
          match write_profile profile (basic_profile st)
                  (path_join output_directory (profile_name EUCS_version "Basic")) fs0 with
          | inl e => (inl e, fs0)
          | inr (profile1, fs1) =>
              match write_profile profile1 (substantial_profile st)
                      (path_join output_directory (profile_name EUCS_version "Substantial")) fs1 with
              | inl e => (inl e, fs1)
              | inr (profile2, fs2) =>
                  match write_profile profile2 (high_profile st)
                          (path_join output_directory (profile_name EUCS_version "High")) fs2 with
                  | inl e => (inl e, fs2)
                  | inr (profile3, fs3) => (ok (mkRunEnd st catalog profile3), fs3)
                  end
              end
          end
      end
  end.

End Run.

(** ** Reading the result *)

(** Every part reachable from a part, itself included. *)
Fixpoint part_closure (p : Part) : list Part :=
  p :: (fix closure_list (ps : list Part) : list Part :=
          match ps with
          | [] => []
          | q :: rest => (part_closure q ++ closure_list rest)%list
          end) (part_parts p).

Definition control_all_parts (c : Control) : list Part :=
  flat_map part_closure (control_parts c).

Definition group_all_parts (g : Group) : list Part :=
  flat_map control_all_parts (group_controls g).

(** Every part reachable from the groups of the catalog. *)
Definition all_parts (gs : list Group) : list Part :=
  flat_map group_all_parts gs.

(** A Requirement part of a tier is an ['item'] part of that class. *)
Definition is_requirement_of (tier : string) (p : Part) : bool :=
  String.eqb (part_name p) "item"
  && match part_class p with
     | Some c => String.eqb c tier
     | None => false
     end.

(** Its identifier is the value of its ['alt-identifier'] property. *)
Definition requirement_identifier (p : Part) : option string :=
  prop_value <$> find (fun pr => String.eqb (prop_name pr) "alt-identifier") (part_props p).

Definition requirements_in (tier : string) (ps : list Part) : list Part :=
  filter (fun p => is_requirement_of tier p = true) ps.

(** The identifier fields of the Requirement parts of a tier among [ps]. *)
Definition ids_of (tier : string) (ps : list Part) : list (option string) :=
  requirement_identifier <$> requirements_in tier ps.

(** The Requirement parts of a tier reachable from the catalog, and their
    identifiers in tree order. *)
Definition requirements_of (tier : string) (gs : list Group) : list Part :=
  requirements_in tier (all_parts gs).

Definition requirement_fields (tier : string) (gs : list Group)
    : list (option string) :=
  ids_of tier (all_parts gs).

Definition requirement_ids (tier : string) (gs : list Group) : list string :=
  omap requirement_identifier (requirements_of tier gs).

(** The Requirement parts of a tier that carry a given identifier. *)
Definition parts_with_id (tier i : string) (gs : list Group) : list Part :=
  filter (fun p => requirement_identifier p = Some i) (requirements_of tier gs).

Inductive Tier : Type := Basic | Substantial | High.

(** The [severity_level] string of a tier. *)
Definition tier_name (t : Tier) : string :=
  match t with
  | Basic => "basic"
  | Substantial => "substantial"
  | High => "high"
  end.

(** The identifier list the profile of a tier selects. *)
Definition tier_list (t : Tier) (st : State) : list string :=
  match t with
  | Basic => basic_profile st
  | Substantial => substantial_profile st
  | High => high_profile st
  end.

(** Number of occurrences of an identifier in a list. *)
Definition occurrences (i : string) (l : list string) : nat :=
  length (filter (fun j => j = i) l).

(** * Vocabulary of the properties

    What the statements below speak of: the tiers, the identifiers a block
    records, the invariant of the builder, and the inputs used as examples. *)

(** Identifier lists, level by level. *)
Definition part_ids (tier : string) (p : Part) : list (option string) :=
  ids_of tier (part_closure p).

Definition control_ids (tier : string) (c : Control) : list (option string) :=
  flat_map (part_ids tier) (control_parts c).

Definition group_ids (tier : string) (g : Group) : list (option string) :=
  flat_map (control_ids tier) (group_controls g).

Definition list_grows {A : Type} (R : A -> A -> Prop) (l l' : list A) : Prop :=
  forall i x, l !! i = Some x -> exists x', l' !! i = Some x' /\ R x x'.

Definition control_grows (c c' : Control) : Prop :=
  list_grows (fun _ _ => True) (control_parts c) (control_parts c').

Definition group_grows (g g' : Group) : Prop :=
  list_grows control_grows (group_controls g) (group_controls g').

Definition tree_grows : list Group -> list Group -> Prop := list_grows group_grows.

(** The Requirement part [create_requirement] builds from string
    arguments. *)
Definition requirement_part (severity_level rid cid token description : string) : Part :=
  mkPart "item" (Some severity_level)
    (("eucs-" ++ cid ++ "." ++ token) ++ "_req" ++ "." ++ Str.last_two rid)
    [mkProperty "alt-identifier" (Some severity_level) rid]
    (PyStr (rid ++ " - " ++ description))
    [].

#[global] Instance Tier_eq_dec : EqDecision Tier.
Proof. solve_decision. Defined.

(** The identifier each block records, as the block computes it. *)
Definition substantial_key (raw : string) : string :=
  match Str.last_char raw with
  | Some c => if String.eqb (String c "") "B" then Str.drop_last raw ++ "S" else raw
  | None => raw
  end.

Definition high_key (raw : string) : string :=
  match Str.last_char raw with
  | Some c =>
      if String.eqb (String c "") "B" || String.eqb (String c "") "S"
      then Str.drop_last raw ++ "H" else raw
  | None => raw
  end.

Definition tier_key (t : Tier) (raw : string) : string :=
  match t with
  | Basic => raw
  | Substantial => substantial_key raw
  | High => high_key raw
  end.

Definition tier_flag (t : Tier) (row : Row) : pyval :=
  match t with
  | Basic => r_basic row
  | Substantial => r_substantial row
  | High => r_high row
  end.

Definition add_tier (t : Tier) : State -> Row -> result State :=
  match t with
  | Basic => add_basic
  | Substantial => add_substantial
  | High => add_high
  end.

Definition set_tier_list (t : Tier) (st : State) (l : list string) : State :=
  match t with
  | Basic => set_basic_profile st l
  | Substantial => set_substantial_profile st l
  | High => set_high_profile st l
  end.

(** The state after a block has recorded identifier [i] and attached part
    [r] to the headline [h]. *)
Definition attach (t : Tier) (st : State) (i : string) (h : PartRef) (r : Part) : State :=
  set_groups (set_tier_list t st (append (tier_list t st) i))
    (part_parts_append h r (groups st)).

(** When a block runs to its end. *)
Record block_ready (st : State) (row : Row)
    (raw cid title token description : string) (h : PartRef) : Prop := {
  ready_requirement : r_requirement row = PyStr raw;
  ready_category : r_category row = PyStr cid;
  ready_title : current_loop_control_title st = Some (PyStr title);
  ready_token : Str.first_token title = Some token;
  ready_description : r_description row = PyStr description;
  ready_headline : requirement_headline st = Some h
}.

(** Every reference held in a local variable names an object of the tree. *)
Definition wf (st : State) : Prop :=
  (forall gi, category st = Some gi -> is_Some (groups st !! gi))
  /\ (forall h, requirement_headline st = Some h ->
        is_Some (lookup_part h (groups st))).

(** Each tier list holds the identifiers of the tier's Requirement parts of
    the tree, with the same multiplicities. *)
Definition consistent (st : State) : Prop :=
  forall t : Tier,
    Some <$> tier_list t st ≡ₚ requirement_fields (tier_name t) (groups st).

Definition inv (st : State) : Prop := wf st /\ consistent st.

(** The raw identifier a row hands to the block of a tier: that of a
    requirement row whose flag for the tier is not blank. *)
Definition row_raw_id (t : Tier) (row : Row) : list string :=
  if is_requirement_row row && notna (tier_flag t row) then
    match r_requirement row with
    | PyStr raw => [raw]
    | _ => []
    end
  else [].

Definition flagged_raw_ids (t : Tier) (rows : list Row) : list string :=
  flat_map (row_raw_id t) rows.

(** [out] is [raw] with its last character replaced by [to] when that
    character is one of [from], and [raw] itself otherwise. *)
Definition tier_rewrite (from : list ascii) (to : ascii) (raw out : string) : Prop :=
  (exists body c, c ∈ from /\ raw = body ++ String c "" /\ out = body ++ String to "")
  \/ ((forall body c, c ∈ from -> raw <> body ++ String c "") /\ out = raw).

(** The three rows of the scenario.  The cells the scenario leaves open,
    the description of the control row and the title of the requirement
    row, are parameters. *)
Definition scenario_rows (objective title3 : pyval) : list Row :=
  [ mkRow (PyStr "C1") PyNaN PyNaN (PyStr "Cat One") PyNaN PyNaN PyNaN PyNaN;
    mkRow (PyStr "C1") (PyStr "C1.CTRL") PyNaN (PyStr "Do Thing") objective
      PyNaN PyNaN PyNaN;
    mkRow (PyStr "C1") (PyStr "C1.CTRL") (PyStr "R1B") title3 (PyStr "desc")
      (PyStr "yes") (PyStr "yes") PyNaN ].

Definition scenario_state (objective title3 : pyval) : State :=
  Eval vm_compute in
    match build (scenario_rows objective title3) with
    | inr st => st
    | inl _ => initial_state
    end.

Definition scenario_control (objective : pyval) : Control :=
  mkControl "eucs-C1.Do" "eucs" (PyStr "Do Thing")
    [mkProperty "label" None "L."]
    [mkPart "statement" None "eucs-C1.Do_obj"
       [mkProperty "label" None "1."; mkProperty "alt-identifier" None "Objective"]
       objective [];
     mkPart "statement" None "eucs-C1.Do_req"
       [mkProperty "label" None "2."; mkProperty "alt-identifier" None "Requirements"]
       PyNone
       [requirement_part "basic" "R1B" "C1" "Do" "desc";
        requirement_part "substantial" "R1S" "C1" "Do" "desc"]].

Definition scenario_group (objective : pyval) : Group :=
  mkGroup "eucs-C1" (PyStr "Cat One") [mkProperty "label" None "C1."]
    [scenario_control objective].

(** A Requirement part of any tier. *)
Definition is_requirement (p : Part) : bool := String.eqb (part_name p) "item".

(** The state before the requirement row of the scenario, and that row. *)
Definition scenario_before_requirement : State :=
  Eval vm_compute in
    match process_rows initial_state (take 2 (scenario_rows PyNaN PyNaN)) with
    | inr st => st
    | inl _ => initial_state
    end.

Definition scenario_requirement_row : Row :=
  mkRow (PyStr "C1") (PyStr "C1.CTRL") (PyStr "R1B") PyNaN (PyStr "desc")
    (PyStr "yes") (PyStr "yes") PyNaN.

Definition scenario_headline : Part :=
  mkPart "statement" None "eucs-C1.Do_req"
    [mkProperty "label" None "2."; mkProperty "alt-identifier" None "Requirements"]
    PyNone [].

(** A requirement row whose raw identifier ends in 'S'. *)
Definition row_ending_in_S : Row :=
  mkRow (PyStr "C1") (PyStr "C1.CTRL") (PyStr "R2S") PyNaN (PyStr "desc")
    (PyStr "x") PyNaN PyNaN.

(** The claim as the specification words it: each identifier of a tier
    list is carried by exactly one Requirement part of the tier. *)
Definition each_listed_id_has_one_part (st : State) : Prop :=
  forall (t : Tier) (i : string),
    i ∈ tier_list t st ->
    length (parts_with_id (tier_name t) i (groups st)) = 1.

(** The scenario with its requirement row repeated. *)
Definition duplicate_rows : list Row :=
  (scenario_rows PyNaN PyNaN ++ [scenario_requirement_row])%list.

Definition duplicate_state : State :=
  Eval vm_compute in
    match build duplicate_rows with
    | inr st => st
    | inl _ => initial_state
    end.

Definition matches_no_pattern (row : Row) : bool :=
  negb (is_category_row row) && negb (is_control_row row)
  && negb (is_requirement_row row).

(** A row of blank cells, as an empty line of the sheet gives. *)
Definition blank_row : Row :=
  mkRow PyNaN PyNaN PyNaN PyNaN PyNaN PyNaN PyNaN PyNaN.

Definition one_sheet (rows : list Row) : Workbook :=
  mkWorkbook [("EUCS controls", rows)].

Definition any_flag (row : Row) : bool :=
  notna (r_basic row) || notna (r_substantial row) || notna (r_high row).

(** The rows processed so far have not left a current control. *)
Definition no_current_control (pre : list Row) : Prop :=
  match process_rows initial_state pre with
  | inr st => current_loop_control_title st = None
  | inl _ => True
  end.

(** A requirement row without any tier flag, first in the sheet. *)
Definition unflagged_requirement_row : Row :=
  mkRow (PyStr "C1") (PyStr "C1.CTRL") (PyStr "R1B") PyNaN (PyStr "desc")
    PyNaN PyNaN PyNaN.

(** The scenario with the description of its requirement row left blank,
    and with an empty string there. *)
Definition blank_description_row : Row :=
  mkRow (PyStr "C1") (PyStr "C1.CTRL") (PyStr "R1B") PyNaN PyNaN
    (PyStr "yes") (PyStr "yes") PyNaN.

Definition blank_description_rows : list Row :=
  (take 2 (scenario_rows PyNaN PyNaN) ++ [blank_description_row])%list.

Definition empty_description_row : Row :=
  mkRow (PyStr "C1") (PyStr "C1.CTRL") (PyStr "R1B") PyNaN (PyStr "")
    (PyStr "yes") PyNaN PyNaN.

(** The category identifiers for which the loop creates a Category: those
    of the category-only rows whose identifier differs from the category
    cell of the row before ([prev]), or that come first. *)
Definition created_here (prev : pyval) (row : Row) : list string :=
  if is_category_row row && (py_ne (r_category row) prev || is_none prev) then
    match r_category row with
    | PyStr cid => [cid]
    | _ => []
    end
  else [].

Fixpoint created_category_ids (prev : pyval) (rows : list Row) : list string :=
  match rows with
  | [] => []
  | row :: rest =>
      (created_here prev row ++ created_category_ids (r_category row) rest)%list
  end.

Definition group_names (gs : list Group) : list string := group_id <$> gs.

(** Category rows for C1, C2 and C1 again. *)
Definition category_row (cid title : string) : Row :=
  mkRow (PyStr cid) PyNaN PyNaN (PyStr title) PyNaN PyNaN PyNaN PyNaN.

Definition returning_category_rows : list Row :=
  [category_row "C1" "Cat One"; category_row "C2" "Cat Two";
   category_row "C1" "Cat One"].

Definition mentions_controls (key : string) : bool :=
  Str.contains "controls" (Str.lower key).

(** A workbook with two sheets whose names contain "controls": the first
    holds the scenario, the second is empty. *)
Definition two_controls_sheets : Workbook :=
  mkWorkbook [("Intro", []);
              ("Controls A", scenario_rows PyNaN PyNaN);
              ("controls B", [])].






(** * Vocabulary of the further properties *)

(** The two parts the loop gives a new control, and the control with
    them. *)
Definition objective_part (cid token : string) (objective : pyval) : Part :=
  mkPart "statement" None (("eucs-" ++ cid ++ "." ++ token) ++ "_obj")
    [mkProperty "label" None "1."; mkProperty "alt-identifier" None "Objective"]
    objective [].

Definition headline_part (cid token : string) (requirements : list Part) : Part :=
  mkPart "statement" None (("eucs-" ++ cid ++ "." ++ token) ++ "_req")
    [mkProperty "label" None "2."; mkProperty "alt-identifier" None "Requirements"]
    PyNone requirements.

Definition new_control (cid : string) (last : ascii) (title token : string)
    (objective : pyval) : Control :=
  mkControl ("eucs-" ++ cid ++ "." ++ token) "eucs" (PyStr title)
    [mkProperty "label" None (String last "" ++ ".")]
    [objective_part cid token objective; headline_part cid token []].

(** The state a control row leaves when it creates a control under the
    group [g] that [category] refers to. *)
Definition after_control_row (st : State) (row : Row) (gi : nat) (g : Group)
    (c : Control) : State :=
  set_current_loop
    (set_current_loop_control_title
       (set_requirement_headline
          (set_groups st
             (<[gi := set_group_controls g (append (group_controls g) c)]> (groups st)))
          (gi, length (group_controls g), 1))
       (r_title row))
    (r_category row) (r_control row).

(** A control row first in the sheet. *)
Definition control_row (cid ctl title : string) (objective : pyval) : Row :=
  mkRow (PyStr cid) (PyStr ctl) PyNaN (PyStr title) objective PyNaN PyNaN PyNaN.

(** The state after the category row of the scenario. *)
Definition scenario_after_category : State :=
  Eval vm_compute in
    match process_rows initial_state (take 1 (scenario_rows PyNaN PyNaN)) with
    | inr st => st
    | inl _ => initial_state
    end.

(** What the block of a tier leaves from a state in which it finds all it
    reads: the state itself when the flag of the tier is blank. *)
Definition block_state (t : Tier) (row : Row) (raw cid token d : string)
    (h : PartRef) (st : State) : State :=
  if notna (tier_flag t row)
  then attach t st (tier_key t raw) h
         (requirement_part (tier_name t) (tier_key t raw) cid token d)
  else st.

(** The identifier and the part a row yields for a tier, and the parts it
    yields in all, in the order of the three blocks. *)
Definition row_keys (t : Tier) (row : Row) (raw : string) : list string :=
  if notna (tier_flag t row) then [tier_key t raw] else [].

Definition block_parts (t : Tier) (row : Row) (raw cid token d : string) : list Part :=
  if notna (tier_flag t row)
  then [requirement_part (tier_name t) (tier_key t raw) cid token d]
  else [].

Definition row_parts (row : Row) (raw cid token d : string) : list Part :=
  (block_parts Basic row raw cid token d
   ++ block_parts Substantial row raw cid token d
   ++ block_parts High row raw cid token d)%list.

(** A requirement row of the scenario's control with all three flags. *)
Definition all_tiers_row : Row :=
  mkRow (PyStr "C1") (PyStr "C1.CTRL") (PyStr "R1B") PyNaN (PyStr "desc")
    (PyStr "x") (PyStr "x") (PyStr "x").

(** Two rows of the scenario's control whose identifiers differ in the
    tier letter only, both flagged for the High tier. *)
Definition high_row (raw : string) : Row :=
  mkRow (PyStr "C1") (PyStr "C1.CTRL") (PyStr raw) PyNaN (PyStr "desc")
    PyNaN PyNaN (PyStr "x").

Definition colliding_rows : list Row :=
  (take 2 (scenario_rows PyNaN PyNaN) ++ [high_row "R1B"; high_row "R1S"])%list.

Definition colliding_state : State :=
  Eval vm_compute in
    match build colliding_rows with
    | inr st => st
    | inl _ => initial_state
    end.

(** An object of the tree as it was and as it is later: the fields the
    loop never assigns are the same, and the list it appends to has the old
    list as a prefix, object by object. *)
Definition part_extends (p p' : Part) : Prop :=
  part_name p = part_name p' /\ part_class p = part_class p'
  /\ part_id p = part_id p' /\ part_props p = part_props p'
  /\ part_prose p = part_prose p'
  /\ part_parts p `prefix_of` part_parts p'.

Definition control_extends (c c' : Control) : Prop :=
  control_id c = control_id c' /\ control_class c = control_class c'
  /\ control_title c = control_title c' /\ control_props c = control_props c'
  /\ list_grows part_extends (control_parts c) (control_parts c').

Definition group_extends (g g' : Group) : Prop :=
  group_id g = group_id g' /\ group_title g = group_title g'
  /\ group_props g = group_props g'
  /\ list_grows control_extends (group_controls g) (group_controls g').

Definition tree_extends : list Group -> list Group -> Prop :=
  list_grows group_extends.






(** The shape of what the loop builds.  A Requirement part is a leaf made
    by [create_requirement] with the first word of the title of the control
    it hangs under; a control holds its Objective part and its Requirements
    headline, in this order, and the Requirement parts are the sub-parts of
    the headline; a group carries the identifier and the label
    [create_category] gave it. *)
Definition requirement_leaf (token : string) (p : Part) : Prop :=
  exists (t : Tier) (rid cid d : string),
    p = requirement_part (tier_name t) rid cid token d.

Definition control_shaped (c : Control) : Prop :=
  exists (cid title token : string) (last : ascii) (objective : pyval)
         (reqs : list Part),
    Str.first_token title = Some token
    /\ c = mkControl ("eucs-" ++ cid ++ "." ++ token) "eucs" (PyStr title)
             [mkProperty "label" None (String last "" ++ ".")]
             [objective_part cid token objective; headline_part cid token reqs]
    /\ Forall (requirement_leaf token) reqs.

Definition group_shaped (g : Group) : Prop :=
  (exists cid : string,
     group_id g = "eucs-" ++ cid
     /\ group_props g = [mkProperty "label" None (cid ++ ".")])
  /\ Forall control_shaped (group_controls g).

Definition tree_shaped (gs : list Group) : Prop := Forall group_shaped gs.

(** The tree has the shape, [category] names a group, and the current
    headline is the second part of a control whose title is the current
    title. *)
Definition shaped (st : State) : Prop :=
  tree_shaped (groups st)
  /\ (forall gi, category st = Some gi -> is_Some (groups st !! gi))
  /\ (forall h, requirement_headline st = Some h ->
        h.2 = 1%nat
        /\ exists c, lookup_control h.1 (groups st) = Some c
                     /\ current_loop_control_title st = Some (control_title c)).

(** The group [create_category] makes, and the state a category row leaves
    when it creates one. *)
Definition new_group (cid : string) (title : pyval) : Group :=
  mkGroup ("eucs-" ++ cid) title [mkProperty "label" None (cid ++ ".")] [].

Definition after_category_row (st : State) (row : Row) (cid : string) : State :=
  set_current_loop
    (set_groups (set_category st (length (groups st)))
       (append (groups st) (new_group cid (r_title row))))
    (r_category row) (r_control row).

(** The state a requirement row leaves when each block finds what it
    reads. *)
Definition after_requirement_row (st : State) (row : Row)
    (raw cid token d : string) (h : PartRef) : State :=
  set_current_loop
    (block_state High row raw cid token d h
       (block_state Substantial row raw cid token d h
          (block_state Basic row raw cid token d h st)))
    (r_category row) (r_control row).

(** A category row for C2 after the control of C1, and a requirement row
    that names C2 and a control of it. *)
Definition stray_requirement_row : Row :=
  mkRow (PyStr "C2") (PyStr "C2.OTHER") (PyStr "R9B") PyNaN (PyStr "desc")
    (PyStr "x") PyNaN PyNaN.

(** Where the current headline sits: it is the second of the two parts of
    the last control of its group, and no group after that one has a
    control. *)
Definition no_controls (g : Group) : Prop := group_controls g = [].

Definition headline_last (gs : list Group) (h : PartRef) : Prop :=
  exists (pre : list Group) (g : Group) (post : list Group)
         (cs : list Control) (c : Control) (obj head : Part),
    gs = (pre ++ g :: post)%list /\ length pre = h.1.1
    /\ Forall no_controls post
    /\ group_controls g = (cs ++ [c])%list /\ length cs = h.1.2
    /\ control_parts c = [obj; head] /\ h.2 = 1%nat.

(** [category] is the last group, the current headline the last headline,
    and each tier list reads as the tree does. *)
Definition in_order (st : State) : Prop :=
  (forall gi, category st = Some gi -> length (groups st) = S gi)
  /\ (forall h, requirement_headline st = Some h -> headline_last (groups st) h)
  /\ (forall t : Tier,
        requirement_fields (tier_name t) (groups st) = Some <$> tier_list t st).

(** Two controls with requirements of both tiers. *)
Definition two_control_rows : list Row :=
  (scenario_rows PyNaN PyNaN
   ++ [category_row "C2" "Cat Two";
       control_row "C2" "C2.X" "Keep Logs" PyNaN;
       mkRow (PyStr "C2") (PyStr "C2.X") (PyStr "R2B") PyNaN (PyStr "more")
         (PyStr "x") (PyStr "x") (PyStr "x")])%list.

Definition two_control_state : State :=
  Eval vm_compute in
    match build two_control_rows with
    | inr st => st
    | inl _ => initial_state
    end.





Definition creates_control (prev_control : pyval) (row : Row) : bool :=
  is_control_row row
  && (py_ne (r_control row) prev_control || is_none prev_control).



(** The character a tier writes in place of a final [c]. *)
Definition tier_letter (t : Tier) (c : ascii) : ascii :=
  match t with
  | Basic => c
  | Substantial => if Ascii.eqb c "B" then "S"%char else c
  | High => if Ascii.eqb c "B" || Ascii.eqb c "S" then "H"%char else c
  end.

(** The controls of the catalog from its first group to its last, each
    with its identifier and title, and the controls the control rows of a
    sheet call for: one for each control row whose identifier differs from
    the control cell of the row before it. *)
Definition control_entry (c : Control) : string * pyval :=
  (control_id c, control_title c).

Definition control_entries (gs : list Group) : list (string * pyval) :=
  flat_map (fun g => control_entry <$> group_controls g) gs.

Definition new_control_entry (row : Row) : list (string * pyval) :=
  match r_category row, r_title row with
  | PyStr cid, PyStr title =>
      match Str.first_token title with
      | Some token => [("eucs-" ++ cid ++ "." ++ token, PyStr title)]
      | None => []
      end
  | _, _ => []
  end.

Fixpoint created_controls (prev_control : pyval) (rows : list Row)
    : list (string * pyval) :=
  match rows with
  | [] => []
  | row :: rest =>
      ((if creates_control prev_control row then new_control_entry row else [])
       ++ created_controls (r_control row) rest)%list
  end.

Fixpoint count_created_controls (prev_control : pyval) (rows : list Row) : nat :=
  match rows with
  | [] => 0
  | row :: rest =>
      ((if creates_control prev_control row then 1 else 0)
       + count_created_controls (r_control row) rest)%nat
  end.

(** * Properties *)

(** ** The string operations on examples *)

Example last_two_long : Str.last_two "OIS-01.1B" = "1B".
Proof. reflexivity. Qed.

Example last_two_short : Str.last_two "B" = "B".
Proof. reflexivity. Qed.

Example first_token_title : Str.first_token "  Do Thing" = Some "Do".
Proof. reflexivity. Qed.

Example first_token_blank : Str.first_token "   " = None.
Proof. reflexivity. Qed.

Example contains_controls : Str.contains "controls" (Str.lower "EUCS Controls v1") = true.
Proof. reflexivity. Qed.

Arguments append : simpl never.
Arguments controls_append : simpl never.
Arguments control_parts_append : simpl never.
Arguments part_parts_append : simpl never.

(** ** The result type *)

Lemma bind_ok_inv {A B : Type} (m : result A) (k : A -> result B) (b : B) :
  bind m k = inr b -> exists a, m = inr a /\ k a = inr b.
Proof. destruct m as [e|a]; simpl; [discriminate | eauto]. Qed.

Lemma bind_ok {A B : Type} (m : result A) (k : A -> result B) (a : A) :
  m = inr a -> bind m k = k a.
Proof. intros ->. reflexivity. Qed.

Lemma bind_raise {A B : Type} (m : result A) (k : A -> result B) (e : exn) :
  m = inl e -> bind m k = inl e.
Proof. intros ->. reflexivity. Qed.

Ltac inv_bind H :=
  let a := fresh "a" in
  let Ha := fresh "Ha" in
  apply bind_ok_inv in H; destruct H as (a & Ha & H).

Tactic Notation "bind_inv" hyp(H) "as" ident(a) ident(Ha) :=
  apply bind_ok_inv in H; destruct H as (a & Ha & H).

(** ** Lists of the tree under [append] and in-place change *)

Lemma flat_map_alter_perm {A B : Type} (h : A -> list B) (g : A -> A)
    (i : nat) (l : list A) (x : A) (extra : list B) :
  l !! i = Some x ->
  h (g x) ≡ₚ (h x ++ extra)%list ->
  flat_map h (alter g i l) ≡ₚ (flat_map h l ++ extra)%list.
Proof.
  revert i. induction l as [|y l IH]; intros [|i] Hl Hg; simpl in *; try discriminate.
  - injection Hl as ->. rewrite Hg.
    rewrite <- !(assoc_L (++)%list). apply Permutation_app_head, Permutation_app_comm.
  - rewrite <- (assoc_L (++)%list). apply Permutation_app_head, IH; assumption.
Qed.

Lemma flat_map_alter_same {A B : Type} (h : A -> list B) (g : A -> A)
    (i : nat) (l : list A) :
  (forall x, l !! i = Some x -> h (g x) = h x) ->
  flat_map h (alter g i l) = flat_map h l.
Proof.
  revert i. induction l as [|y l IH]; intros [|i] Hg; simpl in *; try done.
  - by rewrite Hg.
  - f_equal. by apply IH.
Qed.

Lemma requirements_in_app tier (a b : list Part) :
  requirements_in tier (a ++ b)%list
  = (requirements_in tier a ++ requirements_in tier b)%list.
Proof. apply filter_app. Qed.

Lemma ids_of_app tier (a b : list Part) :
  ids_of tier (a ++ b)%list = (ids_of tier a ++ ids_of tier b)%list.
Proof. unfold ids_of. by rewrite requirements_in_app, fmap_app. Qed.

Lemma ids_of_flat_map {A : Type} tier (f : A -> list Part) (l : list A) :
  ids_of tier (flat_map f l) = flat_map (fun x => ids_of tier (f x)) l.
Proof.
  induction l as [|x l IH]; simpl; [done|]. by rewrite ids_of_app, IH.
Qed.

Lemma part_closure_unfold (p : Part) :
  part_closure p = p :: flat_map part_closure (part_parts p).
Proof.
  destruct p as [n c i pr ps sub]; simpl. apply f_equal.
  induction sub as [|q sub IH]; simpl; [done|]. by rewrite IH.
Qed.

Lemma requirement_fields_groups tier (gs : list Group) :
  requirement_fields tier gs = flat_map (group_ids tier) gs.
Proof.
  unfold requirement_fields, all_parts. rewrite ids_of_flat_map.
  apply flat_map_ext; intros g. unfold group_all_parts, group_ids.
  rewrite ids_of_flat_map. apply flat_map_ext; intros c.
  unfold control_all_parts, control_ids. by rewrite ids_of_flat_map.
Qed.

Lemma ids_of_cons tier (p : Part) (ps : list Part) :
  ids_of tier (p :: ps) = (ids_of tier [p] ++ ids_of tier ps)%list.
Proof. by rewrite <- ids_of_app. Qed.

Lemma ids_of_singleton_same tier (p q : Part) :
  is_requirement_of tier p = is_requirement_of tier q ->
  requirement_identifier p = requirement_identifier q ->
  ids_of tier [p] = ids_of tier [q].
Proof.
  intros Hc Hi. unfold ids_of, requirements_in.
  rewrite !filter_cons, !filter_nil, Hc.
  destruct (decide (is_requirement_of tier q = true)); simpl; by rewrite ?Hi.
Qed.

(** Appending a sub-part adds the identifiers found under it. *)
Lemma part_ids_append tier (p r : Part) :
  part_ids tier (set_part_parts p (append (part_parts p) r))
  = (part_ids tier p ++ part_ids tier r)%list.
Proof.
  unfold part_ids.
  rewrite (part_closure_unfold (set_part_parts _ _)), (part_closure_unfold p).
  simpl. unfold append. rewrite flat_map_app; simpl. rewrite app_nil_r.
  rewrite ids_of_cons, (ids_of_cons _ p), ids_of_app, (assoc_L (++)%list).
  f_equal. f_equal. by apply ids_of_singleton_same.
Qed.

Lemma control_ids_append tier (c : Control) (p : Part) :
  control_ids tier (set_control_parts c (append (control_parts c) p))
  = (control_ids tier c ++ part_ids tier p)%list.
Proof.
  unfold control_ids, append; simpl. rewrite flat_map_app; simpl. by rewrite app_nil_r.
Qed.

Lemma group_ids_append tier (g : Group) (c : Control) :
  group_ids tier (set_group_controls g (append (group_controls g) c))
  = (group_ids tier g ++ control_ids tier c)%list.
Proof.
  unfold group_ids, append; simpl. rewrite flat_map_app; simpl. by rewrite app_nil_r.
Qed.

Lemma requirement_fields_append tier (gs : list Group) (g : Group) :
  requirement_fields tier (append gs g)
  = (requirement_fields tier gs ++ group_ids tier g)%list.
Proof.
  rewrite !requirement_fields_groups. unfold append.
  rewrite flat_map_app; simpl. by rewrite app_nil_r.
Qed.

Lemma requirement_fields_controls_append tier gi (c : Control) (gs : list Group) :
  control_parts c = [] ->
  requirement_fields tier (controls_append gi c gs) = requirement_fields tier gs.
Proof.
  intros Hc. rewrite !requirement_fields_groups. unfold controls_append.
  apply flat_map_alter_same; intros g _.
  rewrite group_ids_append. unfold control_ids. rewrite Hc. simpl. apply app_nil_r.
Qed.

Lemma requirement_fields_control_parts_append tier cr (p : Part) (gs : list Group) :
  part_ids tier p = [] ->
  requirement_fields tier (control_parts_append cr p gs) = requirement_fields tier gs.
Proof.
  intros Hp. rewrite !requirement_fields_groups. unfold control_parts_append.
  apply flat_map_alter_same; intros g _. unfold group_ids at 1; simpl.
  apply flat_map_alter_same; intros c _.
  rewrite control_ids_append, Hp. apply app_nil_r.
Qed.

Lemma lookup_part_Some (h : PartRef) (gs : list Group) (p : Part) :
  lookup_part h gs = Some p ->
  exists g c, gs !! h.1.1 = Some g /\ group_controls g !! h.1.2 = Some c
              /\ control_parts c !! h.2 = Some p.
Proof.
  unfold lookup_part, lookup_control. intros H.
  destruct (gs !! h.1.1) as [g|] eqn:Hg; simpl in H; [|discriminate].
  destruct (group_controls g !! h.1.2) as [c|] eqn:Hc; simpl in H; [|discriminate].
  eauto.
Qed.

(** Appending a requirement through a valid reference to the headline adds
    exactly the identifiers of the requirement. *)
Lemma requirement_fields_part_parts_append tier (h : PartRef) (r : Part)
    (gs : list Group) :
  is_Some (lookup_part h gs) ->
  requirement_fields tier (part_parts_append h r gs)
  ≡ₚ (requirement_fields tier gs ++ part_ids tier r)%list.
Proof.
  intros [p Hp]. apply lookup_part_Some in Hp as (g & c & Hg & Hc & Hp).
  rewrite !requirement_fields_groups. unfold part_parts_append.
  eapply flat_map_alter_perm; [exact Hg|].
  unfold group_ids at 1 2; simpl.
  eapply flat_map_alter_perm; [exact Hc|].
  unfold control_ids at 1 2; simpl.
  eapply flat_map_alter_perm; [exact Hp|].
  by rewrite part_ids_append.
Qed.

(** ** References stay valid

    The lists of the tree only grow and their elements are only changed in
    place, so a position that held an object keeps holding one. *)

Section Grows.
Context {A : Type} (R : A -> A -> Prop).
Hypothesis R_refl : forall x, R x x.

Lemma list_grows_refl (l : list A) : list_grows R l l.
Proof. intros i x H. eauto. Qed.

Lemma list_grows_append (l : list A) (x : A) : list_grows R l (append l x).
Proof.
  intros i y H. exists y. split; [|done]. unfold append. by apply lookup_app_l_Some.
Qed.

Lemma list_grows_alter (f : A -> A) (i : nat) (l : list A) :
  (forall x, l !! i = Some x -> R x (f x)) -> list_grows R l (alter f i l).
Proof.
  intros Hf j y H. destruct (decide (i = j)) as [->|Hne].
  - exists (f y). rewrite list_lookup_alter_eq, H. split; [done|]. by apply Hf.
  - exists y. by rewrite list_lookup_alter_ne.
Qed.
End Grows.

Lemma control_grows_refl c : control_grows c c.
Proof. by apply list_grows_refl. Qed.

Lemma group_grows_refl g : group_grows g g.
Proof. apply list_grows_refl, control_grows_refl. Qed.

Lemma tree_grows_refl gs : tree_grows gs gs.
Proof. apply list_grows_refl, group_grows_refl. Qed.

Lemma tree_grows_append gs g : tree_grows gs (append gs g).
Proof. apply list_grows_append, group_grows_refl. Qed.

Lemma tree_grows_controls_append gi c gs : tree_grows gs (controls_append gi c gs).
Proof.
  apply list_grows_alter; [apply group_grows_refl|]. intros g _.
  apply list_grows_append, control_grows_refl.
Qed.

Lemma tree_grows_control_parts_append cr p gs :
  tree_grows gs (control_parts_append cr p gs).
Proof.
  apply list_grows_alter; [apply group_grows_refl|]. intros g _.
  apply list_grows_alter; [apply control_grows_refl|]. intros c _.
  by apply list_grows_append.
Qed.

Lemma tree_grows_part_parts_append h r gs :
  tree_grows gs (part_parts_append h r gs).
Proof.
  apply list_grows_alter; [apply group_grows_refl|]. intros g _.
  apply list_grows_alter; [apply control_grows_refl|]. intros c _.
  by apply list_grows_alter.
Qed.

Lemma tree_grows_trans gs1 gs2 gs3 :
  tree_grows gs1 gs2 -> tree_grows gs2 gs3 -> tree_grows gs1 gs3.
Proof.
  intros H12 H23 i g Hg.
  destruct (H12 i g Hg) as (g2 & Hg2 & R12).
  destruct (H23 i g2 Hg2) as (g3 & Hg3 & R23).
  exists g3. split; [done|]. intros j c Hc.
  destruct (R12 j c Hc) as (c2 & Hc2 & C12).
  destruct (R23 j c2 Hc2) as (c3 & Hc3 & C23).
  exists c3. split; [done|]. intros k p Hp.
  destruct (C12 k p Hp) as (p2 & Hp2 & _).
  destruct (C23 k p2 Hp2) as (p3 & Hp3 & _). eauto.
Qed.

Lemma valid_group_grows gs gs' (gi : GroupRef) :
  tree_grows gs gs' -> is_Some (gs !! gi) -> is_Some (gs' !! gi).
Proof. intros H [g Hg]. destruct (H gi g Hg) as (g' & Hg' & _). eauto. Qed.

Lemma valid_part_grows gs gs' (h : PartRef) :
  tree_grows gs gs' -> is_Some (lookup_part h gs) -> is_Some (lookup_part h gs').
Proof.
  intros H [p Hp]. apply lookup_part_Some in Hp as (g & c & Hg & Hc & Hp).
  destruct (H _ _ Hg) as (g' & Hg' & HG).
  destruct (HG _ _ Hc) as (c' & Hc' & HC).
  destruct (HC _ _ Hp) as (p' & Hp' & _).
  exists p'. unfold lookup_part, lookup_control. rewrite Hg'; simpl. rewrite Hc'; simpl. done.
Qed.

(** ** What the constructors return *)

Lemma control_stem_ok (cid title token : string) :
  Str.first_token title = Some token ->
  control_stem (PyStr cid) (PyStr title) = ok ("eucs-" ++ cid ++ "." ++ token).
Proof. intros H. unfold control_stem, py_first_token; simpl. by rewrite H. Qed.

Lemma control_stem_inv (category_id control_title : pyval) (stem : string) :
  control_stem category_id control_title = inr stem ->
  exists cid title token,
    category_id = PyStr cid /\ control_title = PyStr title
    /\ Str.first_token title = Some token
    /\ stem = "eucs-" ++ cid ++ "." ++ token.
Proof.
  unfold control_stem, py_first_token. intros H.
  destruct category_id as [| |cid]; simpl in H; try discriminate.
  destruct control_title as [| |title]; simpl in H; try discriminate.
  destruct (Str.first_token title) as [token|] eqn:Htok; simpl in H; [|discriminate].
  injection H as <-. by exists cid, title, token.
Qed.

Lemma create_requirement_ok (sev rid cid title token description : string) :
  Str.first_token title = Some token ->
  create_requirement sev (PyStr rid) (PyStr cid) (PyStr title) (PyStr description)
  = ok (requirement_part sev rid cid token description).
Proof.
  intros H. unfold create_requirement; simpl.
  by rewrite (control_stem_ok _ _ _ H).
Qed.

Lemma create_requirement_inv (sev : string)
    (requirement_id category_id control_title requirement_description : pyval)
    (r : Part) :
  create_requirement sev requirement_id category_id control_title
    requirement_description = inr r ->
  exists rid cid title token description,
    requirement_id = PyStr rid /\ category_id = PyStr cid
    /\ control_title = PyStr title /\ Str.first_token title = Some token
    /\ requirement_description = PyStr description
    /\ r = requirement_part sev rid cid token description.
Proof.
  unfold create_requirement. intros H.
  destruct requirement_id as [| |rid]; simpl in H; try discriminate.
  inv_bind H. apply control_stem_inv in Ha as (cid & title & token & -> & -> & Htok & ->).
  destruct requirement_description as [| |description]; simpl in H; try discriminate.
  injection H as <-. exists rid, cid, title, token, description.
  done.
Qed.

(** A blank description makes the concatenation of the prose fail. *)
Lemma create_requirement_blank (sev : string)
    (requirement_id category_id control_title requirement_description : pyval) :
  isna requirement_description = true ->
  is_ok (create_requirement sev requirement_id category_id control_title
           requirement_description) = false.
Proof.
  intros Hd.
  destruct (create_requirement sev requirement_id category_id control_title
              requirement_description) as [e|r] eqn:H; [done|].
  apply create_requirement_inv in H as (? & ? & ? & ? & ? & _ & _ & _ & _ & -> & _).
  discriminate.
Qed.

Lemma create_category_ok (cid : string) (title : pyval) :
  create_category (PyStr cid) title
  = ok (mkGroup ("eucs-" ++ cid) title [mkProperty "label" None (cid ++ ".")] []).
Proof. reflexivity. Qed.

Lemma create_category_inv (category_id title : pyval) (g : Group) :
  create_category category_id title = inr g ->
  exists cid, category_id = PyStr cid /\
    g = mkGroup ("eucs-" ++ cid) title [mkProperty "label" None (cid ++ ".")] [].
Proof.
  destruct category_id as [| |cid]; simpl; try discriminate.
  intros H. injection H as <-. eauto.
Qed.

Lemma create_control_inv (category_id control_id title : pyval) (c : Control) :
  create_control category_id control_id title = inr c ->
  control_parts c = [] /\ control_title c = title.
Proof.
  unfold create_control. intros H. inv_bind H. inv_bind H.
  injection H as <-. done.
Qed.

Lemma part_ids_leaf tier (p : Part) :
  part_parts p = [] -> part_ids tier p = ids_of tier [p].
Proof. intros H. unfold part_ids. by rewrite part_closure_unfold, H. Qed.

Lemma create_objective_headline_ids tier category_id control_title objective p :
  create_objective_headline category_id control_title objective = inr p ->
  part_ids tier p = [].
Proof.
  unfold create_objective_headline. intros H. inv_bind H. injection H as <-.
  by rewrite part_ids_leaf.
Qed.

Lemma create_requirement_headline_inv category_id control_title p :
  create_requirement_headline category_id control_title = inr p ->
  part_parts p = [] /\ part_name p = "statement".
Proof.
  unfold create_requirement_headline. intros H. inv_bind H. by injection H as <-.
Qed.

Lemma create_requirement_headline_ids tier category_id control_title p :
  create_requirement_headline category_id control_title = inr p ->
  part_ids tier p = [].
Proof.
  unfold create_requirement_headline. intros H. inv_bind H. injection H as <-.
  by rewrite part_ids_leaf.
Qed.

Lemma requirement_part_identifier sev rid cid token description :
  requirement_identifier (requirement_part sev rid cid token description) = Some rid.
Proof. reflexivity. Qed.

(** A Requirement part counts for its own tier only. *)
Lemma requirement_part_ids (t t' : Tier) rid cid token description :
  part_ids (tier_name t') (requirement_part (tier_name t) rid cid token description)
  = if decide (t' = t) then [Some rid] else [].
Proof.
  rewrite part_ids_leaf by done.
  destruct t, t'; reflexivity.
Qed.

(** ** Last character of an identifier *)

Lemma last_char_snoc (body : string) (c : ascii) :
  Str.last_char (body ++ String c "") = Some c.
Proof.
  induction body as [|a body IH]; simpl; [done|].
  rewrite IH. by destruct body.
Qed.

Lemma drop_last_snoc (body : string) (c : ascii) :
  Str.drop_last (body ++ String c "") = body.
Proof.
  induction body as [|a body IH]; simpl; [done|].
  rewrite IH. by destruct body.
Qed.

Lemma last_char_split (s : string) (c : ascii) :
  Str.last_char s = Some c -> s = Str.drop_last s ++ String c "".
Proof.
  induction s as [|a s IH]; simpl; [done|].
  destruct s as [|b s]; [by intros [= ->]|].
  intros H.
  change (Str.drop_last (String a (String b s)))
    with (String a (Str.drop_last (String b s))).
  change (String a (String b s) = String a (Str.drop_last (String b s) ++ String c "")).
  f_equal. by apply IH.
Qed.

Lemma last_char_None (s : string) : Str.last_char s = None -> s = "".
Proof.
  induction s as [|a s IH]; simpl; [done|].
  destruct s as [|b s]; [done|]. intros H. by specialize (IH H).
Qed.

Lemma snoc_inj (b1 b2 : string) (c1 c2 : ascii) :
  b1 ++ String c1 "" = b2 ++ String c2 "" -> b1 = b2 /\ c1 = c2.
Proof.
  intros H. split.
  - by rewrite <- (drop_last_snoc b1 c1), H, drop_last_snoc.
  - assert (Some c1 = Some c2) as [= ->]; [|done].
    by rewrite <- (last_char_snoc b1 c1), H, last_char_snoc.
Qed.

(** ** The three tier blocks of a requirement row *)

Lemma add_tier_skip (t : Tier) (st : State) (row : Row) :
  notna (tier_flag t row) = false -> add_tier t st row = ok st.
Proof. destruct t; simpl; unfold add_basic, add_substantial, add_high; by intros ->. Qed.

Lemma add_tier_ok (t : Tier) (st : State) (row : Row)
    (raw cid title token description : string) (h : PartRef) :
  notna (tier_flag t row) = true ->
  block_ready st row raw cid title token description h ->
  t = Basic \/ raw <> "" ->
  add_tier t st row
  = ok (attach t st (tier_key t raw) h
          (requirement_part (tier_name t) (tier_key t raw) cid token description)).
Proof.
  intros Hflag [Hreq Hcat Htitle Htok Hdesc Hh] Hraw.
  destruct t; simpl in *.
  - unfold add_basic. rewrite Hflag, Htitle, Hreq, Hcat, Hdesc; simpl.
    rewrite (create_requirement_ok _ _ _ _ _ _ Htok); simpl. by rewrite Hh.
  - destruct Hraw as [|Hraw]; [done|].
    unfold add_substantial, py_last, substantial_key.
    rewrite Hflag, Hreq; simpl.
    destruct (Str.last_char raw) as [c|] eqn:Hlast;
      [|by apply last_char_None in Hlast]. simpl.
    destruct (Ascii.eqb c "B"); simpl;
      rewrite Htitle, Hcat, Hdesc; simpl;
      rewrite (create_requirement_ok _ _ _ _ _ _ Htok); simpl; by rewrite Hh.
  - destruct Hraw as [|Hraw]; [done|].
    unfold add_high, py_last, high_key.
    rewrite Hflag, Hreq; simpl.
    destruct (Str.last_char raw) as [c|] eqn:Hlast;
      [|by apply last_char_None in Hlast]. simpl.
    destruct (Ascii.eqb c "B"); [|destruct (Ascii.eqb c "S")]; simpl;
      rewrite Htitle, Hcat, Hdesc; simpl;
      rewrite (create_requirement_ok _ _ _ _ _ _ Htok); simpl; by rewrite Hh.
Qed.

Lemma py_last_inv (v : pyval) (last : string) :
  py_last v = inr last ->
  exists raw c, v = PyStr raw /\ Str.last_char raw = Some c /\ last = String c "".
Proof.
  unfold py_last. destruct v as [| |raw]; simpl; try discriminate.
  destruct (Str.last_char raw) as [c|] eqn:Hc; [|discriminate].
  intros [= <-]. eauto.
Qed.

Lemma read_local_inv {A : Type} (v : option A) (a : A) :
  read_local v = inr a -> v = Some a.
Proof. destruct v; simpl; [by intros [= ->] | discriminate]. Qed.

Lemma last_char_nonempty (raw : string) (c : ascii) :
  Str.last_char raw = Some c -> raw <> "".
Proof. by intros H ->. Qed.

(** A block that returns has found everything it reads. *)
Lemma add_tier_inv (t : Tier) (st st' : State) (row : Row) :
  add_tier t st row = inr st' ->
  notna (tier_flag t row) = true ->
  exists raw cid title token description h,
    block_ready st row raw cid title token description h
    /\ (t = Basic \/ raw <> "")
    /\ st' = attach t st (tier_key t raw) h
               (requirement_part (tier_name t) (tier_key t raw) cid token description).
Proof.
  intros H Hflag. destruct t; simpl in *.
  - unfold add_basic in H. rewrite Hflag in H.
    bind_inv H as ttl Httl. apply read_local_inv in Httl.
    bind_inv H as r Hr.
    apply create_requirement_inv in Hr
      as (raw & cid & title & token & d & Hreq & Hcat & -> & Htok & Hdesc & ->).
    rewrite Hreq in H; simpl in H.
    bind_inv H as h Hh. apply read_local_inv in Hh. simpl in Hh.
    injection H as <-.
    exists raw, cid, title, token, d, h. split; [by constructor|]. split; [by left|done].
  - unfold add_substantial in H. rewrite Hflag in H.
    bind_inv H as last Hl. apply py_last_inv in Hl as (raw & c & Hreq & Hlast & ->).
    rewrite Hreq in H.
    assert (exists cid title token d,
      r_category row = PyStr cid /\ current_loop_control_title st = Some (PyStr title)
      /\ Str.first_token title = Some token /\ r_description row = PyStr d
      /\ bind (ok (requirement_part "substantial" (substantial_key raw) cid token d,
                   set_substantial_profile st
                     (append (substantial_profile st) (substantial_key raw))))
           (fun created =>
              try headline <- read_local (requirement_headline created.2) in
              ok (set_groups created.2
                    (part_parts_append headline created.1 (groups created.2))))
         = inr st') as (cid & title & token & d & Hcat & Htitle & Htok & Hdesc & H').
    { unfold substantial_key. rewrite Hlast.
      destruct (String.eqb (String c "") "B"); simpl in H.
      - bind_inv H as cr Hcr. bind_inv Hcr as ttl Httl. apply read_local_inv in Httl.
        bind_inv Hcr as r Hr.
        apply create_requirement_inv in Hr
          as (rid & cid & title & token & d & [= <-] & Hcat & -> & Htok & Hdesc & ->).
        injection Hcr as <-. by exists cid, title, token, d.
      - bind_inv H as cr Hcr. bind_inv Hcr as ttl Httl. apply read_local_inv in Httl.
        bind_inv Hcr as r Hr.
        apply create_requirement_inv in Hr
          as (rid & cid & title & token & d & [= <-] & Hcat & -> & Htok & Hdesc & ->).
        injection Hcr as <-. by exists cid, title, token, d. }
    simpl in H'. bind_inv H' as h Hh. apply read_local_inv in Hh. injection H' as <-.
    exists raw, cid, title, token, d, h. split; [by constructor|].
    split; [right; by eapply last_char_nonempty|done].
  - unfold add_high in H. rewrite Hflag in H.
    bind_inv H as last Hl. apply py_last_inv in Hl as (raw & c & Hreq & Hlast & ->).
    rewrite Hreq in H.
    assert (exists cid title token d,
      r_category row = PyStr cid /\ current_loop_control_title st = Some (PyStr title)
      /\ Str.first_token title = Some token /\ r_description row = PyStr d
      /\ bind (ok (requirement_part "high" (high_key raw) cid token d,
                   set_high_profile st (append (high_profile st) (high_key raw))))
           (fun created =>
              try headline <- read_local (requirement_headline created.2) in
              ok (set_groups created.2
                    (part_parts_append headline created.1 (groups created.2))))
         = inr st') as (cid & title & token & d & Hcat & Htitle & Htok & Hdesc & H').
    { unfold high_key. rewrite Hlast.
      destruct (String.eqb (String c "") "B" || String.eqb (String c "") "S");
        simpl in H.
      - bind_inv H as cr Hcr. bind_inv Hcr as ttl Httl. apply read_local_inv in Httl.
        bind_inv Hcr as r Hr.
        apply create_requirement_inv in Hr
          as (rid & cid & title & token & d & [= <-] & Hcat & -> & Htok & Hdesc & ->).
        injection Hcr as <-. by exists cid, title, token, d.
      - bind_inv H as cr Hcr. bind_inv Hcr as ttl Httl. apply read_local_inv in Httl.
        bind_inv Hcr as r Hr.
        apply create_requirement_inv in Hr
          as (rid & cid & title & token & d & [= <-] & Hcat & -> & Htok & Hdesc & ->).
        injection Hcr as <-. by exists cid, title, token, d. }
    simpl in H'. bind_inv H' as h Hh. apply read_local_inv in Hh. injection H' as <-.
    exists raw, cid, title, token, d, h. split; [by constructor|].
    split; [right; by eapply last_char_nonempty|done].
Qed.

(** ** Where the branches put what they create *)

Lemma lookup_append_new {A : Type} (l : list A) (x : A) :
  append l x !! length l = Some x.
Proof. unfold append. by rewrite list_lookup_middle. Qed.

Lemma lookup_control_controls_append (gi : GroupRef) (c : Control)
    (gs : list Group) :
  is_Some (gs !! gi) ->
  lookup_control (next_control gi gs) (controls_append gi c gs) = Some c.
Proof.
  intros [g Hg]. unfold lookup_control, next_control, controls_append.
  rewrite Hg; simpl. rewrite list_lookup_alter_eq, Hg; simpl.
  apply lookup_append_new.
Qed.

Lemma lookup_control_control_parts_append (cr : ControlRef) (p : Part)
    (gs : list Group) (c : Control) :
  lookup_control cr gs = Some c ->
  lookup_control cr (control_parts_append cr p gs)
  = Some (set_control_parts c (append (control_parts c) p)).
Proof.
  unfold lookup_control, control_parts_append. intros H.
  destruct (gs !! cr.1) as [g|] eqn:Hg; simpl in H; [|discriminate].
  rewrite list_lookup_alter_eq, Hg; simpl.
  by rewrite list_lookup_alter_eq, H.
Qed.

Lemma lookup_part_control_parts_append (cr : ControlRef) (p : Part)
    (gs : list Group) :
  is_Some (lookup_control cr gs) ->
  lookup_part (next_part cr gs) (control_parts_append cr p gs) = Some p.
Proof.
  intros [c Hc]. unfold lookup_part, next_part. rewrite Hc; simpl.
  rewrite (lookup_control_control_parts_append _ _ _ _ Hc); simpl.
  apply lookup_append_new.
Qed.

(** ** The builder invariant *)

Lemma inv_initial : inv initial_state.
Proof.
  split; [split; intros ? [=]|]. intros t. by destruct t.
Qed.

Lemma wf_grows (st st' : State) :
  wf st ->
  tree_grows (groups st) (groups st') ->
  category st' = category st ->
  requirement_headline st' = requirement_headline st ->
  wf st'.
Proof.
  intros [Hc Hh] Hg Ec Eh. split.
  - intros gi. rewrite Ec. intros H. eapply valid_group_grows; eauto.
  - intros h. rewrite Eh. intros H. eapply valid_part_grows; eauto.
Qed.

Lemma tier_list_attach (t t' : Tier) st i h r :
  tier_list t' (attach t st i h r)
  = if decide (t' = t) then append (tier_list t st) i else tier_list t' st.
Proof. by destruct t, t'. Qed.

Lemma groups_attach (t : Tier) st i h r :
  groups (attach t st i h r) = part_parts_append h r (groups st).
Proof. by destruct t. Qed.

Lemma inv_attach (t : Tier) (st : State) (i cid token d : string) (h : PartRef) :
  inv st ->
  requirement_headline st = Some h ->
  inv (attach t st i h (requirement_part (tier_name t) i cid token d)).
Proof.
  intros [Hwf Hcons] Hh. split.
  - apply (wf_grows st); [done| |by destruct t..].
    rewrite groups_attach. apply tree_grows_part_parts_append.
  - intros t'. rewrite tier_list_attach, groups_attach.
    rewrite requirement_fields_part_parts_append by (by apply Hwf).
    rewrite requirement_part_ids.
    destruct (decide (t' = t)) as [->|_].
    + unfold append. by rewrite fmap_app, (Hcons t).
    + rewrite app_nil_r. apply Hcons.
Qed.

Lemma inv_add_tier (t : Tier) (st st' : State) (row : Row) :
  add_tier t st row = inr st' -> inv st -> inv st'.
Proof.
  intros H Hinv. destruct (notna (tier_flag t row)) eqn:Hflag.
  - apply add_tier_inv in H as (raw & cid & title & token & d & h & Hr & _ & ->); [|done].
    apply inv_attach; [done|]. by destruct Hr.
  - rewrite add_tier_skip in H by done. by injection H as <-.
Qed.

Lemma inv_requirement_branch (st st' : State) (row : Row) :
  requirement_branch st row = inr st' -> inv st -> inv st'.
Proof.
  unfold requirement_branch. intros H Hinv.
  bind_inv H as st1 H1. bind_inv H as st2 H2.
  apply (inv_add_tier High st2 st' row H).
  apply (inv_add_tier Substantial st1 st2 row H2).
  by apply (inv_add_tier Basic st st1 row H1).
Qed.

Lemma inv_category_branch (st st' : State) (row : Row) :
  category_branch st row = inr st' -> inv st -> inv st'.
Proof.
  unfold category_branch. intros H [Hwf Hcons].
  destruct (py_ne _ _ || is_none _); [|by injection H as <-].
  bind_inv H as g Hg. injection H as <-.
  apply create_category_inv in Hg as (cid & _ & ->).
  split; [split|]; simpl.
  - intros gi [= <-]. rewrite lookup_append_new. eauto.
  - intros h Hh. eapply valid_part_grows; [apply tree_grows_append|]. by apply Hwf.
  - intros t. specialize (Hcons t).
    destruct t; simpl in *; rewrite requirement_fields_append; simpl;
      by rewrite app_nil_r.
Qed.

Lemma inv_control_branch (st st' : State) (row : Row) :
  control_branch st row = inr st' -> inv st -> inv st'.
Proof.
  unfold control_branch. intros H [Hwf Hcons].
  destruct (py_ne _ _ || is_none _); [|by injection H as <-].
  bind_inv H as c Hc. bind_inv H as gi Hgi. apply read_local_inv in Hgi.
  bind_inv H as obj Hobj. bind_inv H as req Hreq. injection H as <-.
  apply create_control_inv in Hc as [Hparts _].
  pose proof (proj1 Hwf gi Hgi) as Hvalid.
  set (cr := next_control gi (groups st)).
  set (gs1 := controls_append gi c (groups st)).
  set (gs2 := control_parts_append cr obj gs1).
  assert (lookup_control cr gs1 = Some c) as H1
    by (by apply lookup_control_controls_append).
  assert (is_Some (lookup_control cr gs2)) as H2
    by (unfold gs2; erewrite lookup_control_control_parts_append; eauto).
  assert (tree_grows (groups st) (control_parts_append cr req gs2)) as Hgrow.
  { eapply tree_grows_trans; [apply tree_grows_controls_append|].
    eapply tree_grows_trans; apply tree_grows_control_parts_append. }
  split; [split|]; simpl.
  - intros gi' Hgi'. eapply valid_group_grows; [exact Hgrow|]. by apply Hwf.
  - intros h [= <-]. rewrite lookup_part_control_parts_append; eauto.
  - intros t. specialize (Hcons t).
    assert (requirement_fields (tier_name t) (control_parts_append cr req gs2)
            = requirement_fields (tier_name t) (groups st)) as E.
    { rewrite requirement_fields_control_parts_append
        by (eapply create_requirement_headline_ids; eauto).
      unfold gs2. rewrite requirement_fields_control_parts_append
        by (eapply create_objective_headline_ids; eauto).
      unfold gs1. by rewrite requirement_fields_controls_append. }
    destruct t; simpl in *; by rewrite E.
Qed.

Lemma inv_set_current_loop (st : State) (cat ctl : pyval) :
  inv st -> inv (set_current_loop st cat ctl).
Proof. intros [[? ?] ?]. by split; [split|]. Qed.

Lemma inv_process_row (st st' : State) (row : Row) :
  process_row st row = inr st' -> inv st -> inv st'.
Proof.
  unfold process_row. intros H Hinv. bind_inv H as st1 H1. injection H as <-.
  apply inv_set_current_loop.
  destruct (is_category_row row); [by eapply inv_category_branch|].
  destruct (is_control_row row); [by eapply inv_control_branch|].
  destruct (is_requirement_row row); [by eapply inv_requirement_branch|].
  by injection H1 as <-.
Qed.

Lemma inv_process_rows (rows : list Row) (st st' : State) :
  process_rows st rows = inr st' -> inv st -> inv st'.
Proof.
  revert st. induction rows as [|row rows IH]; simpl; intros st H Hinv.
  - by injection H as <-.
  - bind_inv H as st1 H1. eapply IH; [exact H|]. by eapply inv_process_row.
Qed.

Lemma inv_build (rows : list Row) (st : State) : build rows = inr st -> inv st.
Proof. intros H. eapply inv_process_rows; [exact H|apply inv_initial]. Qed.

Lemma omap_fmap_id {A B : Type} (f : A -> option B) (l : list A) :
  omap f l = omap id (f <$> l).
Proof.
  induction l as [|x l IH]; [done|].
  rewrite fmap_cons. cbn [omap list_omap id]. fold (omap f l). fold (omap id (f <$> l)).
  by rewrite IH.
Qed.

Lemma omap_id_Some {A : Type} (l : list A) : omap id (Some <$> l) = l.
Proof.
  induction l as [|x l IH]; [done|].
  rewrite fmap_cons. cbn [omap list_omap id]. fold (omap id (Some <$> l)).
  by rewrite IH.
Qed.

Lemma requirement_ids_fields tier (gs : list Group) :
  requirement_ids tier gs = omap id (requirement_fields tier gs).
Proof. apply omap_fmap_id. Qed.

(** In a consistent state the identifiers of the Requirement parts of a
    tier are those of the tier list, and every such part has one. *)
Lemma consistent_ids (st : State) (t : Tier) :
  consistent st -> tier_list t st ≡ₚ requirement_ids (tier_name t) (groups st).
Proof.
  intros H. rewrite requirement_ids_fields, <- (H t). by rewrite omap_id_Some.
Qed.

Lemma consistent_identified (st : State) (t : Tier) (p : Part) :
  consistent st ->
  p ∈ requirements_of (tier_name t) (groups st) ->
  exists i, requirement_identifier p = Some i /\ i ∈ tier_list t st.
Proof.
  intros H Hp.
  assert (requirement_identifier p ∈ requirement_fields (tier_name t) (groups st)) as Hin.
  { unfold requirement_fields, ids_of. apply list_elem_of_fmap. by exists p. }
  rewrite <- (H t) in Hin. apply list_elem_of_fmap in Hin as (i & -> & Hi). eauto.
Qed.

(** ** The tier lists, row by row *)

Lemma tier_list_add_tier (t t' : Tier) (st st' : State) (row : Row) :
  is_requirement_row row = true ->
  add_tier t st row = inr st' ->
  tier_list t' st'
  = (tier_list t' st
     ++ if decide (t' = t) then tier_key t <$> row_raw_id t row else [])%list.
Proof.
  intros Hrow H. unfold row_raw_id. rewrite Hrow; simpl.
  destruct (notna (tier_flag t row)) eqn:Hflag.
  - apply add_tier_inv in H as (raw & cid & title & token & d & h & Hr & _ & ->); [|done].
    rewrite tier_list_attach. destruct Hr as [-> _ _ _ _ _].
    destruct (decide (t' = t)) as [->|_]; [done|]. by rewrite app_nil_r.
  - rewrite add_tier_skip in H by done. injection H as <-.
    destruct (decide (t' = t)); by rewrite app_nil_r.
Qed.

Lemma tier_list_requirement_branch (t : Tier) (st st' : State) (row : Row) :
  is_requirement_row row = true ->
  requirement_branch st row = inr st' ->
  tier_list t st' = (tier_list t st ++ (tier_key t <$> row_raw_id t row))%list.
Proof.
  unfold requirement_branch. intros Hrow H.
  bind_inv H as st1 H1. bind_inv H as st2 H2.
  rewrite (tier_list_add_tier High t st2 st' row Hrow H).
  rewrite (tier_list_add_tier Substantial t st1 st2 row Hrow H2).
  rewrite (tier_list_add_tier Basic t st st1 row Hrow H1).
  destruct t; simpl; by rewrite ?app_nil_r.
Qed.

Lemma tier_list_category_branch (t : Tier) (st st' : State) (row : Row) :
  category_branch st row = inr st' -> tier_list t st' = tier_list t st.
Proof.
  unfold category_branch. intros H.
  destruct (py_ne _ _ || is_none _); [|by injection H as <-].
  bind_inv H as g Hg. injection H as <-. by destruct t.
Qed.

Lemma tier_list_control_branch (t : Tier) (st st' : State) (row : Row) :
  control_branch st row = inr st' -> tier_list t st' = tier_list t st.
Proof.
  unfold control_branch. intros H.
  destruct (py_ne _ _ || is_none _); [|by injection H as <-].
  bind_inv H as c Hc. bind_inv H as gi Hgi.
  bind_inv H as obj Hobj. bind_inv H as req Hreq. injection H as <-. by destruct t.
Qed.

(** The three patterns exclude one another. *)
Lemma category_row_not_requirement (row : Row) :
  is_category_row row = true -> is_requirement_row row = false.
Proof.
  unfold is_category_row, is_requirement_row, notna.
  destruct (isna (r_control row)), (isna (r_requirement row)), (isna (r_category row)); done.
Qed.

Lemma control_row_not_requirement (row : Row) :
  is_control_row row = true -> is_requirement_row row = false.
Proof.
  unfold is_control_row, is_requirement_row, notna.
  destruct (isna (r_control row)), (isna (r_requirement row)), (isna (r_category row)); done.
Qed.

Lemma row_raw_id_not_requirement (t : Tier) (row : Row) :
  is_requirement_row row = false -> row_raw_id t row = [].
Proof. unfold row_raw_id. by intros ->. Qed.

Lemma tier_list_process_row (t : Tier) (st st' : State) (row : Row) :
  process_row st row = inr st' ->
  tier_list t st' = (tier_list t st ++ (tier_key t <$> row_raw_id t row))%list.
Proof.
  unfold process_row. intros H. bind_inv H as st1 H1. injection H as <-.
  assert (tier_list t (set_current_loop st1 (r_category row) (r_control row))
          = tier_list t st1) as -> by (by destruct t).
  destruct (is_category_row row) eqn:Hcat.
  { rewrite row_raw_id_not_requirement by (by apply category_row_not_requirement).
    rewrite app_nil_r. by eapply tier_list_category_branch. }
  destruct (is_control_row row) eqn:Hctl.
  { rewrite row_raw_id_not_requirement by (by apply control_row_not_requirement).
    rewrite app_nil_r. by eapply tier_list_control_branch. }
  destruct (is_requirement_row row) eqn:Hreq.
  { by apply tier_list_requirement_branch. }
  rewrite row_raw_id_not_requirement by done. injection H1 as <-. by rewrite app_nil_r.
Qed.

Lemma tier_list_process_rows (t : Tier) (rows : list Row) (st st' : State) :
  process_rows st rows = inr st' ->
  tier_list t st' = (tier_list t st ++ (tier_key t <$> flagged_raw_ids t rows))%list.
Proof.
  revert st. induction rows as [|row rows IH]; simpl; intros st H.
  - injection H as <-. by rewrite app_nil_r.
  - bind_inv H as st1 H1. rewrite (IH _ H), (tier_list_process_row t _ _ _ H1).
    unfold flagged_raw_ids; simpl. by rewrite fmap_app, (assoc_L (++)%list).
Qed.

(** Each tier list holds, in row order, the identifiers computed from the
    flagged requirement rows. *)
Lemma tier_list_build (t : Tier) (rows : list Row) (st : State) :
  build rows = inr st -> tier_list t st = tier_key t <$> flagged_raw_ids t rows.
Proof. intros H. by rewrite (tier_list_process_rows t rows _ _ H); destruct t. Qed.

(** ** The rewriting rule in the words of the specification *)

Lemma tier_rewrite_code (from : list ascii) (to : ascii) (raw : string) :
  tier_rewrite from to raw
    (match Str.last_char raw with
     | Some c => if bool_decide (c ∈ from) then Str.drop_last raw ++ String to "" else raw
     | None => raw
     end).
Proof.
  destruct (Str.last_char raw) as [c|] eqn:Hlast.
  - destruct (bool_decide_reflect (c ∈ from)) as [Hin|Hout].
    + left. exists (Str.drop_last raw), c. split; [done|]. split; [|done].
      by apply last_char_split.
    + right. split; [|done]. intros body c' Hin ->.
      rewrite last_char_snoc in Hlast. by injection Hlast as <-.
  - right. split; [|done]. intros body c' _ ->. by rewrite last_char_snoc in Hlast.
Qed.

Lemma one_char_eqb (c d : ascii) :
  String.eqb (String c "") (String d "") = bool_decide (c = d).
Proof.
  simpl. destruct (Ascii.eqb_spec c d) as [->|Hne].
  - by rewrite bool_decide_eq_true_2.
  - by rewrite bool_decide_eq_false_2.
Qed.

Lemma substantial_key_rewrite (raw : string) :
  tier_rewrite ["B"%char] "S" raw (substantial_key raw).
Proof.
  pose proof (tier_rewrite_code ["B"%char] "S" raw) as H.
  unfold substantial_key. destruct (Str.last_char raw) as [c|]; [|done].
  change "B" with (String "B"%char ""). rewrite one_char_eqb.
  destruct (decide (c = "B"%char)) as [->|Hne]; [done|].
  rewrite bool_decide_eq_false_2 by done.
  rewrite bool_decide_eq_false_2 in H; [done|]. by rewrite list_elem_of_singleton.
Qed.

Lemma high_key_rewrite (raw : string) :
  tier_rewrite ["B"%char; "S"%char] "H" raw (high_key raw).
Proof.
  pose proof (tier_rewrite_code ["B"%char; "S"%char] "H" raw) as H.
  unfold high_key. destruct (Str.last_char raw) as [c|]; [|done].
  change "B" with (String "B"%char ""). change "S" with (String "S"%char "").
  rewrite !one_char_eqb.
  destruct (decide (c = "B"%char)) as [->|HB]; [done|].
  destruct (decide (c = "S"%char)) as [->|HS]; [done|].
  rewrite !bool_decide_eq_false_2 by done. simpl.
  rewrite bool_decide_eq_false_2 in H; [done|]. set_solver.
Qed.

Lemma Forall2_fmap_fun {A B : Type} (R : A -> B -> Prop) (f : A -> B) (l : list A) :
  (forall x, R x (f x)) -> Forall2 R l (f <$> l).
Proof. intros H. induction l; constructor; auto. Qed.

Lemma lookup_part_part_parts_append (h : PartRef) (r p : Part) (gs : list Group) :
  lookup_part h gs = Some p ->
  lookup_part h (part_parts_append h r gs)
  = Some (set_part_parts p (append (part_parts p) r)).
Proof.
  intros H. apply lookup_part_Some in H as (g & c & Hg & Hc & Hp).
  unfold lookup_part, lookup_control, part_parts_append.
  rewrite list_lookup_alter_eq, Hg; simpl.
  rewrite list_lookup_alter_eq, Hc; simpl.
  by rewrite list_lookup_alter_eq, Hp.
Qed.

(** What a block leaves behind when it finds all it reads: the identifier
    at the end of the tier list, and a Requirement part of the tier carrying
    that identifier as the last sub-part of the current headline. *)
Lemma add_tier_result (t : Tier) (st : State) (row : Row)
    (raw cid title token d : string) (h : PartRef) (p : Part) :
  notna (tier_flag t row) = true ->
  block_ready st row raw cid title token d h ->
  t = Basic \/ raw <> "" ->
  lookup_part h (groups st) = Some p ->
  exists r st',
    add_tier t st row = inr st'
    /\ tier_list t st' = append (tier_list t st) (tier_key t raw)
    /\ is_requirement_of (tier_name t) r = true
    /\ requirement_identifier r = Some (tier_key t raw)
    /\ lookup_part h (groups st')
       = Some (set_part_parts p (append (part_parts p) r)).
Proof.
  intros Hflag Hready Hraw Hp.
  exists (requirement_part (tier_name t) (tier_key t raw) cid token d).
  eexists. split; [by apply (add_tier_ok t st row raw cid title token d h)|].
  rewrite tier_list_attach, groups_attach, decide_True by done.
  split; [done|]. split; [by destruct t|]. split; [done|].
  by apply lookup_part_part_parts_append.
Qed.

(** * The claims *)

(** ** The end-to-end scenario *)

Lemma scenario_builds (objective title3 : pyval) :
  build (scenario_rows objective title3) = inr (scenario_state objective title3).
Proof. vm_compute. reflexivity. Qed.

(** C5: the three-row scenario yields one category for "C1", one control
    under it whose only Requirement parts are R1B (basic) and R1S
    (substantial), in that order, and the lists basic = [R1B],
    substantial = [R1S], high = []. *)
Theorem scenario_result (objective title3 : pyval) :
  exists st g c,
    build (scenario_rows objective title3) = inr st
    /\ groups st = [g]
    /\ group_id g = "eucs-C1"
    /\ group_props g = [mkProperty "label" None "C1."]
    /\ group_controls g = [c]
    /\ control_id c = "eucs-C1.Do"
    /\ (fun p => (part_class p, requirement_identifier p))
         <$> filter (fun p => is_requirement p = true) (control_all_parts c)
       = [(Some "basic", Some "R1B"); (Some "substantial", Some "R1S")]
    /\ requirement_ids "high" (groups st) = []
    /\ basic_profile st = ["R1B"]
    /\ substantial_profile st = ["R1S"]
    /\ high_profile st = [].
Proof.
  exists (scenario_state objective title3),
    (scenario_group objective), (scenario_control objective).
  split; [apply scenario_builds|]. by repeat split.
Qed.

(** ** Identifiers per tier *)

Lemma scenario_block_ready :
  block_ready scenario_before_requirement scenario_requirement_row
    "R1B" "C1" "Do Thing" "Do" "desc" (0, 0, 1).
Proof. by constructor. Qed.

(** C1: in the block of the Substantial tier a trailing 'B' of the raw
    identifier is replaced by 'S', and any other identifier is kept; in the
    block of the High tier a trailing 'B' or 'S' is replaced by 'H', and any
    other identifier is kept.  The identifier so formed is the one appended
    to the tier list and the one carried by the Requirement part attached to
    the current headline; over a whole build, each of the two lists holds
    the rewritten identifiers of the flagged requirement rows in row order,
    and the tier's Requirement parts of the tree carry the same
    identifiers. *)
Theorem tier_identifier_rewriting :
  (forall (st : State) (row : Row) (raw cid title token d : string)
          (h : PartRef) (p : Part),
     block_ready st row raw cid title token d h ->
     raw <> "" ->
     lookup_part h (groups st) = Some p ->
     (notna (r_substantial row) = true ->
      exists sid r st',
        add_substantial st row = inr st'
        /\ tier_rewrite ["B"%char] "S" raw sid
        /\ substantial_profile st' = append (substantial_profile st) sid
        /\ is_requirement_of "substantial" r = true
        /\ requirement_identifier r = Some sid
        /\ lookup_part h (groups st')
           = Some (set_part_parts p (append (part_parts p) r)))
     /\ (notna (r_high row) = true ->
         exists hid r st',
           add_high st row = inr st'
           /\ tier_rewrite ["B"%char; "S"%char] "H" raw hid
           /\ high_profile st' = append (high_profile st) hid
           /\ is_requirement_of "high" r = true
           /\ requirement_identifier r = Some hid
           /\ lookup_part h (groups st')
              = Some (set_part_parts p (append (part_parts p) r))))
  /\ (forall (rows : list Row) (st : State),
        build rows = inr st ->
        Forall2 (tier_rewrite ["B"%char] "S")
          (flagged_raw_ids Substantial rows) (substantial_profile st)
        /\ requirement_ids "substantial" (groups st) ≡ₚ substantial_profile st
        /\ Forall2 (tier_rewrite ["B"%char; "S"%char] "H")
             (flagged_raw_ids High rows) (high_profile st)
        /\ requirement_ids "high" (groups st) ≡ₚ high_profile st).
Proof.
  split.
  - intros st row raw cid title token d h p Hready Hraw Hp. split; intros Hflag.
    + destruct (add_tier_result Substantial st row raw cid title token d h p)
        as (r & st' & H1 & H2 & H3 & H4 & H5); auto.
      exists (substantial_key raw), r, st'.
      repeat split; try done. apply substantial_key_rewrite.
    + destruct (add_tier_result High st row raw cid title token d h p)
        as (r & st' & H1 & H2 & H3 & H4 & H5); auto.
      exists (high_key raw), r, st'.
      repeat split; try done. apply high_key_rewrite.
  - intros rows st H.
    pose proof (tier_list_build Substantial rows st H) as Hs.
    pose proof (tier_list_build High rows st H) as Hh.
    destruct (inv_build rows st H) as [_ Hcons].
    simpl in Hs, Hh. rewrite Hs, Hh. repeat split.
    + apply Forall2_fmap_fun, substantial_key_rewrite.
    + rewrite <- Hs. symmetry. apply (consistent_ids st Substantial Hcons).
    + apply Forall2_fmap_fun, high_key_rewrite.
    + rewrite <- Hh. symmetry. apply (consistent_ids st High Hcons).
Qed.

Lemma tier_identifier_rewriting_witness :
  (exists sid r st',
     add_substantial scenario_before_requirement scenario_requirement_row = inr st'
     /\ tier_rewrite ["B"%char] "S" "R1B" sid
     /\ substantial_profile st'
        = append (substantial_profile scenario_before_requirement) sid
     /\ is_requirement_of "substantial" r = true
     /\ requirement_identifier r = Some sid
     /\ lookup_part (0, 0, 1) (groups st')
        = Some (set_part_parts scenario_headline
                  (append (part_parts scenario_headline) r)))
  /\ Forall2 (tier_rewrite ["B"%char] "S")
       (flagged_raw_ids Substantial (scenario_rows PyNaN PyNaN))
       (substantial_profile (scenario_state PyNaN PyNaN)).
Proof.
  split.
  - apply (proj1 (proj1 tier_identifier_rewriting
                    scenario_before_requirement scenario_requirement_row
                    "R1B" "C1" "Do Thing" "Do" "desc" (0, 0, 1) scenario_headline
                    scenario_block_ready ltac:(discriminate) eq_refl)).
    reflexivity.
  - apply (proj2 tier_identifier_rewriting (scenario_rows PyNaN PyNaN)
             (scenario_state PyNaN PyNaN) (scenario_builds PyNaN PyNaN)).
Defined.

(** C10: the block of the Basic tier appends the raw requirement
    identifier as read from the row, whatever its last character, and
    attaches a basic Requirement part carrying that same identifier; over a
    whole build the basic list is the list of raw identifiers of the
    requirement rows whose basic flag is set, in row order, and the basic
    Requirement parts of the tree carry the same identifiers. *)
Theorem basic_identifier_is_raw :
  (forall (st : State) (row : Row) (raw cid title token d : string)
          (h : PartRef) (p : Part),
     notna (r_basic row) = true ->
     block_ready st row raw cid title token d h ->
     lookup_part h (groups st) = Some p ->
     exists r st',
       add_basic st row = inr st'
       /\ basic_profile st' = append (basic_profile st) raw
       /\ is_requirement_of "basic" r = true
       /\ requirement_identifier r = Some raw
       /\ lookup_part h (groups st')
          = Some (set_part_parts p (append (part_parts p) r)))
  /\ (forall (rows : list Row) (st : State),
        build rows = inr st ->
        basic_profile st = flagged_raw_ids Basic rows
        /\ requirement_ids "basic" (groups st) ≡ₚ flagged_raw_ids Basic rows).
Proof.
  split.
  - intros st row raw cid title token d h p Hflag Hready Hp.
    apply (add_tier_result Basic st row raw cid title token d h p); auto.
  - intros rows st H.
    pose proof (tier_list_build Basic rows st H) as Hb. simpl in Hb.
    rewrite list_fmap_id in Hb.
    destruct (inv_build rows st H) as [_ Hcons].
    split; [done|]. rewrite <- Hb. symmetry. apply (consistent_ids st Basic Hcons).
Qed.

Lemma row_ending_in_S_ready :
  block_ready scenario_before_requirement row_ending_in_S
    "R2S" "C1" "Do Thing" "Do" "desc" (0, 0, 1).
Proof. by constructor. Qed.

Lemma basic_identifier_is_raw_witness :
  (exists r st',
     add_basic scenario_before_requirement row_ending_in_S = inr st'
     /\ basic_profile st' = append (basic_profile scenario_before_requirement) "R2S"
     /\ is_requirement_of "basic" r = true
     /\ requirement_identifier r = Some "R2S"
     /\ lookup_part (0, 0, 1) (groups st')
        = Some (set_part_parts scenario_headline
                  (append (part_parts scenario_headline) r)))
  /\ basic_profile (scenario_state PyNaN PyNaN)
     = flagged_raw_ids Basic (scenario_rows PyNaN PyNaN).
Proof.
  split.
  - apply (proj1 basic_identifier_is_raw
             scenario_before_requirement row_ending_in_S
             "R2S" "C1" "Do Thing" "Do" "desc" (0, 0, 1) scenario_headline
             eq_refl row_ending_in_S_ready eq_refl).
  - apply (proj2 basic_identifier_is_raw (scenario_rows PyNaN PyNaN)
             (scenario_state PyNaN PyNaN) (scenario_builds PyNaN PyNaN)).
Defined.

(** ** Tier lists against the tree *)

Lemma length_filter_fmap {A B : Type} `{EqDecision B} (f : A -> B) (y : B)
    (l : list A) :
  length (filter (fun x => f x = y) l) = length (filter (fun z => z = y) (f <$> l)).
Proof.
  induction l as [|x l IH]; [done|].
  rewrite fmap_cons, !filter_cons.
  destruct (decide (f x = y)); simpl; by rewrite IH.
Qed.

Lemma length_filter_Some {A : Type} `{EqDecision A} (i : A) (l : list A) :
  length (filter (fun z => z = Some i) (Some <$> l))
  = length (filter (fun j => j = i) l).
Proof.
  induction l as [|x l IH]; [done|].
  rewrite fmap_cons, !filter_cons.
  destruct (decide (x = i)) as [->|Hne].
  - rewrite decide_True by done. simpl. by rewrite IH.
  - rewrite decide_False by congruence. done.
Qed.

Lemma occurrences_elem (i : string) (l : list string) :
  i ∈ l -> 1 <= occurrences i l.
Proof.
  unfold occurrences. intros H.
  assert (i ∈ filter (fun j => j = i) l) as Hin by (by apply list_elem_of_filter).
  destruct (filter (fun j => j = i) l); [by apply elem_of_nil in Hin|simpl; lia].
Qed.

Lemma occurrences_NoDup (i : string) (l : list string) :
  NoDup l -> i ∈ l -> occurrences i l = 1.
Proof.
  unfold occurrences. induction 1 as [|x l Hx Hnd IH]; intros Hin.
  - by apply elem_of_nil in Hin.
  - rewrite filter_cons. destruct (decide (x = i)) as [->|Hne].
    + simpl. f_equal. destruct (filter (fun j => j = i) l) as [|y l'] eqn:E; [done|].
      assert (y ∈ filter (fun j => j = i) l) as Hy by (rewrite E; left).
      apply list_elem_of_filter in Hy as [-> Hy]. done.
    + apply IH. apply elem_of_cons in Hin as [->|Hin]; done.
Qed.

(** In a consistent state an identifier has as many Requirement parts of
    the tier as it has occurrences in the tier list. *)
Lemma consistent_count (st : State) (t : Tier) (i : string) :
  consistent st ->
  length (parts_with_id (tier_name t) i (groups st)) = occurrences i (tier_list t st).
Proof.
  intros H. unfold parts_with_id, occurrences.
  rewrite length_filter_fmap, <- (length_filter_Some i (tier_list t st)).
  change (requirement_identifier <$> requirements_of (tier_name t) (groups st))
    with (requirement_fields (tier_name t) (groups st)).
  by rewrite <- (H t).
Qed.

(** C2, as stated, fails: a requirement row that occurs twice puts its
    identifier twice in the basic list and two basic Requirement parts with
    that identifier in the tree. *)
Lemma repeated_row_counterexample :
  build duplicate_rows = inr duplicate_state
  /\ basic_profile duplicate_state = ["R1B"; "R1B"]
  /\ length (parts_with_id "basic" "R1B" (groups duplicate_state)) = 2
  /\ ~ each_listed_id_has_one_part duplicate_state.
Proof.
  split; [by vm_compute|]. split; [done|]. split; [by vm_compute|].
  intros H. specialize (H Basic "R1B").
  assert (length (parts_with_id (tier_name Basic) "R1B" (groups duplicate_state)) = 2)
    as E by (by vm_compute).
  rewrite E in H. discriminate H. simpl. set_solver.
Qed.

(** C2, amended: when the builder completes, for each tier an identifier
    is carried by as many Requirement parts of the tier reachable from the
    catalog as it has occurrences in the tier list, hence by exactly one
    when the list repeats no identifier, and every Requirement part of the
    tier reachable from the catalog has an identifier that is in the list. *)
Theorem tier_lists_match_tree (rows : list Row) (st : State) (t : Tier) :
  build rows = inr st ->
  (forall i, length (parts_with_id (tier_name t) i (groups st))
             = occurrences i (tier_list t st))
  /\ (forall i, i ∈ tier_list t st ->
        1 <= length (parts_with_id (tier_name t) i (groups st)))
  /\ (NoDup (tier_list t st) ->
      forall i, i ∈ tier_list t st ->
        length (parts_with_id (tier_name t) i (groups st)) = 1)
  /\ (forall p, p ∈ requirements_of (tier_name t) (groups st) ->
        exists i, requirement_identifier p = Some i /\ i ∈ tier_list t st)
  /\ tier_list t st ≡ₚ requirement_ids (tier_name t) (groups st).
Proof.
  intros H. destruct (inv_build rows st H) as [_ Hcons].
  split; [intros i; by apply consistent_count|].
  split; [intros i Hi; rewrite consistent_count by done; by apply occurrences_elem|].
  split; [intros Hnd i Hi; rewrite consistent_count by done;
          by apply occurrences_NoDup|].
  split; [intros p Hp; by apply consistent_identified|].
  by apply consistent_ids.
Qed.

Lemma tier_lists_match_tree_witness :
  build duplicate_rows = inr duplicate_state
  /\ length (parts_with_id "basic" "R1B" (groups duplicate_state))
     = occurrences "R1B" (basic_profile duplicate_state).
Proof.
  split; [reflexivity|].
  apply (proj1 (tier_lists_match_tree duplicate_rows duplicate_state Basic eq_refl)).
Defined.

(** ** Rows outside the three patterns *)

(** C3, as stated, fails: a blank row matches none of the three patterns,
    and the run over it completes and writes a catalog without groups. *)
Lemma blank_row_counterexample :
  matches_no_pattern blank_row = true
  /\ build [blank_row] = inr (set_current_loop initial_state PyNaN PyNaN)
  /\ exists e fs,
       run "/work" "t0" "t1" (one_sheet [blank_row]) "out" "1.0" ∅ = (inr e, fs)
       /\ catalog_groups (end_catalog e) = []
       /\ fs !! "/work/out/EUCS_controls_version_1.0_catalog.json"
          = Some (CatalogDoc (end_catalog e)).
Proof.
  split; [done|]. split; [done|].
  eexists. eexists. split; [reflexivity|]. split; [done|].
  simpl. unfold oscal_write.
  rewrite !lookup_insert_ne by done. by rewrite lookup_insert_eq.
Qed.

(** C3, amended: a row that matches none of the three patterns raises no
    error and is passed over; the tree, the three lists and the current
    control stay as they were, and only the two look-back identifiers take
    the cells of the row. *)
Theorem unmatched_row_is_passed_over (st : State) (row : Row) :
  matches_no_pattern row = true ->
  exists st',
    process_row st row = inr st'
    /\ st' = set_current_loop st (r_category row) (r_control row)
    /\ groups st' = groups st
    /\ (forall t, tier_list t st' = tier_list t st)
    /\ category st' = category st
    /\ requirement_headline st' = requirement_headline st
    /\ current_loop_control_title st' = current_loop_control_title st.
Proof.
  unfold matches_no_pattern, process_row. intros H.
  destruct (is_category_row row); [done|].
  destruct (is_control_row row); [done|].
  destruct (is_requirement_row row); [done|].
  eexists. split; [reflexivity|]. repeat split; try done; intros t; by destruct t.
Qed.

Lemma unmatched_row_is_passed_over_witness :
  matches_no_pattern blank_row = true
  /\ exists st',
       process_row (scenario_state PyNaN PyNaN) blank_row = inr st'
       /\ st' = set_current_loop (scenario_state PyNaN PyNaN) PyNaN PyNaN
       /\ groups st' = groups (scenario_state PyNaN PyNaN)
       /\ (forall t, tier_list t st' = tier_list t (scenario_state PyNaN PyNaN))
       /\ category st' = category (scenario_state PyNaN PyNaN)
       /\ requirement_headline st' = requirement_headline (scenario_state PyNaN PyNaN)
       /\ current_loop_control_title st'
          = current_loop_control_title (scenario_state PyNaN PyNaN).
Proof.
  split; [reflexivity|].
  apply (unmatched_row_is_passed_over (scenario_state PyNaN PyNaN) blank_row eq_refl).
Defined.

(** ** Aborted runs *)

Lemma process_rows_app (pre rest : list Row) (st : State) :
  process_rows st (pre ++ rest)%list
  = bind (process_rows st pre) (fun st1 => process_rows st1 rest).
Proof.
  revert st. induction pre as [|row pre IH]; intros st; simpl; [done|].
  destruct (process_row st row) as [e|st1]; simpl; [done|]. apply IH.
Qed.

(** An exception in the loop leaves [run] before anything is written. *)
Lemma run_build_error (cwd published last_modified : string) (wb : Workbook)
    (name : string) (out v : string) (fs : gmap string Document) (e : exn) :
  select_sheet (sheet_names wb) = Some name ->
  build (read_excel wb name) = inl e ->
  run cwd published last_modified wb out v fs = (inl e, fs).
Proof. intros Hs Hb. unfold run. rewrite Hs; simpl. by rewrite Hb. Qed.

Lemma notna_PyStr (v : pyval) : notna v = true -> exists s, v = PyStr s.
Proof. destruct v; try done. eauto. Qed.

Lemma requirement_row_cells (row : Row) :
  is_requirement_row row = true ->
  exists cid ctl raw,
    r_category row = PyStr cid /\ r_control row = PyStr ctl
    /\ r_requirement row = PyStr raw.
Proof.
  unfold is_requirement_row. intros H.
  apply andb_prop in H as [H Hreq]. apply andb_prop in H as [Hcat Hctl].
  apply notna_PyStr in Hcat as [cid ->].
  apply notna_PyStr in Hctl as [ctl ->].
  apply notna_PyStr in Hreq as [raw ->]. by exists cid, ctl, raw.
Qed.

(** Without a current control a block whose flag is set fails when it
    reads the title, or before that on an empty identifier. *)
Lemma add_tier_no_title (t : Tier) (st : State) (row : Row) :
  notna (tier_flag t row) = true ->
  notna (r_requirement row) = true ->
  current_loop_control_title st = None ->
  exists e, add_tier t st row = inl e /\ (e = UnboundLocalError \/ e = IndexError).
Proof.
  intros Hflag Hreq Htitle. apply notna_PyStr in Hreq as [raw Hreq].
  destruct t; simpl in *.
  - unfold add_basic. rewrite Hflag, Htitle. simpl. eauto.
  - unfold add_substantial, py_last. rewrite Hflag, Hreq. simpl.
    destruct (Str.last_char raw) as [c|]; simpl; [|eauto].
    destruct (Ascii.eqb c "B"); simpl; rewrite Htitle; simpl; eauto.
  - unfold add_high, py_last. rewrite Hflag, Hreq. simpl.
    destruct (Str.last_char raw) as [c|]; simpl; [|eauto].
    destruct (Ascii.eqb c "B"); [|destruct (Ascii.eqb c "S")]; simpl;
      rewrite Htitle; simpl; eauto.
Qed.

Lemma requirement_branch_no_title (st : State) (row : Row) :
  notna (r_requirement row) = true ->
  current_loop_control_title st = None ->
  if any_flag row
  then exists e, requirement_branch st row = inl e
                 /\ (e = UnboundLocalError \/ e = IndexError)
  else requirement_branch st row = inr st.
Proof.
  intros Hreq Htitle. unfold any_flag, requirement_branch.
  destruct (notna (r_basic row)) eqn:Hb; simpl.
  { destruct (add_tier_no_title Basic st row Hb Hreq Htitle) as (e & He & Hk).
    simpl in He. rewrite He. simpl. eauto. }
  rewrite (add_tier_skip Basic st row Hb : add_basic st row = _). simpl.
  destruct (notna (r_substantial row)) eqn:Hs; simpl.
  { destruct (add_tier_no_title Substantial st row Hs Hreq Htitle) as (e & He & Hk).
    simpl in He. rewrite He. simpl. eauto. }
  rewrite (add_tier_skip Substantial st row Hs : add_substantial st row = _). simpl.
  destruct (notna (r_high row)) eqn:Hh; simpl.
  { destruct (add_tier_no_title High st row Hh Hreq Htitle) as (e & He & Hk).
    simpl in He. rewrite He. eauto. }
  apply (add_tier_skip High st row Hh).
Qed.

Lemma category_branch_title (st st' : State) (row : Row) :
  category_branch st row = inr st' ->
  current_loop_control_title st' = current_loop_control_title st.
Proof.
  unfold category_branch. intros H.
  destruct (py_ne _ _ || is_none _); [|by injection H as <-].
  bind_inv H as g Hg. by injection H as <-.
Qed.

Lemma category_branch_returns (st : State) (row : Row) :
  is_category_row row = true -> exists st', category_branch st row = inr st'.
Proof.
  unfold is_category_row, category_branch. intros H.
  apply andb_prop in H as [_ Hcat]. apply notna_PyStr in Hcat as [cid ->].
  destruct (py_ne _ _ || is_none _); simpl; eauto.
Qed.

(** Outside the control branch no current control comes into being. *)
Lemma process_row_no_control (st : State) (row : Row) :
  is_control_row row = false ->
  current_loop_control_title st = None ->
  (exists st', process_row st row = inr st'
               /\ current_loop_control_title st' = None)
  \/ (exists e, process_row st row = inl e
                /\ (e = UnboundLocalError \/ e = IndexError)).
Proof.
  intros Hctl Htitle. unfold process_row. rewrite Hctl.
  destruct (is_category_row row) eqn:Hcat.
  { destruct (category_branch_returns st row Hcat) as [st' H]. left.
    rewrite H. simpl. eexists. split; [done|]. simpl.
    by rewrite (category_branch_title st st' row H). }
  destruct (is_requirement_row row) eqn:Hreq; [|left; simpl; eauto].
  assert (notna (r_requirement row) = true) as Hn.
  { apply requirement_row_cells in Hreq as (? & ? & ? & _ & _ & ->). done. }
  pose proof (requirement_branch_no_title st row Hn Htitle) as H.
  destruct (any_flag row).
  - destruct H as (e & -> & Hk). right. simpl. eauto.
  - rewrite H. left. simpl. eauto.
Qed.

Lemma process_rows_no_control (pre : list Row) (st : State) :
  Forall (fun row => is_control_row row = false) pre ->
  current_loop_control_title st = None ->
  match process_rows st pre with
  | inr st' => current_loop_control_title st' = None
  | inl _ => True
  end.
Proof.
  intros Hpre. revert st. induction Hpre as [|row pre Hrow _ IH]; intros st Ht; simpl.
  - done.
  - destruct (process_row_no_control st row Hrow Ht) as [(st' & -> & Ht')|(e & -> & _)];
      simpl; [by apply IH|done].
Qed.

(** Rows among which there is no control row leave no current control. *)
Lemma rows_without_control_row (pre : list Row) :
  Forall (fun row => is_control_row row = false) pre -> no_current_control pre.
Proof. intros H. by apply process_rows_no_control. Qed.

(** C8, as stated, fails: a requirement row that comes before any control
    row and has no tier flag raises nothing; the run completes and writes
    the catalog. *)
Lemma unflagged_requirement_counterexample :
  is_requirement_row unflagged_requirement_row = true
  /\ no_current_control []
  /\ is_ok (build [unflagged_requirement_row]) = true
  /\ exists e fs,
       run "/work" "t0" "t1" (one_sheet [unflagged_requirement_row]) "out" "1.0" ∅
       = (inr e, fs)
       /\ fs !! "/work/out/EUCS_controls_version_1.0_catalog.json"
          = Some (CatalogDoc (end_catalog e)).
Proof.
  split; [done|]. split; [done|]. split; [done|].
  eexists. eexists. split; [reflexivity|].
  simpl. unfold oscal_write.
  rewrite !lookup_insert_ne by done. by rewrite lookup_insert_eq.
Qed.

(** C8, amended: when a requirement row with at least one tier flag set
    comes while no control row has left a current control, the run aborts
    with an exception and writes no file at all; the exception is the
    unbound-variable error of reading the current control title, or the
    index error of an empty identifier.  (A requirement row with no flag
    set is passed over.) *)
Theorem flagged_requirement_before_control_aborts
    (pre post : list Row) (row : Row) :
  no_current_control pre ->
  is_requirement_row row = true ->
  any_flag row = true ->
  exists e,
    build (pre ++ row :: post)%list = inl e
    /\ (is_ok (process_rows initial_state pre) = true ->
        e = UnboundLocalError \/ e = IndexError)
    /\ forall (cwd published last_modified : string) (wb : Workbook)
              (name out v : string) (fs : gmap string Document),
         select_sheet (sheet_names wb) = Some name ->
         read_excel wb name = (pre ++ row :: post)%list ->
         run cwd published last_modified wb out v fs = (inl e, fs).
Proof.
  intros Hpre Hrow Hflag. unfold no_current_control in Hpre.
  assert (exists e, build (pre ++ row :: post)%list = inl e
                    /\ (is_ok (process_rows initial_state pre) = true ->
                        e = UnboundLocalError \/ e = IndexError))
    as (e & He & Hk).
  { unfold build. rewrite process_rows_app.
    destruct (process_rows initial_state pre) as [e|st]; simpl; [by exists e|].
    assert (notna (r_requirement row) = true) as Hn.
    { apply requirement_row_cells in Hrow as (? & ? & ? & _ & _ & ->). done. }
    pose proof (requirement_branch_no_title st row Hn Hpre) as H.
    rewrite Hflag in H. destruct H as (e & He & Hk). exists e.
    split; [|done]. unfold process_row.
    assert (is_category_row row = false) as ->.
    { destruct (is_category_row row) eqn:Hc; [|done].
      apply category_row_not_requirement in Hc. congruence. }
    assert (is_control_row row = false) as ->.
    { destruct (is_control_row row) eqn:Hc; [|done].
      apply control_row_not_requirement in Hc. congruence. }
    by rewrite Hrow, He. }
  exists e. split; [done|]. split; [done|].
  intros cwd published last_modified wb name out v fs Hs Hr.
  apply (run_build_error _ _ _ _ name); [done|]. by rewrite Hr.
Qed.

Lemma flagged_requirement_before_control_aborts_witness :
  exists e,
    build ([blank_row] ++ scenario_requirement_row :: [blank_row])%list = inl e
    /\ (is_ok (process_rows initial_state [blank_row]) = true ->
        e = UnboundLocalError \/ e = IndexError)
    /\ forall (cwd published last_modified : string) (wb : Workbook)
              (name out v : string) (fs : gmap string Document),
         select_sheet (sheet_names wb) = Some name ->
         read_excel wb name
         = ([blank_row] ++ scenario_requirement_row :: [blank_row])%list ->
         run cwd published last_modified wb out v fs = (inl e, fs).
Proof.
  apply (flagged_requirement_before_control_aborts
           [blank_row] [blank_row] scenario_requirement_row
           eq_refl eq_refl eq_refl).
Defined.

(** ** Requirement rows with a blank description *)

Lemma process_row_requirement (st : State) (row : Row) :
  is_requirement_row row = true ->
  process_row st row
  = bind (requirement_branch st row)
      (fun st1 => ok (set_current_loop st1 (r_category row) (r_control row))).
Proof.
  intros Hrow. unfold process_row.
  assert (is_category_row row = false) as ->.
  { destruct (is_category_row row) eqn:Hc; [|done].
    apply category_row_not_requirement in Hc. congruence. }
  assert (is_control_row row = false) as ->.
  { destruct (is_control_row row) eqn:Hc; [|done].
    apply control_row_not_requirement in Hc. congruence. }
  by rewrite Hrow.
Qed.

Lemma any_flag_tier (row : Row) :
  any_flag row = true -> exists t, notna (tier_flag t row) = true.
Proof.
  unfold any_flag. intros H.
  destruct (notna (r_basic row)) eqn:Hb; [by exists Basic|].
  destruct (notna (r_substantial row)) eqn:Hs; [by exists Substantial|].
  by exists High.
Qed.

Lemma requirement_branch_inv (st st' : State) (row : Row) (t : Tier) :
  requirement_branch st row = inr st' ->
  exists st1 st2, add_tier t st1 row = inr st2.
Proof.
  unfold requirement_branch. intros H.
  bind_inv H as st1 H1. bind_inv H as st2 H2.
  destruct t; simpl; eauto.
Qed.

(** No block whose flag is set returns on a blank description. *)
Lemma requirement_branch_blank_description (st : State) (row : Row) :
  any_flag row = true ->
  isna (r_description row) = true ->
  exists e, requirement_branch st row = inl e.
Proof.
  intros Hflag Hdesc.
  destruct (requirement_branch st row) as [e|st'] eqn:H; [eauto|].
  apply any_flag_tier in Hflag as [t Ht].
  apply (requirement_branch_inv _ _ _ t) in H as (st1 & st2 & H).
  apply add_tier_inv in H as (raw & cid & title & token & d & h & Hr & _); [|done].
  destruct Hr as [_ _ _ _ Hd _]. rewrite Hd in Hdesc. discriminate.
Qed.

Lemma create_requirement_blank_TypeError (sev raw cid title token : string)
    (description : pyval) :
  Str.first_token title = Some token ->
  isna description = true ->
  create_requirement sev (PyStr raw) (PyStr cid) (PyStr title) description
  = inl TypeError.
Proof.
  intros Htok Hd. unfold create_requirement; simpl.
  rewrite (control_stem_ok _ _ _ Htok); simpl. by destruct description.
Qed.

(** With a current control, the failure is that of the concatenation of
    the prose. *)
Lemma add_tier_blank_TypeError (t : Tier) (st : State) (row : Row)
    (raw cid title token : string) :
  notna (tier_flag t row) = true ->
  r_requirement row = PyStr raw ->
  raw <> "" ->
  r_category row = PyStr cid ->
  current_loop_control_title st = Some (PyStr title) ->
  Str.first_token title = Some token ->
  isna (r_description row) = true ->
  add_tier t st row = inl TypeError.
Proof.
  intros Hflag Hreq Hraw Hcat Htitle Htok Hd. destruct t; simpl in *.
  - unfold add_basic. rewrite Hflag, Htitle, Hreq, Hcat; simpl.
    by rewrite (create_requirement_blank_TypeError _ _ _ _ _ _ Htok Hd).
  - unfold add_substantial, py_last. rewrite Hflag, Hreq; simpl.
    destruct (Str.last_char raw) as [c|] eqn:Hlast;
      [|by apply last_char_None in Hlast]. simpl.
    destruct (Ascii.eqb c "B"); simpl; rewrite Htitle, Hcat; simpl;
      by rewrite (create_requirement_blank_TypeError _ _ _ _ _ _ Htok Hd).
  - unfold add_high, py_last. rewrite Hflag, Hreq; simpl.
    destruct (Str.last_char raw) as [c|] eqn:Hlast;
      [|by apply last_char_None in Hlast]. simpl.
    destruct (Ascii.eqb c "B"); [|destruct (Ascii.eqb c "S")]; simpl;
      rewrite Htitle, Hcat; simpl;
      by rewrite (create_requirement_blank_TypeError _ _ _ _ _ _ Htok Hd).
Qed.

Lemma requirement_branch_blank_TypeError (st : State) (row : Row)
    (raw cid title token : string) :
  any_flag row = true ->
  r_requirement row = PyStr raw ->
  raw <> "" ->
  r_category row = PyStr cid ->
  current_loop_control_title st = Some (PyStr title) ->
  Str.first_token title = Some token ->
  isna (r_description row) = true ->
  requirement_branch st row = inl TypeError.
Proof.
  intros Hflag Hreq Hraw Hcat Htitle Htok Hd. unfold requirement_branch, any_flag in *.
  destruct (notna (r_basic row)) eqn:Hb.
  { by rewrite (add_tier_blank_TypeError Basic st row raw cid title token Hb
                  Hreq Hraw Hcat Htitle Htok Hd : add_basic st row = _). }
  rewrite (add_tier_skip Basic st row Hb : add_basic st row = _). simpl.
  destruct (notna (r_substantial row)) eqn:Hs.
  { by rewrite (add_tier_blank_TypeError Substantial st row raw cid title token Hs
                  Hreq Hraw Hcat Htitle Htok Hd : add_substantial st row = _). }
  rewrite (add_tier_skip Substantial st row Hs : add_substantial st row = _). simpl.
  simpl in Hflag.
  apply (add_tier_blank_TypeError High st row raw cid title token Hflag
           Hreq Hraw Hcat Htitle Htok Hd).
Qed.

(** C7, as stated, fails: with a blank description the first block whose
    flag is set raises a type error, so no Requirement part is created, no
    identifier is appended and nothing is written; and a Requirement part
    built from an empty string as description has the prose ["R1B - "], not
    an empty prose. *)
Lemma blank_description_counterexample :
  is_requirement_row blank_description_row = true
  /\ any_flag blank_description_row = true
  /\ isna (r_description blank_description_row) = true
  /\ build blank_description_rows = inl TypeError
  /\ run "/work" "t0" "t1" (one_sheet blank_description_rows) "out" "1.0" ∅
     = (inl TypeError, ∅)
  /\ exists st,
       add_basic scenario_before_requirement empty_description_row = inr st
       /\ part_prose <$> requirements_of "basic" (groups st) = [PyStr "R1B - "].
Proof.
  split; [done|]. split; [done|]. split; [done|]. split; [by vm_compute|].
  split; [by vm_compute|]. eexists. split; [by vm_compute|]. by vm_compute.
Qed.

(** C7, amended: a requirement row that has at least one tier flag set
    and a blank description aborts the run: no Requirement part is created
    for it, no identifier is appended and no file is written.  When the row
    has a non-empty identifier and a current control, the exception is the
    type error of concatenating the prose. *)
Theorem blank_description_aborts (pre post : list Row) (row : Row) :
  is_requirement_row row = true ->
  any_flag row = true ->
  isna (r_description row) = true ->
  exists e,
    build (pre ++ row :: post)%list = inl e
    /\ (forall (st : State) (raw title token : string),
          process_rows initial_state pre = inr st ->
          r_requirement row = PyStr raw ->
          raw <> "" ->
          current_loop_control_title st = Some (PyStr title) ->
          Str.first_token title = Some token ->
          e = TypeError)
    /\ forall (cwd published last_modified : string) (wb : Workbook)
              (name out v : string) (fs : gmap string Document),
         select_sheet (sheet_names wb) = Some name ->
         read_excel wb name = (pre ++ row :: post)%list ->
         run cwd published last_modified wb out v fs = (inl e, fs).
Proof.
  intros Hrow Hflag Hd.
  assert (exists e, build (pre ++ row :: post)%list = inl e
            /\ (forall (st : State) (raw title token : string),
                  process_rows initial_state pre = inr st ->
                  r_requirement row = PyStr raw ->
                  raw <> "" ->
                  current_loop_control_title st = Some (PyStr title) ->
                  Str.first_token title = Some token ->
                  e = TypeError)) as (e & He & Hk).
  { unfold build. rewrite process_rows_app.
    destruct (process_rows initial_state pre) as [e|st]; simpl.
    { exists e. split; [done|]. by intros. }
    rewrite (process_row_requirement st row Hrow).
    destruct (requirement_branch_blank_description st row Hflag Hd) as [e He].
    exists e. rewrite He. split; [done|].
    intros st0 raw title token [= <-] Hreq Hraw Htitle Htok.
    destruct (requirement_row_cells row Hrow) as (cid & _ & _ & Hcat & _ & _).
    rewrite (requirement_branch_blank_TypeError st row raw cid title token) in He;
      try done. by injection He. }
  exists e. split; [done|]. split; [done|].
  intros cwd published last_modified wb name out v fs Hs Hr.
  apply (run_build_error _ _ _ _ name); [done|]. by rewrite Hr.
Qed.

Lemma blank_description_aborts_witness :
  exists e,
    build (take 2 (scenario_rows PyNaN PyNaN) ++ blank_description_row :: [])%list
    = inl e
    /\ (forall (st : State) (raw title token : string),
          process_rows initial_state (take 2 (scenario_rows PyNaN PyNaN)) = inr st ->
          r_requirement blank_description_row = PyStr raw ->
          raw <> "" ->
          current_loop_control_title st = Some (PyStr title) ->
          Str.first_token title = Some token ->
          e = TypeError)
    /\ forall (cwd published last_modified : string) (wb : Workbook)
              (name out v : string) (fs : gmap string Document),
         select_sheet (sheet_names wb) = Some name ->
         read_excel wb name
         = (take 2 (scenario_rows PyNaN PyNaN) ++ blank_description_row :: [])%list ->
         run cwd published last_modified wb out v fs = (inl e, fs).
Proof.
  apply (blank_description_aborts (take 2 (scenario_rows PyNaN PyNaN)) []
           blank_description_row eq_refl eq_refl eq_refl).
Defined.

(** ** Grouping of repeated rows *)

Lemma group_names_alter (f : Group -> Group) (i : nat) (gs : list Group) :
  (forall g, group_id (f g) = group_id g) ->
  group_names (alter f i gs) = group_names gs.
Proof.
  intros Hf. unfold group_names. revert i.
  induction gs as [|g gs IH]; intros [|i]; simpl; try done.
  - by rewrite Hf.
  - f_equal. apply IH.
Qed.

Lemma group_names_controls_append gi c gs :
  group_names (controls_append gi c gs) = group_names gs.
Proof. by apply group_names_alter. Qed.

Lemma group_names_control_parts_append cr p gs :
  group_names (control_parts_append cr p gs) = group_names gs.
Proof. by apply group_names_alter. Qed.

Lemma group_names_part_parts_append h r gs :
  group_names (part_parts_append h r gs) = group_names gs.
Proof. by apply group_names_alter. Qed.

Lemma group_names_add_tier (t : Tier) (st st' : State) (row : Row) :
  add_tier t st row = inr st' -> group_names (groups st') = group_names (groups st).
Proof.
  intros H. destruct (notna (tier_flag t row)) eqn:Hflag.
  - apply add_tier_inv in H as (raw & cid & title & token & d & h & _ & _ & ->); [|done].
    rewrite groups_attach. apply group_names_part_parts_append.
  - rewrite add_tier_skip in H by done. by injection H as <-.
Qed.

Lemma group_names_requirement_branch (st st' : State) (row : Row) :
  requirement_branch st row = inr st' ->
  group_names (groups st') = group_names (groups st).
Proof.
  unfold requirement_branch. intros H.
  bind_inv H as st1 H1. bind_inv H as st2 H2.
  rewrite (group_names_add_tier High _ _ _ H).
  rewrite (group_names_add_tier Substantial _ _ _ H2).
  apply (group_names_add_tier Basic _ _ _ H1).
Qed.

Lemma group_names_control_branch (st st' : State) (row : Row) :
  control_branch st row = inr st' ->
  group_names (groups st') = group_names (groups st).
Proof.
  unfold control_branch. intros H.
  destruct (py_ne _ _ || is_none _); [|by injection H as <-].
  bind_inv H as c Hc. bind_inv H as gi Hgi.
  bind_inv H as obj Hobj. bind_inv H as req Hreq. injection H as <-. simpl.
  by rewrite !group_names_control_parts_append, group_names_controls_append.
Qed.

Lemma group_names_process_row (st st' : State) (row : Row) :
  process_row st row = inr st' ->
  group_names (groups st')
  = (group_names (groups st)
     ++ (String.append "eucs-" <$> created_here (current_loop_category st) row))%list
  /\ current_loop_category st' = r_category row.
Proof.
  unfold process_row, created_here. intros H. bind_inv H as st1 H1.
  injection H as <-. split; [|done]. simpl.
  destruct (is_category_row row) eqn:Hcat; simpl.
  { unfold category_branch in H1.
    destruct (py_ne _ _ || is_none _).
    - bind_inv H1 as g Hg. injection H1 as <-.
      apply create_category_inv in Hg as (cid & -> & ->).
      simpl. unfold group_names, append. by rewrite fmap_app.
    - injection H1 as <-. by rewrite app_nil_r. }
  rewrite app_nil_r.
  destruct (is_control_row row); [by eapply group_names_control_branch|].
  destruct (is_requirement_row row); [by eapply group_names_requirement_branch|].
  by injection H1 as <-.
Qed.

Lemma group_names_process_rows (rows : list Row) (st st' : State) :
  process_rows st rows = inr st' ->
  group_names (groups st')
  = (group_names (groups st)
     ++ (String.append "eucs-"
           <$> created_category_ids (current_loop_category st) rows))%list.
Proof.
  revert st. induction rows as [|row rows IH]; simpl; intros st H.
  - injection H as <-. by rewrite app_nil_r.
  - bind_inv H as st1 H1. apply group_names_process_row in H1 as [E1 E2].
    rewrite (IH _ H), E1, E2, fmap_app. by rewrite (assoc_L (++)%list).
Qed.

(** A row whose category identifier is that of the row before it. *)
Lemma process_row_same_category (st : State) (row : Row) :
  is_category_row row = true ->
  current_loop_category st = r_category row ->
  process_row st row = inr (set_current_loop st (r_category row) (r_control row)).
Proof.
  intros Hcat Hsame. unfold process_row, category_branch. rewrite Hcat, Hsame.
  unfold is_category_row in Hcat. apply andb_prop in Hcat as [_ Hc].
  apply notna_PyStr in Hc as [cid ->]. simpl. by rewrite String.eqb_refl.
Qed.

Lemma process_row_same_control (st : State) (row : Row) :
  is_control_row row = true ->
  current_loop_control st = r_control row ->
  process_row st row = inr (set_current_loop st (r_category row) (r_control row)).
Proof.
  intros Hctl Hsame. unfold process_row, control_branch.
  assert (is_category_row row = false) as ->.
  { unfold is_category_row, is_control_row, notna in *.
    destruct (isna (r_control row)), (isna (r_requirement row)),
      (isna (r_category row)); done. }
  rewrite Hctl, Hsame.
  unfold is_control_row in Hctl. apply andb_prop in Hctl as [_ Hc].
  apply notna_PyStr in Hc as [cid ->]. simpl. by rewrite String.eqb_refl.
Qed.

Lemma process_row_look_back (st st' : State) (row : Row) :
  process_row st row = inr st' ->
  current_loop_category st' = r_category row
  /\ current_loop_control st' = r_control row
  /\ set_current_loop st' (r_category row) (r_control row) = st'.
Proof.
  unfold process_row. intros H. bind_inv H as st1 H1. by injection H as <-.
Qed.

(** C9, as stated, fails: a category identifier that comes back after
    another one gets a second Category, so it is not created exactly once
    per distinct identifier. *)
Lemma returning_category_counterexample :
  exists st,
    build returning_category_rows = inr st
    /\ group_names (groups st) = ["eucs-C1"; "eucs-C2"; "eucs-C1"]
    /\ ~ NoDup (group_names (groups st)).
Proof.
  eexists. split; [reflexivity|]. split; [reflexivity|].
  simpl. intros H. apply NoDup_cons in H as [H _]. apply H. set_solver.
Qed.

(** C9, amended: a category-only row whose identifier is the category cell
    of the row before it, and a control-only row whose identifier is the
    control cell of the row before it, create nothing and leave the tree and
    the lists as they are; so repeating a category-only or control-only row
    right after itself changes nothing.  Over a whole build the Categories
    created are, in order, those of the category-only rows whose identifier
    differs from the category cell of the row before (or that come first):
    once for each run of consecutive rows with the same identifier. *)
Theorem consecutive_repeats_create_nothing :
  (forall (st : State) (row : Row),
     is_category_row row = true ->
     current_loop_category st = r_category row ->
     process_row st row
     = inr (set_current_loop st (r_category row) (r_control row)))
  /\ (forall (st : State) (row : Row),
        is_control_row row = true ->
        current_loop_control st = r_control row ->
        process_row st row
        = inr (set_current_loop st (r_category row) (r_control row)))
  /\ (forall (st : State) (row : Row) (rest : list Row),
        is_category_row row = true \/ is_control_row row = true ->
        process_rows st (row :: row :: rest) = process_rows st (row :: rest))
  /\ (forall (rows : list Row) (st : State),
        build rows = inr st ->
        group_names (groups st)
        = String.append "eucs-" <$> created_category_ids PyNone rows).
Proof.
  split; [exact process_row_same_category|].
  split; [exact process_row_same_control|].
  split.
  - intros st row rest Hrow. simpl.
    destruct (process_row st row) as [e|st1] eqn:H1; simpl; [done|].
    apply process_row_look_back in H1 as (Ecat & Ectl & Eset).
    destruct Hrow as [Hrow|Hrow].
    + by rewrite (process_row_same_category st1 row Hrow Ecat), Eset.
    + by rewrite (process_row_same_control st1 row Hrow Ectl), Eset.
  - intros rows st H. by rewrite (group_names_process_rows rows _ _ H).
Qed.

Lemma consecutive_repeats_create_nothing_witness :
  process_rows initial_state
    (category_row "C1" "Cat One" :: category_row "C1" "Cat One"
       :: [category_row "C2" "Cat Two"])
  = process_rows initial_state
      (category_row "C1" "Cat One" :: [category_row "C2" "Cat Two"])
  /\ exists st,
       build returning_category_rows = inr st
       /\ group_names (groups st)
          = String.append "eucs-" <$> created_category_ids PyNone returning_category_rows.
Proof.
  split.
  - apply (proj1 (proj2 (proj2 consecutive_repeats_create_nothing))
             initial_state (category_row "C1" "Cat One")
             [category_row "C2" "Cat Two"] (or_introl eq_refl)).
  - eexists. split; [reflexivity|].
    apply (proj2 (proj2 (proj2 consecutive_repeats_create_nothing))
             returning_category_rows _ eq_refl).
Defined.

(** ** The sheet that is read *)

Lemma select_sheet_fold (names : list string) (sheet_name : option string) :
  fold_left
    (fun sheet_name key =>
       if Str.contains "controls" (Str.lower key) then Some key else sheet_name)
    names sheet_name
  = match last (filter (fun key => mentions_controls key = true) names) with
    | Some key => Some key
    | None => sheet_name
    end.
Proof.
  revert sheet_name. induction names as [|key names IH]; intros sheet_name; [done|].
  simpl. rewrite IH, filter_cons.
  change (Str.contains "controls" (Str.lower key)) with (mentions_controls key).
  destruct (mentions_controls key) eqn:Hkey.
  - rewrite decide_True by done.
    destruct (filter (fun key => mentions_controls key = true) names) as [|k l] eqn:E;
      [done|].
    rewrite (last_cons key (k :: l)). by destruct (last (k :: l)).
  - by rewrite decide_False by done.
Qed.

Lemma select_sheet_last (names : list string) :
  select_sheet names = last (filter (fun key => mentions_controls key = true) names).
Proof.
  unfold select_sheet. rewrite select_sheet_fold. by destruct (last _).
Qed.

(** The run depends on the workbook through the selected sheet only. *)
Lemma run_same_sheet (cwd published last_modified : string) (wb1 wb2 : Workbook)
    (name out v : string) (fs : gmap string Document) :
  select_sheet (sheet_names wb1) = Some name ->
  select_sheet (sheet_names wb2) = Some name ->
  read_excel wb2 name = read_excel wb1 name ->
  run cwd published last_modified wb1 out v fs
  = run cwd published last_modified wb2 out v fs.
Proof. intros H1 H2 H3. unfold run. rewrite H1, H2. simpl. by rewrite H3. Qed.

(** C6, as stated, fails: of two sheets whose names contain "controls" the
    second one is read, not the first. *)
Lemma second_sheet_counterexample :
  head (filter (fun key => mentions_controls key = true)
          (sheet_names two_controls_sheets)) = Some "Controls A"
  /\ select_sheet (sheet_names two_controls_sheets) = Some "controls B"
  /\ exists e fs,
       run "/work" "t0" "t1" two_controls_sheets "out" "1.0" ∅ = (inr e, fs)
       /\ catalog_groups (end_catalog e) = []
       /\ is_ok (build (read_excel two_controls_sheets "Controls A")) = true
       /\ build (read_excel two_controls_sheets "Controls A")
          <> inr (end_state e).
Proof.
  split; [by vm_compute|]. split; [by vm_compute|].
  eexists. eexists. split; [reflexivity|]. split; [done|]. split; [done|].
  by vm_compute.
Qed.

(** C6, amended: the sheet that is read is the last sheet, in workbook
    order, whose name contains "controls" without regard to case; the run
    then depends on no other sheet.  When no sheet matches, the run stops
    with the unbound-variable error of [sheet_name] before anything is read
    or written. *)
Theorem last_matching_sheet_is_read (input_xls : Workbook) :
  select_sheet (sheet_names input_xls)
  = last (filter (fun key => mentions_controls key = true) (sheet_names input_xls))
  /\ (forall (name cwd published last_modified out v : string)
             (fs : gmap string Document),
        last (filter (fun key => mentions_controls key = true)
                (sheet_names input_xls)) = Some name ->
        run cwd published last_modified input_xls out v fs
        = run cwd published last_modified
            (mkWorkbook [(name, read_excel input_xls name)]) out v fs)
  /\ (forall (cwd published last_modified out v : string)
             (fs : gmap string Document),
        filter (fun key => mentions_controls key = true) (sheet_names input_xls) = [] ->
        run cwd published last_modified input_xls out v fs
        = (inl UnboundLocalError, fs)).
Proof.
  split; [apply select_sheet_last|]. split.
  - intros name cwd published last_modified out v fs Hlast.
    assert (mentions_controls name = true) as Hname.
    { apply last_Some_elem_of in Hlast. by apply list_elem_of_filter in Hlast as [? _]. }
    assert (select_sheet (sheet_names (mkWorkbook [(name, read_excel input_xls name)]))
            = Some name) as Hone.
    { rewrite select_sheet_last. unfold sheet_names. simpl.
      rewrite filter_cons, decide_True by done. done. }
    assert (read_excel (mkWorkbook [(name, read_excel input_xls name)]) name
            = read_excel input_xls name) as Hread.
    { unfold read_excel at 1. simpl. by rewrite String.eqb_refl. }
    apply (run_same_sheet _ _ _ _ _ name); [|done|done].
    by rewrite select_sheet_last.
  - intros cwd published last_modified out v fs Hnone.
    unfold run. by rewrite select_sheet_last, Hnone.
Qed.

Lemma last_matching_sheet_is_read_witness :
  select_sheet (sheet_names two_controls_sheets) = Some "controls B"
  /\ run "/work" "t0" "t1" two_controls_sheets "out" "1.0" ∅
     = run "/work" "t0" "t1"
         (mkWorkbook [("controls B", read_excel two_controls_sheets "controls B")])
         "out" "1.0" ∅
  /\ run "/work" "t0" "t1" (mkWorkbook [("Intro", [])]) "out" "1.0" ∅
     = (inl UnboundLocalError, ∅).
Proof.
  split; [|split].
  - apply (proj1 (last_matching_sheet_is_read two_controls_sheets)).
  - apply (proj1 (proj2 (last_matching_sheet_is_read two_controls_sheets))
             "controls B" "/work" "t0" "t1" "out" "1.0" ∅ eq_refl).
  - apply (proj2 (proj2 (last_matching_sheet_is_read (mkWorkbook [("Intro", [])])))
             "/work" "t0" "t1" "out" "1.0" ∅ eq_refl).
Defined.

(** ** The written files *)

Lemma string_app_length (a b : string) :
  String.length (a ++ b) = String.length a + String.length b.
Proof. induction a as [|c a IH]; simpl; [done|]. by rewrite IH. Qed.












(** * Further properties of the code *)

(** ** Control rows *)

Lemma alter_eq_insert {A : Type} (f : A -> A) (i : nat) (l : list A) (x : A) :
  l !! i = Some x -> alter f i l = <[i := f x]> l.
Proof.
  revert i. induction l as [|y l IH]; intros [|i] H; simpl in *; try discriminate.
  - by injection H as ->.
  - f_equal. by apply IH.
Qed.

Lemma alter_append_new {A : Type} (f : A -> A) (l : list A) (x : A) :
  alter f (length l) (append l x) = append l (f x).
Proof.
  unfold append. rewrite alter_app_r_alt by done. by rewrite Nat.sub_diag.
Qed.

(** The three appends of the control branch, taken together. *)
Lemma control_appends_closed (gi : nat) (g : Group) (c : Control) (p1 p2 : Part)
    (gs : list Group) :
  gs !! gi = Some g ->
  control_parts c = [] ->
  let cr := next_control gi gs in
  let gs2 := control_parts_append cr p1 (controls_append gi c gs) in
  cr = (gi, length (group_controls g))
  /\ next_part cr gs2 = (cr, 1)
  /\ control_parts_append cr p2 gs2
     = <[gi := set_group_controls g
                 (append (group_controls g) (set_control_parts c [p1; p2]))]> gs.
Proof.
  intros Hg Hc cr gs2.
  assert (cr = (gi, length (group_controls g))) as Hcr.
  { unfold cr, next_control. by rewrite Hg. }
  assert (gs2 = <[gi := set_group_controls g
                          (append (group_controls g) (set_control_parts c [p1]))]> gs)
    as Hgs2.
  { unfold gs2, control_parts_append, controls_append. rewrite Hcr. simpl.
    rewrite list_alter_alter_eq, (alter_eq_insert _ _ _ _ Hg). simpl.
    by rewrite alter_append_new, Hc. }
  split; [done|]. split.
  - unfold next_part, lookup_control. rewrite Hgs2, Hcr. simpl.
    rewrite list_lookup_insert_eq by (by eapply lookup_lt_Some). simpl.
    by rewrite lookup_append_new.
  - rewrite Hgs2. unfold control_parts_append. rewrite Hcr. simpl.
    rewrite list_insert_alter, list_alter_alter_eq, (alter_eq_insert _ _ _ _ Hg).
    simpl. by rewrite alter_append_new.
Qed.


Lemma process_row_control (st : State) (row : Row) :
  is_control_row row = true ->
  process_row st row
  = bind (control_branch st row)
      (fun st1 => ok (set_current_loop st1 (r_category row) (r_control row))).
Proof.
  intros Hctl. unfold process_row.
  assert (is_category_row row = false) as ->.
  { unfold is_category_row, is_control_row, notna in *.
    destruct (isna (r_control row)), (isna (r_requirement row)),
      (isna (r_category row)); done. }
  by rewrite Hctl.
Qed.

(** The test [new != current or current is None] against a string. *)
Lemma differs_from_previous (s : string) (v : pyval) :
  py_ne (PyStr s) v || is_none v = negb (bool_decide (v = PyStr s)).
Proof.
  destruct v as [| |s']; simpl; try done.
  destruct (String.eqb_spec s s') as [->|Hne].
  - by rewrite bool_decide_eq_true_2.
  - rewrite bool_decide_eq_false_2; [done|]. congruence.
Qed.

Lemma control_branch_ok (st : State) (row : Row) (gi : nat) (g : Group)
    (cid ctl title token : string) (last : ascii) :
  r_category row = PyStr cid ->
  r_control row = PyStr ctl ->
  Str.last_char ctl = Some last ->
  r_title row = PyStr title ->
  Str.first_token title = Some token ->
  current_loop_control st <> PyStr ctl ->
  category st = Some gi ->
  groups st !! gi = Some g ->
  control_branch st row
  = inr (set_current_loop_control_title
           (set_requirement_headline
              (set_groups st
                 (<[gi := set_group_controls g
                            (append (group_controls g)
                               (new_control cid last title token (r_description row)))]>
                    (groups st)))
              (gi, length (group_controls g), 1))
           (r_title row)).
Proof.
  intros Hcat Hctl Hlast Htitle Htok Hne Hgi Hg.
  unfold control_branch. rewrite Hctl, differs_from_previous.
  rewrite bool_decide_eq_false_2 by done. simpl.
  unfold create_control, py_last. rewrite Hcat, Htitle. simpl. rewrite Hlast. simpl.
  rewrite (control_stem_ok _ _ _ Htok). simpl. rewrite Hgi. simpl.
  unfold create_objective_headline, create_requirement_headline.
  rewrite (control_stem_ok _ _ _ Htok). simpl.
  match goal with
  | |- context [controls_append gi ?c _] =>
      destruct (control_appends_closed gi g c
                  (objective_part cid token (r_description row))
                  (headline_part cid token []) (groups st) Hg eq_refl)
        as (_ & Hnext & Hgs)
  end.
  unfold objective_part, headline_part in Hnext, Hgs.
  rewrite Hnext, Hgs. unfold next_control. by rewrite Hg.
Qed.

(** X1: a control row whose identifier differs from the control cell of
    the row before it appends one Control to the Category created last,
    whatever category the row names, leaves every other group untouched,
    and makes the headline of that Control the current one.  The Control
    takes its identifier from the category cell of the row and the first
    word of the title, its label from the last character of the control
    identifier, and holds exactly an Objective part with the description of
    the row and a Requirements headline without sub-parts. *)
Theorem control_row_creates (st : State) (row : Row) (gi : nat) (g : Group)
    (cid ctl title token : string) (last : ascii) :
  is_control_row row = true ->
  r_category row = PyStr cid ->
  r_control row = PyStr ctl ->
  Str.last_char ctl = Some last ->
  r_title row = PyStr title ->
  Str.first_token title = Some token ->
  current_loop_control st <> PyStr ctl ->
  category st = Some gi ->
  groups st !! gi = Some g ->
  let c := new_control cid last title token (r_description row) in
  exists st',
    process_row st row = inr st'
    /\ st' = after_control_row st row gi g c
    /\ groups st' !! gi = Some (set_group_controls g (append (group_controls g) c))
    /\ (forall gj, gj <> gi -> groups st' !! gj = groups st !! gj)
    /\ length (groups st') = length (groups st)
    /\ lookup_part (gi, length (group_controls g), 1) (groups st')
       = Some (headline_part cid token [])
    /\ (forall t, tier_list t st' = tier_list t st).
Proof.
  intros Hrow Hcat Hctl Hlast Htitle Htok Hne Hgi Hg c.
  exists (after_control_row st row gi g c).
  rewrite (process_row_control st row Hrow).
  rewrite (control_branch_ok st row gi g cid ctl title token last) by done.
  split; [done|]. split; [done|]. simpl.
  assert (gi < length (groups st)) as Hlt by (by eapply lookup_lt_Some).
  split; [by rewrite list_lookup_insert_eq|].
  split; [intros gj Hgj; by rewrite list_lookup_insert_ne|].
  split; [by rewrite length_insert|].
  split.
  - unfold lookup_part, lookup_control. simpl.
    rewrite list_lookup_insert_eq by done. simpl.
    by rewrite lookup_append_new.
  - intros t. by destruct t.
Qed.

Lemma control_row_creates_witness :
  let row := control_row "C1" "C1.CTRL" "Do Thing" (PyStr "objective") in
  let g := mkGroup "eucs-C1" (PyStr "Cat One") [mkProperty "label" None "C1."] [] in
  let c := new_control "C1" "L" "Do Thing" "Do" (PyStr "objective") in
  exists st',
    process_row scenario_after_category row = inr st'
    /\ st' = after_control_row scenario_after_category row 0 g c
    /\ groups st' !! 0 = Some (set_group_controls g (append (group_controls g) c))
    /\ (forall gj, gj <> 0 -> groups st' !! gj = groups scenario_after_category !! gj)
    /\ length (groups st') = length (groups scenario_after_category)
    /\ lookup_part (0, length (group_controls g), 1) (groups st')
       = Some (headline_part "C1" "Do" [])
    /\ (forall t, tier_list t st' = tier_list t scenario_after_category).
Proof.
  intros row g c.
  apply (control_row_creates scenario_after_category row 0 g
           "C1" "C1.CTRL" "Do Thing" "Do" "L"
           eq_refl eq_refl eq_refl eq_refl eq_refl eq_refl
           ltac:(discriminate) eq_refl eq_refl).
Defined.

(** X2: how a control row that would create a control fails.  With an
    empty control identifier, or a title without any word, it raises an
    index error; with a blank title an attribute error; and when these are
    in order but no category row has come yet, the unbound-variable error of
    [category].  So a sheet whose first row is a control row always aborts. *)
Theorem control_row_errors (st : State) (row : Row) (cid ctl : string) :
  is_control_row row = true ->
  r_category row = PyStr cid ->
  r_control row = PyStr ctl ->
  current_loop_control st <> PyStr ctl ->
  (ctl = "" -> process_row st row = inl IndexError)
  /\ (ctl <> "" -> isna (r_title row) = true ->
      process_row st row = inl AttributeError)
  /\ (ctl <> "" -> forall title, r_title row = PyStr title ->
      Str.first_token title = None -> process_row st row = inl IndexError)
  /\ (ctl <> "" -> forall title token, r_title row = PyStr title ->
      Str.first_token title = Some token -> category st = None ->
      process_row st row = inl UnboundLocalError)
  /\ (forall post, exists e, build (row :: post) = inl e).
Proof.
  intros Hrow Hcat Hctl Hne.
  assert (forall st0, current_loop_control st0 <> PyStr ctl ->
            process_row st0 row
            = try st1 <-
                (try control <- create_control (PyStr cid) (PyStr ctl) (r_title row) in
                 try category <- read_local (category st0) in
                 let control_ref := next_control category (groups st0) in
                 let groups1 := controls_append category control (groups st0) in
                 try objective_headline <-
                   create_objective_headline (PyStr cid) (r_title row)
                     (r_description row) in
                 let groups2 :=
                   control_parts_append control_ref objective_headline groups1 in
                 try requirement_headline <-
                   create_requirement_headline (PyStr cid) (r_title row) in
                 let headline_ref := next_part control_ref groups2 in
                 let groups3 :=
                   control_parts_append control_ref requirement_headline groups2 in
                 ok (set_current_loop_control_title
                       (set_requirement_headline (set_groups st0 groups3) headline_ref)
                       (r_title row)))
              in ok (set_current_loop st1 (PyStr cid) (PyStr ctl))) as Hshape.
  { intros st0 Hne0. rewrite (process_row_control st0 row Hrow). unfold control_branch.
    rewrite Hctl, Hcat, differs_from_previous, bool_decide_eq_false_2 by done. done. }
  assert (forall st0, ctl = "" -> current_loop_control st0 <> PyStr ctl ->
            process_row st0 row = inl IndexError) as H1.
  { intros st0 -> Hne0. by rewrite (Hshape st0 Hne0). }
  assert (forall st0, ctl <> "" -> isna (r_title row) = true ->
            current_loop_control st0 <> PyStr ctl ->
            process_row st0 row = inl AttributeError) as H2.
  { intros st0 Hc Ht Hne0. rewrite (Hshape st0 Hne0).
    unfold create_control, py_last. simpl.
    destruct (Str.last_char ctl) eqn:Hl; [|by apply last_char_None in Hl]. simpl.
    unfold control_stem, py_first_token. simpl. by destruct (r_title row). }
  assert (forall st0 title, ctl <> "" -> r_title row = PyStr title ->
            Str.first_token title = None ->
            current_loop_control st0 <> PyStr ctl ->
            process_row st0 row = inl IndexError) as H3.
  { intros st0 title Hc Ht Htok Hne0. rewrite (Hshape st0 Hne0).
    unfold create_control, py_last. simpl.
    destruct (Str.last_char ctl) eqn:Hl; [|by apply last_char_None in Hl]. simpl.
    unfold control_stem, py_first_token. rewrite Ht. simpl. by rewrite Htok. }
  assert (forall st0 title token, ctl <> "" -> r_title row = PyStr title ->
            Str.first_token title = Some token -> category st0 = None ->
            current_loop_control st0 <> PyStr ctl ->
            process_row st0 row = inl UnboundLocalError) as H4.
  { intros st0 title token Hc Ht Htok Hgi Hne0. rewrite (Hshape st0 Hne0).
    unfold create_control, py_last. simpl.
    destruct (Str.last_char ctl) eqn:Hl; [|by apply last_char_None in Hl]. simpl.
    rewrite Ht, (control_stem_ok _ _ _ Htok). simpl. by rewrite Hgi. }
  split; [intros; by apply H1|]. split; [intros; by apply H2|].
  split; [intros; by eapply H3|]. split; [intros; by eapply H4|].
  intros post. unfold build. simpl.
  assert (current_loop_control initial_state <> PyStr ctl) as Hinit by done.
  destruct (decide (ctl = "")) as [Hc|Hc]; [rewrite H1 by done; simpl; eauto|].
  destruct (r_title row) as [| |title] eqn:Ht.
  - rewrite H2 by (done || by rewrite Ht). simpl. eauto.
  - rewrite H2 by (done || by rewrite Ht). simpl. eauto.
  - destruct (Str.first_token title) as [token|] eqn:Htok.
    + rewrite (H4 initial_state title token) by done. simpl. eauto.
    + rewrite (H3 initial_state title) by done. simpl. eauto.
Qed.

Lemma control_row_errors_witness :
  process_row initial_state (control_row "C1" "C1.CTRL" "Do Thing" PyNaN)
  = inl UnboundLocalError
  /\ exists e,
       build (control_row "C1" "C1.CTRL" "Do Thing" PyNaN :: scenario_rows PyNaN PyNaN)
       = inl e.
Proof.
  pose proof (control_row_errors initial_state
                (control_row "C1" "C1.CTRL" "Do Thing" PyNaN) "C1" "C1.CTRL"
                eq_refl eq_refl eq_refl ltac:(discriminate))
    as (_ & _ & _ & H4 & H5).
  split.
  - apply (H4 ltac:(discriminate) "Do Thing" "Do" eq_refl eq_refl eq_refl).
  - apply (H5 (scenario_rows PyNaN PyNaN)).
Defined.

(** ** Requirement rows *)

Lemma add_tier_block_state (t : Tier) (st : State) (row : Row)
    (raw cid title token d : string) (h : PartRef) :
  block_ready st row raw cid title token d h ->
  t = Basic \/ raw <> "" ->
  add_tier t st row = inr (block_state t row raw cid token d h st).
Proof.
  intros Hready Hraw. unfold block_state.
  destruct (notna (tier_flag t row)) eqn:Hflag.
  - by apply (add_tier_ok t st row raw cid title token d h).
  - by apply add_tier_skip.
Qed.

Lemma block_ready_block_state (t : Tier) (st : State) (row : Row)
    (raw cid title token d : string) (h : PartRef) :
  block_ready st row raw cid title token d h ->
  block_ready (block_state t row raw cid token d h st) row raw cid title token d h.
Proof.
  intros [? ? ? ? ? ?]. unfold block_state.
  destruct (notna (tier_flag t row)); [|by constructor].
  by constructor; destruct t.
Qed.

Lemma lookup_part_block_state (t : Tier) (st : State) (row : Row)
    (raw cid token d : string) (h : PartRef) (p : Part) :
  lookup_part h (groups st) = Some p ->
  lookup_part h (groups (block_state t row raw cid token d h st))
  = Some (set_part_parts p (part_parts p ++ block_parts t row raw cid token d)%list).
Proof.
  intros Hp. unfold block_state, block_parts.
  destruct (notna (tier_flag t row)).
  - rewrite groups_attach. by apply lookup_part_part_parts_append.
  - rewrite app_nil_r. by destruct p.
Qed.

Lemma tier_list_block_state (t t' : Tier) (st : State) (row : Row)
    (raw cid token d : string) (h : PartRef) :
  tier_list t' (block_state t row raw cid token d h st)
  = (tier_list t' st ++ if decide (t' = t) then row_keys t row raw else [])%list.
Proof.
  unfold block_state, row_keys. destruct (notna (tier_flag t row)).
  - rewrite tier_list_attach. destruct (decide (t' = t)) as [->|_]; [done|].
    by rewrite app_nil_r.
  - destruct (decide (t' = t)); by rewrite app_nil_r.
Qed.

Lemma block_state_frame (t : Tier) (st : State) (row : Row)
    (raw cid token d : string) (h : PartRef) :
  let st' := block_state t row raw cid token d h st in
  category st' = category st
  /\ requirement_headline st' = requirement_headline st
  /\ current_loop_control_title st' = current_loop_control_title st
  /\ current_loop_category st' = current_loop_category st
  /\ current_loop_control st' = current_loop_control st
  /\ length (groups st') = length (groups st)
  /\ group_names (groups st') = group_names (groups st).
Proof.
  unfold block_state. destruct (notna (tier_flag t row)); [|done].
  repeat split; try (by destruct t).
  - rewrite groups_attach. unfold part_parts_append. apply length_alter.
  - rewrite groups_attach. apply group_names_part_parts_append.
Qed.

(** The three blocks one after the other. *)
Lemma requirement_branch_closed (st : State) (row : Row)
    (raw cid title token d : string) (h : PartRef) :
  block_ready st row raw cid title token d h ->
  raw <> "" ->
  requirement_branch st row
  = inr (block_state High row raw cid token d h
           (block_state Substantial row raw cid token d h
              (block_state Basic row raw cid token d h st))).
Proof.
  intros Hready Hraw. unfold requirement_branch.
  pose proof (block_ready_block_state Basic st row raw cid title token d h Hready) as H1.
  pose proof (block_ready_block_state Substantial _ row raw cid title token d h H1) as H2.
  rewrite (add_tier_block_state Basic st row raw cid title token d h Hready
             (or_introl eq_refl) : add_basic st row = _). simpl.
  rewrite (add_tier_block_state Substantial _ row raw cid title token d h H1
             (or_intror Hraw) : add_substantial _ row = _). simpl.
  apply (add_tier_block_state High _ row raw cid title token d h H2 (or_intror Hraw)).
Qed.

Lemma tier_key_B (body : string) :
  tier_key Basic (body ++ "B") = body ++ "B"
  /\ tier_key Substantial (body ++ "B") = body ++ "S"
  /\ tier_key High (body ++ "B") = body ++ "H".
Proof.
  simpl. unfold substantial_key, high_key.
  change "B" with (String "B"%char "").
  by rewrite last_char_snoc, drop_last_snoc.
Qed.

(** X4: a requirement row that comes with a current control appends, for
    each tier whose flag is set and in the order basic, substantial, high,
    one Requirement part to the current headline and the identifier of that
    part to the list of the tier; it touches nothing else.  When all three
    flags are set and the raw identifier is a body followed by 'B', the three
    parts carry the body followed by 'B', 'S' and 'H'. *)
Theorem requirement_row_attaches (st : State) (row : Row)
    (raw cid title token d : string) (h : PartRef) (p : Part) :
  is_requirement_row row = true ->
  block_ready st row raw cid title token d h ->
  raw <> "" ->
  lookup_part h (groups st) = Some p ->
  exists st',
    process_row st row = inr st'
    /\ (forall t, tier_list t st' = (tier_list t st ++ row_keys t row raw)%list)
    /\ lookup_part h (groups st')
       = Some (set_part_parts p (part_parts p ++ row_parts row raw cid token d)%list)
    /\ group_names (groups st') = group_names (groups st)
    /\ category st' = category st
    /\ requirement_headline st' = Some h
    /\ current_loop_control_title st' = Some (PyStr title)
    /\ (forall body,
          raw = body ++ "B" ->
          notna (r_basic row) = true -> notna (r_substantial row) = true ->
          notna (r_high row) = true ->
          row_parts row raw cid token d
          = [requirement_part "basic" (body ++ "B") cid token d;
             requirement_part "substantial" (body ++ "S") cid token d;
             requirement_part "high" (body ++ "H") cid token d]).
Proof.
  intros Hrow Hready Hraw Hp.
  rewrite (process_row_requirement st row Hrow).
  rewrite (requirement_branch_closed st row raw cid title token d h Hready Hraw). simpl.
  eexists. split; [reflexivity|].
  set (s1 := block_state Basic row raw cid token d h st).
  set (s2 := block_state Substantial row raw cid token d h s1).
  set (s3 := block_state High row raw cid token d h s2).
  destruct (block_state_frame Basic st row raw cid token d h)
    as (C1 & H1 & T1 & _ & _ & _ & G1).
  destruct (block_state_frame Substantial s1 row raw cid token d h)
    as (C2 & H2 & T2 & _ & _ & _ & G2).
  destruct (block_state_frame High s2 row raw cid token d h)
    as (C3 & H3 & T3 & _ & _ & _ & G3).
  fold s1 in C1, H1, T1, G1. fold s2 in C2, H2, T2, G2. fold s3 in C3, H3, T3, G3.
  destruct Hready as [_ _ Htitle _ _ Hh].
  split.
  { intros t.
    assert (tier_list t (set_current_loop s3 (r_category row) (r_control row))
            = tier_list t s3) as -> by (by destruct t).
    unfold s3, s2, s1. rewrite !tier_list_block_state.
    destruct t; simpl; by rewrite ?app_nil_r. }
  split.
  { simpl. unfold s3.
    rewrite (lookup_part_block_state High s2 row raw cid token d h
               (set_part_parts p (part_parts p
                  ++ block_parts Basic row raw cid token d
                  ++ block_parts Substantial row raw cid token d)%list)).
    - simpl. unfold row_parts. by rewrite <- !(assoc_L (++)%list).
    - unfold s2.
      rewrite (lookup_part_block_state Substantial s1 row raw cid token d h
                 (set_part_parts p (part_parts p
                    ++ block_parts Basic row raw cid token d)%list)).
      + simpl. by rewrite <- !(assoc_L (++)%list).
      + unfold s1. by apply lookup_part_block_state. }
  split; [simpl; congruence|]. split; [simpl; congruence|].
  split; [simpl; congruence|]. split; [simpl; congruence|].
  intros body -> Hb Hs Hhigh. unfold row_parts, block_parts.
  destruct (tier_key_B body) as (K1 & K2 & K3).
  simpl tier_flag. rewrite Hb, Hs, Hhigh, K1, K2, K3. done.
Qed.

Lemma requirement_row_attaches_witness :
  exists st',
    process_row scenario_before_requirement all_tiers_row = inr st'
    /\ (forall t, tier_list t st'
                  = (tier_list t scenario_before_requirement
                     ++ row_keys t all_tiers_row "R1B")%list)
    /\ lookup_part (0, 0, 1) (groups st')
       = Some (set_part_parts scenario_headline
                 (part_parts scenario_headline
                  ++ row_parts all_tiers_row "R1B" "C1" "Do" "desc")%list)
    /\ group_names (groups st') = group_names (groups scenario_before_requirement)
    /\ category st' = category scenario_before_requirement
    /\ requirement_headline st' = Some (0, 0, 1)
    /\ current_loop_control_title st' = Some (PyStr "Do Thing")
    /\ (forall body,
          "R1B" = body ++ "B" ->
          notna (r_basic all_tiers_row) = true ->
          notna (r_substantial all_tiers_row) = true ->
          notna (r_high all_tiers_row) = true ->
          row_parts all_tiers_row "R1B" "C1" "Do" "desc"
          = [requirement_part "basic" (body ++ "B") "C1" "Do" "desc";
             requirement_part "substantial" (body ++ "S") "C1" "Do" "desc";
             requirement_part "high" (body ++ "H") "C1" "Do" "desc"]).
Proof.
  apply (requirement_row_attaches scenario_before_requirement all_tiers_row
           "R1B" "C1" "Do Thing" "Do" "desc" (0, 0, 1) scenario_headline
           eq_refl).
  - by constructor.
  - discriminate.
  - reflexivity.
Defined.

(** X3: a requirement row none of whose three flags is set creates no
    part and appends no identifier, in any state, also before any control
    row; only the two look-back identifiers take the cells of the row. *)
Theorem unflagged_requirement_row_is_passed_over (st : State) (row : Row) :
  is_requirement_row row = true ->
  any_flag row = false ->
  process_row st row
  = inr (set_current_loop st (r_category row) (r_control row)).
Proof.
  intros Hrow Hflag. rewrite (process_row_requirement st row Hrow).
  unfold any_flag in Hflag.
  apply orb_false_elim in Hflag as [Hflag Hh].
  apply orb_false_elim in Hflag as [Hb Hs].
  unfold requirement_branch.
  rewrite (add_tier_skip Basic st row Hb : add_basic st row = _). simpl.
  rewrite (add_tier_skip Substantial st row Hs : add_substantial st row = _). simpl.
  by rewrite (add_tier_skip High st row Hh : add_high st row = _).
Qed.

Lemma unflagged_requirement_row_is_passed_over_witness :
  process_row initial_state unflagged_requirement_row
  = inr (set_current_loop initial_state (PyStr "C1") (PyStr "C1.CTRL")).
Proof.
  apply (unflagged_requirement_row_is_passed_over initial_state
           unflagged_requirement_row eq_refl eq_refl).
Defined.

(** ** The rewriting of identifiers *)

Lemma substantial_key_snoc (body : string) (c : ascii) :
  substantial_key (body ++ String c "")
  = body ++ String (if Ascii.eqb c "B" then "S"%char else c) "".
Proof.
  unfold substantial_key. rewrite last_char_snoc, drop_last_snoc. simpl.
  by destruct (Ascii.eqb c "B").
Qed.

Lemma high_key_snoc (body : string) (c : ascii) :
  high_key (body ++ String c "")
  = body ++ String (if Ascii.eqb c "B" || Ascii.eqb c "S" then "H"%char else c) "".
Proof.
  unfold high_key. rewrite last_char_snoc, drop_last_snoc. simpl.
  by destruct (Ascii.eqb c "B"), (Ascii.eqb c "S").
Qed.

Lemma string_snoc_cases (s : string) :
  s = "" \/ exists body c, s = body ++ String c "".
Proof.
  destruct (Str.last_char s) as [c|] eqn:H.
  - right. exists (Str.drop_last s), c. by apply last_char_split.
  - left. by apply last_char_None.
Qed.

(** X5: the identifiers of the three tiers differ from the raw identifier
    in the last character at most: they have its length and its characters
    before the last.  Rewriting twice is rewriting once, and the High
    identifier formed from a Substantial identifier is the one formed from
    the raw identifier. *)
Theorem tier_key_algebra (raw : string) :
  high_key (substantial_key raw) = high_key raw
  /\ substantial_key (substantial_key raw) = substantial_key raw
  /\ high_key (high_key raw) = high_key raw
  /\ forall t : Tier,
       String.length (tier_key t raw) = String.length raw
       /\ Str.drop_last (tier_key t raw) = Str.drop_last raw.
Proof.
  destruct (string_snoc_cases raw) as [->|(body & c & ->)].
  { repeat split; by destruct t. }
  assert (forall x, high_key (body ++ String x "")
                    = body ++ String (if Ascii.eqb x "B" || Ascii.eqb x "S"
                                      then "H"%char else x) "") as Hh
    by (intros; apply high_key_snoc).
  assert (forall x, substantial_key (body ++ String x "")
                    = body ++ String (if Ascii.eqb x "B" then "S"%char else x) "") as Hs
    by (intros; apply substantial_key_snoc).
  assert (forall x, String.length (body ++ String x "") = String.length body + 1) as Hl
    by (intros; apply string_app_length).
  split; [|split; [|split]].
  - rewrite Hs, !Hh. destruct (Ascii.eqb c "B") eqn:EB; simpl; [done|].
    by rewrite EB.
  - rewrite !Hs. destruct (Ascii.eqb c "B") eqn:EB; simpl; [done|]. by rewrite EB.
  - rewrite !Hh. destruct (Ascii.eqb c "B") eqn:EB; simpl; [done|].
    destruct (Ascii.eqb c "S") eqn:ES; simpl; [done|]. by rewrite EB, ES.
  - intros t. destruct t; simpl; rewrite ?Hs, ?Hh, ?Hl, ?drop_last_snoc; done.
Qed.

Lemma NoDup_fmap_elem_inj {A B : Type} (f : A -> B) (l : list A) (x y : A) :
  NoDup (f <$> l) -> x ∈ l -> y ∈ l -> f x = f y -> x = y.
Proof.
  induction l as [|z l IH]; intros Hnd Hx Hy Hf; [by apply elem_of_nil in Hx|].
  rewrite fmap_cons in Hnd. apply NoDup_cons in Hnd as [Hz Hnd].
  apply elem_of_cons in Hx as [->|Hx]; apply elem_of_cons in Hy as [->|Hy].
  - done.
  - exfalso. apply Hz. rewrite Hf. by apply list_elem_of_fmap_2.
  - exfalso. apply Hz. rewrite <- Hf. by apply list_elem_of_fmap_2.
  - by apply IH.
Qed.

Lemma flagged_raw_ids_elem (t : Tier) (rows : list Row) (row : Row) (raw : string) :
  row ∈ rows ->
  is_requirement_row row = true ->
  notna (tier_flag t row) = true ->
  r_requirement row = PyStr raw ->
  raw ∈ flagged_raw_ids t rows.
Proof.
  intros Hin Hrow Hflag Hreq. unfold flagged_raw_ids.
  apply list_elem_of_In, in_flat_map. exists row.
  split; [by apply list_elem_of_In|].
  unfold row_raw_id. rewrite Hrow, Hflag, Hreq. simpl. by left.
Qed.

(** X6: the rewriting is not one-to-one.  Two requirement rows whose raw
    identifiers are the same body followed by 'B' and by 'S', both flagged
    for the Substantial tier or both for the High tier, give that tier one
    and the same identifier, so the tier list of a completed build repeats
    it. *)
Theorem rewritten_identifiers_collide (t : Tier) (rows : list Row) (st : State)
    (body : string) (row1 row2 : Row) :
  t <> Basic ->
  build rows = inr st ->
  row1 ∈ rows -> row2 ∈ rows ->
  is_requirement_row row1 = true -> is_requirement_row row2 = true ->
  notna (tier_flag t row1) = true -> notna (tier_flag t row2) = true ->
  r_requirement row1 = PyStr (body ++ "B") ->
  r_requirement row2 = PyStr (body ++ "S") ->
  tier_key t (body ++ "B") = tier_key t (body ++ "S")
  /\ tier_key t (body ++ "B") ∈ tier_list t st
  /\ ~ NoDup (tier_list t st).
Proof.
  intros Ht Hbuild Hin1 Hin2 Hrow1 Hrow2 Hf1 Hf2 Hreq1 Hreq2.
  assert (tier_key t (body ++ "B") = tier_key t (body ++ "S")) as Hkey.
  { change "B" with (String "B"%char ""). change "S" with (String "S"%char "").
    destruct t; simpl; [done| |];
      by rewrite ?substantial_key_snoc, ?high_key_snoc. }
  pose proof (flagged_raw_ids_elem t rows row1 _ Hin1 Hrow1 Hf1 Hreq1) as E1.
  pose proof (flagged_raw_ids_elem t rows row2 _ Hin2 Hrow2 Hf2 Hreq2) as E2.
  rewrite (tier_list_build t rows st Hbuild).
  split; [done|]. split; [by apply list_elem_of_fmap_2|].
  intros Hnd.
  pose proof (NoDup_fmap_elem_inj _ _ _ _ Hnd E1 E2 Hkey) as E.
  change "B" with (String "B"%char "") in E. change "S" with (String "S"%char "") in E.
  apply snoc_inj in E as [_ E]. discriminate E.
Qed.

Lemma rewritten_identifiers_collide_witness :
  tier_key High ("R1" ++ "B") = tier_key High ("R1" ++ "S")
  /\ tier_key High ("R1" ++ "B") ∈ tier_list High colliding_state
  /\ ~ NoDup (tier_list High colliding_state).
Proof.
  apply (rewritten_identifiers_collide High colliding_rows colliding_state "R1"
           (high_row "R1B") (high_row "R1S")
           ltac:(discriminate) eq_refl
           ltac:(unfold colliding_rows; simpl; repeat constructor)
           ltac:(unfold colliding_rows; simpl; repeat constructor)
           eq_refl eq_refl eq_refl eq_refl eq_refl eq_refl).
Defined.

(** ** Nothing is removed or rewritten *)

Lemma list_grows_trans {A : Type} (R : A -> A -> Prop) (l1 l2 l3 : list A) :
  (forall x y z, R x y -> R y z -> R x z) ->
  list_grows R l1 l2 -> list_grows R l2 l3 -> list_grows R l1 l3.
Proof.
  intros HR H12 H23 i x Hx.
  destruct (H12 i x Hx) as (y & Hy & Rxy).
  destruct (H23 i y Hy) as (z & Hz & Ryz). eauto.
Qed.

Lemma part_extends_refl p : part_extends p p.
Proof. by repeat split. Qed.

Lemma part_extends_trans p1 p2 p3 :
  part_extends p1 p2 -> part_extends p2 p3 -> part_extends p1 p3.
Proof.
  intros (? & ? & ? & ? & ? & ?) (? & ? & ? & ? & ? & ?).
  repeat split; try congruence. by etrans.
Qed.

Lemma control_extends_refl c : control_extends c c.
Proof. repeat split. apply list_grows_refl, part_extends_refl. Qed.

Lemma control_extends_trans c1 c2 c3 :
  control_extends c1 c2 -> control_extends c2 c3 -> control_extends c1 c3.
Proof.
  intros (? & ? & ? & ? & ?) (? & ? & ? & ? & ?).
  repeat split; try congruence.
  eapply list_grows_trans; eauto using part_extends_trans.
Qed.

Lemma group_extends_refl g : group_extends g g.
Proof. repeat split. apply list_grows_refl, control_extends_refl. Qed.

Lemma group_extends_trans g1 g2 g3 :
  group_extends g1 g2 -> group_extends g2 g3 -> group_extends g1 g3.
Proof.
  intros (? & ? & ? & ?) (? & ? & ? & ?).
  repeat split; try congruence.
  eapply list_grows_trans; eauto using control_extends_trans.
Qed.

Lemma tree_extends_refl gs : tree_extends gs gs.
Proof. apply list_grows_refl, group_extends_refl. Qed.

Lemma tree_extends_trans gs1 gs2 gs3 :
  tree_extends gs1 gs2 -> tree_extends gs2 gs3 -> tree_extends gs1 gs3.
Proof. apply list_grows_trans, group_extends_trans. Qed.

Lemma tree_extends_append gs g : tree_extends gs (append gs g).
Proof. apply list_grows_append, group_extends_refl. Qed.

Lemma tree_extends_controls_append gi c gs :
  tree_extends gs (controls_append gi c gs).
Proof.
  apply list_grows_alter; [apply group_extends_refl|]. intros g _.
  repeat split. apply list_grows_append, control_extends_refl.
Qed.

Lemma tree_extends_control_parts_append cr p gs :
  tree_extends gs (control_parts_append cr p gs).
Proof.
  apply list_grows_alter; [apply group_extends_refl|]. intros g _.
  repeat split. apply list_grows_alter; [apply control_extends_refl|]. intros c _.
  repeat split. apply list_grows_append, part_extends_refl.
Qed.

Lemma tree_extends_part_parts_append h r gs :
  tree_extends gs (part_parts_append h r gs).
Proof.
  apply list_grows_alter; [apply group_extends_refl|]. intros g _.
  repeat split. apply list_grows_alter; [apply control_extends_refl|]. intros c _.
  repeat split. apply list_grows_alter; [apply part_extends_refl|]. intros p _.
  repeat split. unfold append. by apply prefix_app_r.
Qed.

Lemma tree_extends_add_tier (t : Tier) (st st' : State) (row : Row) :
  add_tier t st row = inr st' -> tree_extends (groups st) (groups st').
Proof.
  intros H. destruct (notna (tier_flag t row)) eqn:Hflag.
  - apply add_tier_inv in H as (raw & cid & title & token & d & h & _ & _ & ->); [|done].
    rewrite groups_attach. apply tree_extends_part_parts_append.
  - rewrite add_tier_skip in H by done. injection H as <-. apply tree_extends_refl.
Qed.

Lemma tree_extends_process_row (st st' : State) (row : Row) :
  process_row st row = inr st' -> tree_extends (groups st) (groups st').
Proof.
  unfold process_row. intros H. bind_inv H as st1 H1. injection H as <-. simpl.
  destruct (is_category_row row).
  { unfold category_branch in H1.
    destruct (py_ne _ _ || is_none _); [|injection H1 as <-; apply tree_extends_refl].
    bind_inv H1 as g Hg. injection H1 as <-. simpl. apply tree_extends_append. }
  destruct (is_control_row row).
  { unfold control_branch in H1.
    destruct (py_ne _ _ || is_none _); [|injection H1 as <-; apply tree_extends_refl].
    bind_inv H1 as c Hc. bind_inv H1 as gi Hgi.
    bind_inv H1 as obj Hobj. bind_inv H1 as req Hreq. injection H1 as <-. simpl.
    eapply tree_extends_trans; [apply tree_extends_controls_append|].
    eapply tree_extends_trans; apply tree_extends_control_parts_append. }
  destruct (is_requirement_row row); [|injection H1 as <-; apply tree_extends_refl].
  unfold requirement_branch in H1.
  bind_inv H1 as s1 Hb. bind_inv H1 as s2 Hs.
  eapply tree_extends_trans; [apply (tree_extends_add_tier Basic _ _ _ Hb)|].
  eapply tree_extends_trans; [apply (tree_extends_add_tier Substantial _ _ _ Hs)|].
  apply (tree_extends_add_tier High _ _ _ H1).
Qed.

Lemma tree_extends_process_rows (rows : list Row) (st st' : State) :
  process_rows st rows = inr st' -> tree_extends (groups st) (groups st').
Proof.
  revert st. induction rows as [|row rows IH]; simpl; intros st H.
  - injection H as <-. apply tree_extends_refl.
  - bind_inv H as st1 H1. eapply tree_extends_trans; [|by apply IH].
    by eapply tree_extends_process_row.
Qed.

(** X7: the loop only appends.  If the build over a sheet completes, so
    does the build over any number of its leading rows, and everything that
    build produced is still there at the end, at the same position and with
    the same fields: each group, each control and each part, to whose lists
    later rows have at most appended; each tier list of the shorter build is
    a prefix of that of the longer one. *)
Theorem build_only_appends (rows more : list Row) (st' : State) :
  build (rows ++ more)%list = inr st' ->
  exists st,
    build rows = inr st
    /\ tree_extends (groups st) (groups st')
    /\ (forall t, tier_list t st `prefix_of` tier_list t st')
    /\ length (groups st) <= length (groups st').
Proof.
  unfold build. rewrite process_rows_app. intros H. bind_inv H as st Hst.
  exists st. split; [done|].
  pose proof (tree_extends_process_rows more st st' H) as Hext.
  split; [done|]. split.
  - intros t. rewrite (tier_list_process_rows t more st st' H). by apply prefix_app_r.
  - destruct (decide (length (groups st) = 0)) as [->|Hne]; [lia|].
    destruct (lookup_lt_is_Some_2 (groups st) (length (groups st) - 1)) as [g Hg];
      [lia|].
    destruct (Hext _ _ Hg) as (g' & Hg' & _).
    apply lookup_lt_Some in Hg'. lia.
Qed.

Lemma build_only_appends_witness :
  exists st,
    build (take 2 (scenario_rows PyNaN PyNaN)) = inr st
    /\ tree_extends (groups st) (groups (scenario_state PyNaN PyNaN))
    /\ (forall t, tier_list t st `prefix_of` tier_list t (scenario_state PyNaN PyNaN))
    /\ length (groups st) <= length (groups (scenario_state PyNaN PyNaN)).
Proof.
  apply (build_only_appends (take 2 (scenario_rows PyNaN PyNaN))
           [scenario_requirement_row] (scenario_state PyNaN PyNaN) eq_refl).
Defined.

(** ** The files of a run *)

















(** ** The shape of the tree *)

Lemma control_branch_cases (st st' : State) (row : Row) :
  control_branch st row = inr st' ->
  st' = st
  \/ exists (cid ctl title token : string) (last : ascii) (gi : nat),
       r_category row = PyStr cid /\ r_control row = PyStr ctl
       /\ Str.last_char ctl = Some last /\ r_title row = PyStr title
       /\ Str.first_token title = Some token
       /\ current_loop_control st <> PyStr ctl
       /\ category st = Some gi.
Proof.
  unfold control_branch. intros H.
  destruct (py_ne _ _ || is_none _) eqn:E; [|left; by injection H].
  right. bind_inv H as c Hc. unfold create_control in Hc.
  bind_inv Hc as l Hl. apply py_last_inv in Hl as (ctl & ch & Hctl & Hlast & ->).
  bind_inv Hc as stem Hstem.
  apply control_stem_inv in Hstem as (cid & title & token & Hcat & Htitle & Htok & ->).
  bind_inv H as gi Hgi. apply read_local_inv in Hgi.
  exists cid, ctl, title, token, ch, gi. repeat split; try done.
  rewrite Hctl, differs_from_previous in E.
  apply negb_true_iff, bool_decide_eq_false in E. done.
Qed.

Lemma lookup_control_app (r : nat * nat) (gs more : list Group) (c : Control) :
  lookup_control r gs = Some c -> lookup_control r (gs ++ more)%list = Some c.
Proof.
  unfold lookup_control. intros H.
  destruct (gs !! r.1) as [g|] eqn:Hg; [|done].
  by rewrite (lookup_app_l_Some _ _ _ _ Hg).
Qed.

Lemma shaped_initial : shaped initial_state.
Proof. split; [constructor|]. by split. Qed.

Lemma shaped_set_current_loop (st : State) (cat ctl : pyval) :
  shaped st -> shaped (set_current_loop st cat ctl).
Proof. done. Qed.

Lemma shaped_category_branch (st st' : State) (row : Row) :
  shaped st -> category_branch st row = inr st' -> shaped st'.
Proof.
  intros (Htree & Hcat & Hh) H. unfold category_branch in H.
  destruct (py_ne _ _ || is_none _); [|by injection H as <-].
  bind_inv H as g Hg. injection H as <-.
  apply create_category_inv in Hg as (cid & _ & ->). unfold append.
  split; [|split]; simpl.
  - apply Forall_app. split; [done|]. apply Forall_singleton.
    split; [by exists cid|constructor].
  - intros gi [= <-]. rewrite lookup_app_r by done.
    rewrite Nat.sub_diag. by eexists.
  - intros h Hhd. destruct (Hh h Hhd) as (H1 & c & Hc & Ht).
    split; [done|]. exists c. split; [|done]. by apply lookup_control_app.
Qed.

Lemma shaped_control_branch (st st' : State) (row : Row) :
  shaped st -> control_branch st row = inr st' -> shaped st'.
Proof.
  intros Hsh H.
  destruct (control_branch_cases _ _ _ H)
    as [->|(cid & ctl & title & token & last & gi & Hcat & Hctl & Hlast & Htitle
             & Htok & Hne & Hgi)]; [done|].
  destruct Hsh as (Htree & Hc & Hh).
  destruct (Hc gi Hgi) as [g Hg].
  rewrite (control_branch_ok st row gi g cid ctl title token last) in H by done.
  injection H as <-.
  pose proof (Forall_lookup_1 _ _ _ _ Htree Hg) as (Hid & Hcs).
  assert (gi < length (groups st)) as Hlt by (by eapply lookup_lt_Some).
  split; [|split]; simpl.
  - apply Forall_insert; [done|]. split; [done|]. simpl. unfold append.
    apply Forall_app. split; [done|]. apply Forall_singleton.
    exists cid, title, token, last, (r_description row), [].
    split; [done|]. split; [done|]. constructor.
  - intros gj Hgj. rewrite list_lookup_insert_is_Some. by apply Hc.
  - intros h [= <-]. split; [done|].
    exists (new_control cid last title token (r_description row)).
    split; [|by rewrite Htitle].
    unfold lookup_control. simpl. rewrite list_lookup_insert_eq by done. simpl.
    apply lookup_append_new.
Qed.

Lemma shaped_attach (t : Tier) (st : State) (key cid title token d : string)
    (h : nat * nat * nat) :
  shaped st ->
  requirement_headline st = Some h ->
  current_loop_control_title st = Some (PyStr title) ->
  Str.first_token title = Some token ->
  shaped (attach t st key h (requirement_part (tier_name t) key cid token d)).
Proof.
  intros (Htree & Hc & Hh) Hhd Htitle Htok.
  destruct (Hh h Hhd) as (H1 & c & Hlc & Ht).
  destruct h as [[gi ci] pi]. simpl in H1. subst pi.
  unfold lookup_control in Hlc. simpl in Hlc.
  destruct (groups st !! gi) as [g|] eqn:Hg; [|done]. simpl in Hlc.
  pose proof (Forall_lookup_1 _ _ _ _ Htree Hg) as (Hid & Hcs).
  pose proof (Forall_lookup_1 _ _ _ _ Hcs Hlc)
    as (cid0 & title0 & token0 & last & obj & reqs & Htok0 & -> & Hreqs).
  rewrite Htitle in Ht. simpl in Ht. injection Ht as ->.
  rewrite Htok0 in Htok. injection Htok as ->.
  assert (groups (attach t st key (gi, ci, 1%nat)
                    (requirement_part (tier_name t) key cid token d))
          = <[gi := set_group_controls g
                      (<[ci := mkControl ("eucs-" ++ cid0 ++ "." ++ token) "eucs"
                                 (PyStr title0)
                                 [mkProperty "label" None (String last "" ++ ".")]
                                 [objective_part cid0 token obj;
                                  headline_part cid0 token
                                    (reqs ++ [requirement_part (tier_name t) key cid
                                                token d])]]>
                         (group_controls g))]> (groups st)) as Hgs.
  { rewrite groups_attach. unfold part_parts_append. simpl.
    rewrite (alter_eq_insert _ _ _ _ Hg). f_equal. f_equal.
    by rewrite (alter_eq_insert _ _ _ _ Hlc). }
  assert (gi < length (groups st)) as Hlt by (by eapply lookup_lt_Some).
  assert (ci < length (group_controls g)) as Hlt' by (by eapply lookup_lt_Some).
  split; [|split].
  - unfold tree_shaped. rewrite Hgs.
    apply Forall_insert; [done|]. split; [done|]. simpl.
    apply Forall_insert; [done|].
    exists cid0, title0, token, last, obj,
      (reqs ++ [requirement_part (tier_name t) key cid token d])%list.
    split; [done|]. split; [done|].
    apply Forall_app. split; [done|]. apply Forall_singleton.
    by exists t, key, cid, d.
  - intros gj Hgj. rewrite Hgs, list_lookup_insert_is_Some.
    apply Hc. by destruct t.
  - intros h Hh'.
    assert (h = (gi, ci, 1%nat)) as -> by (destruct t; simpl in Hh'; congruence).
    split; [done|]. eexists. split.
    + unfold lookup_control. rewrite Hgs. simpl.
      rewrite list_lookup_insert_eq by done. simpl.
      by rewrite list_lookup_insert_eq by done.
    + simpl. by destruct t.
Qed.

Lemma shaped_add_tier (t : Tier) (st st' : State) (row : Row) :
  shaped st -> add_tier t st row = inr st' -> shaped st'.
Proof.
  intros Hsh H. destruct (notna (tier_flag t row)) eqn:Hflag.
  - apply add_tier_inv in H
      as (raw & cid & title & token & d & h & Hready & _ & ->); [|done].
    destruct Hready as [_ _ Htitle Htok _ Hh]. by eapply shaped_attach.
  - rewrite add_tier_skip in H by done. by injection H as <-.
Qed.

Lemma shaped_process_row (st st' : State) (row : Row) :
  shaped st -> process_row st row = inr st' -> shaped st'.
Proof.
  unfold process_row. intros Hsh H. bind_inv H as st1 H1. injection H as <-.
  apply shaped_set_current_loop.
  destruct (is_category_row row); [by eapply shaped_category_branch|].
  destruct (is_control_row row); [by eapply shaped_control_branch|].
  destruct (is_requirement_row row); [|by injection H1 as <-].
  unfold requirement_branch in H1.
  bind_inv H1 as s1 Hb. bind_inv H1 as s2 Hs.
  apply (shaped_add_tier High s2 st1 row); [|done].
  apply (shaped_add_tier Substantial s1 s2 row); [|done].
  by apply (shaped_add_tier Basic st s1 row).
Qed.

Lemma shaped_process_rows (rows : list Row) (st st' : State) :
  shaped st -> process_rows st rows = inr st' -> shaped st'.
Proof.
  revert st. induction rows as [|row rows IH]; simpl; intros st Hsh H.
  - by injection H as <-.
  - bind_inv H as st1 H1. eapply IH; [|done]. by eapply shaped_process_row.
Qed.

(** X12: the shape of every catalog the loop completes.  Each group has
    the identifier 'eucs-' + category and the label category + '.'; each
    control has class 'eucs', a string title, the identifier 'eucs-' +
    category + '.' + first word of the title, and exactly two parts: the
    Objective statement, without sub-parts, and the Requirements headline,
    without prose.  The Requirement parts are exactly the sub-parts of the
    headlines: leaves with one 'alt-identifier' property, whose own
    identifier carries the first title word of the control they hang under.
    The current headline, when there is one, is the second part of a
    control of the tree. *)
Theorem built_tree_is_shaped (rows : list Row) (st : State) :
  build rows = inr st ->
  tree_shaped (groups st)
  /\ (forall g c, g ∈ groups st -> c ∈ group_controls g ->
        length (control_parts c) = 2
        /\ exists obj head,
             control_parts c = [obj; head]
             /\ part_parts obj = [] /\ part_prose head = PyNone
             /\ part_id obj = control_id c ++ "_obj"
             /\ part_id head = control_id c ++ "_req"
             /\ Forall (fun r => is_requirement r = true /\ part_parts r = [])
                  (part_parts head))
  /\ (forall h, requirement_headline st = Some h ->
        h.2 = 1%nat /\ is_Some (lookup_part h (groups st))).
Proof.
  intros H. apply (shaped_process_rows rows _ _ shaped_initial) in H
    as (Htree & _ & Hh).
  split; [done|]. split.
  - intros g c Hg Hc.
    apply list_elem_of_lookup in Hg as [gi Hg].
    apply list_elem_of_lookup in Hc as [ci Hc].
    pose proof (Forall_lookup_1 _ _ _ _ Htree Hg) as (_ & Hcs).
    pose proof (Forall_lookup_1 _ _ _ _ Hcs Hc)
      as (cid & title & token & last & obj & reqs & _ & -> & Hreqs).
    split; [done|]. eexists _, _. split; [reflexivity|]. simpl.
    repeat split; try done.
    eapply Forall_impl; [exact Hreqs|].
    by intros r (t & rid & cid' & d & ->).
  - intros h Hhd. destruct (Hh h Hhd) as (H1 & c & Hc & _). split; [done|].
    unfold lookup_part. rewrite Hc. simpl. rewrite H1.
    destruct h as [[gi ci] pi]. simpl in *.
    unfold lookup_control in Hc. simpl in Hc.
    destruct (groups st !! gi) as [g|] eqn:Hg; [|done]. simpl in Hc.
    pose proof (Forall_lookup_1 _ _ _ _ Htree Hg) as (_ & Hcs).
    pose proof (Forall_lookup_1 _ _ _ _ Hcs Hc)
      as (cid & title & token & last & obj & reqs & _ & -> & _).
    by eexists.
Qed.

Lemma built_tree_is_shaped_witness :
  let st := colliding_state in
  tree_shaped (groups st)
  /\ (forall g c, g ∈ groups st -> c ∈ group_controls g ->
        length (control_parts c) = 2
        /\ exists obj head,
             control_parts c = [obj; head]
             /\ part_parts obj = [] /\ part_prose head = PyNone
             /\ part_id obj = control_id c ++ "_obj"
             /\ part_id head = control_id c ++ "_req"
             /\ Forall (fun r => is_requirement r = true /\ part_parts r = [])
                  (part_parts head))
  /\ (forall h, requirement_headline st = Some h ->
        h.2 = 1%nat /\ is_Some (lookup_part h (groups st))).
Proof.
  intros st. apply (built_tree_is_shaped colliding_rows st). reflexivity.
Defined.

(** ** A category row between a control and its requirements *)

Lemma category_row_new (st : State) (row : Row) (cid : string) :
  is_category_row row = true ->
  r_category row = PyStr cid ->
  current_loop_category st <> PyStr cid ->
  process_row st row = inr (after_category_row st row cid).
Proof.
  intros Hrow Hcat Hne. unfold process_row, category_branch. rewrite Hrow, Hcat.
  rewrite differs_from_previous, bool_decide_eq_false_2 by done. simpl.
  by rewrite <- Hcat.
Qed.

Lemma groups_block_state_other (t : Tier) (st : State) (row : Row)
    (raw cid token d : string) (h : PartRef) (gj : nat) :
  gj <> h.1.1 ->
  groups (block_state t row raw cid token d h st) !! gj = groups st !! gj.
Proof.
  intros Hne. unfold block_state. destruct (notna (tier_flag t row)); [|done].
  rewrite groups_attach. unfold part_parts_append.
  by rewrite list_lookup_alter_ne.
Qed.

Lemma requirement_row_effect (st : State) (row : Row)
    (raw cid title token d : string) (h : PartRef) (p : Part) :
  is_requirement_row row = true ->
  block_ready st row raw cid title token d h ->
  raw <> "" ->
  lookup_part h (groups st) = Some p ->
  let st' := after_requirement_row st row raw cid token d h in
  process_row st row = inr st'
  /\ (forall t, tier_list t st' = (tier_list t st ++ row_keys t row raw)%list)
  /\ lookup_part h (groups st')
     = Some (set_part_parts p (part_parts p ++ row_parts row raw cid token d)%list)
  /\ (forall gj, gj <> h.1.1 -> groups st' !! gj = groups st !! gj).
Proof.
  intros Hrow Hready Hraw Hp st'. unfold st', after_requirement_row.
  rewrite (process_row_requirement st row Hrow).
  rewrite (requirement_branch_closed st row raw cid title token d h Hready Hraw).
  split; [done|].
  set (s1 := block_state Basic row raw cid token d h st).
  set (s2 := block_state Substantial row raw cid token d h s1).
  set (s3 := block_state High row raw cid token d h s2).
  split.
  { intros t.
    assert (tier_list t (set_current_loop s3 (r_category row) (r_control row))
            = tier_list t s3) as -> by (by destruct t).
    unfold s3, s2, s1. rewrite !tier_list_block_state.
    destruct t; simpl; by rewrite ?app_nil_r. }
  split.
  { simpl. unfold s3.
    rewrite (lookup_part_block_state High s2 row raw cid token d h
               (set_part_parts p (part_parts p
                  ++ block_parts Basic row raw cid token d
                  ++ block_parts Substantial row raw cid token d)%list)).
    - simpl. unfold row_parts. by rewrite <- !(assoc_L (++)%list).
    - unfold s2.
      rewrite (lookup_part_block_state Substantial s1 row raw cid token d h
                 (set_part_parts p (part_parts p
                    ++ block_parts Basic row raw cid token d)%list)).
      + simpl. by rewrite <- !(assoc_L (++)%list).
      + unfold s1. by apply lookup_part_block_state. }
  intros gj Hgj. simpl. unfold s3, s2, s1.
  by rewrite !groups_block_state_other.
Qed.

Lemma lookup_part_app (h : PartRef) (gs more : list Group) (p : Part) :
  lookup_part h gs = Some p -> lookup_part h (gs ++ more)%list = Some p.
Proof.
  unfold lookup_part. intros H.
  destruct (lookup_control h.1 gs) as [c|] eqn:Hc; [|done].
  by rewrite (lookup_control_app _ _ more _ Hc).
Qed.

(** X13: a category row does not end the current control.  A category
    row whose identifier differs from the category cell of the row before it
    never raises: it appends one group without controls, whatever its title
    cell holds, and makes it the current category, but leaves the current
    headline and the current control title as they were.  A requirement row
    that follows it, with no control row in between, therefore attaches its
    Requirement parts to the headline of the control of the earlier
    category, under an identifier made of its own category cell and the
    first title word of that earlier control; the new group stays empty. *)
Theorem category_row_keeps_current_control (st : State) (crow rrow : Row)
    (cid' raw cid title token d : string) (h : PartRef) (p : Part) :
  is_category_row crow = true ->
  r_category crow = PyStr cid' ->
  current_loop_category st <> PyStr cid' ->
  is_requirement_row rrow = true ->
  block_ready st rrow raw cid title token d h ->
  raw <> "" ->
  lookup_part h (groups st) = Some p ->
  exists st1 st2,
    process_row st crow = inr st1
    /\ groups st1 = append (groups st) (new_group cid' (r_title crow))
    /\ category st1 = Some (length (groups st))
    /\ requirement_headline st1 = Some h
    /\ current_loop_control_title st1 = Some (PyStr title)
    /\ (forall t, tier_list t st1 = tier_list t st)
    /\ process_row st1 rrow = inr st2
    /\ (h.1.1 < length (groups st))%nat
    /\ groups st2 !! length (groups st) = Some (new_group cid' (r_title crow))
    /\ lookup_part h (groups st2)
       = Some (set_part_parts p
                 (part_parts p ++ row_parts rrow raw cid token d)%list)
    /\ (forall t, tier_list t st2 = (tier_list t st ++ row_keys t rrow raw)%list).
Proof.
  intros Hcrow Hcat Hne Hrrow Hready Hraw Hp.
  set (st1 := after_category_row st crow cid').
  assert (block_ready st1 rrow raw cid title token d h) as Hready1.
  { destruct Hready. by split. }
  assert (lookup_part h (groups st1) = Some p) as Hp1.
  { simpl. unfold append. by apply lookup_part_app. }
  assert (h.1.1 < length (groups st))%nat as Hlt.
  { apply lookup_part_Some in Hp as (g & c & Hg & _). by eapply lookup_lt_Some. }
  destruct (requirement_row_effect st1 rrow raw cid title token d h p
              Hrrow Hready1 Hraw Hp1) as (Hrun & Hlists & Hpart & Hother).
  exists st1, (after_requirement_row st1 rrow raw cid token d h).
  split; [by apply category_row_new|]. split; [done|]. split; [done|].
  destruct Hready as [_ _ Htitle _ _ Hh].
  split; [done|]. split; [done|]. split; [intros t; by destruct t|].
  split; [done|]. split; [done|]. split.
  - rewrite Hother by lia. simpl. apply lookup_append_new.
  - split; [done|]. intros t. rewrite Hlists. by destruct t.
Qed.

Lemma category_row_keeps_current_control_witness :
  let st := scenario_before_requirement in
  let crow := category_row "C2" "Cat Two" in
  let rrow := stray_requirement_row in
  exists st1 st2,
    process_row st crow = inr st1
    /\ groups st1 = append (groups st) (new_group "C2" (r_title crow))
    /\ category st1 = Some (length (groups st))
    /\ requirement_headline st1 = Some (0, 0, 1)%nat
    /\ current_loop_control_title st1 = Some (PyStr "Do Thing")
    /\ (forall t, tier_list t st1 = tier_list t st)
    /\ process_row st1 rrow = inr st2
    /\ (0 < length (groups st))%nat
    /\ groups st2 !! length (groups st) = Some (new_group "C2" (r_title crow))
    /\ lookup_part (0, 0, 1)%nat (groups st2)
       = Some (set_part_parts scenario_headline
                 (part_parts scenario_headline
                  ++ row_parts rrow "R9B" "C2" "Do" "desc")%list)
    /\ (forall t, tier_list t st2 = (tier_list t st ++ row_keys t rrow "R9B")%list).
Proof.
  intros st crow rrow.
  apply (category_row_keeps_current_control st crow rrow
           "C2" "R9B" "C2" "Do Thing" "Do" "desc" (0, 0, 1)%nat scenario_headline
           eq_refl eq_refl ltac:(discriminate) eq_refl
           ltac:(by split) ltac:(discriminate) eq_refl).
Defined.

(** ** The order of the identifiers *)

Lemma alter_middle {A : Type} (f : A -> A) (pre : list A) (x : A) (post : list A) :
  alter f (length pre) (pre ++ x :: post)%list = (pre ++ f x :: post)%list.
Proof. induction pre as [|y pre IH]; simpl; [done|]. f_equal. exact IH. Qed.

Lemma insert_middle {A : Type} (pre : list A) (x y : A) (post : list A) :
  <[length pre := y]> (pre ++ x :: post)%list = (pre ++ y :: post)%list.
Proof. induction pre as [|z pre IH]; simpl; [done|]. f_equal. exact IH. Qed.

Lemma last_position_split {A : Type} (l : list A) (i : nat) (x : A) :
  length l = S i -> l !! i = Some x ->
  exists pre, l = (pre ++ [x])%list /\ length pre = i.
Proof.
  intros Hlen Hx. exists (take i l). split.
  - rewrite <- (take_drop i l) at 1. f_equal.
    pose proof (drop_S l x i Hx) as Hd. rewrite Hd. f_equal.
    apply nil_length_inv. rewrite length_drop. lia.
  - rewrite length_take. lia.
Qed.

Lemma group_ids_no_controls tier (post : list Group) :
  Forall no_controls post -> flat_map (group_ids tier) post = [].
Proof.
  induction 1 as [|g post Hg _ IH]; simpl; [done|].
  unfold group_ids at 1. by rewrite Hg, IH.
Qed.

(** Appending to the last headline appends to the tree read in order. *)
Lemma part_parts_append_last (gs pre post : list Group) (g : Group)
    (cs : list Control) (c : Control) (obj head r : Part) (h : PartRef) :
  gs = (pre ++ g :: post)%list -> length pre = h.1.1 ->
  group_controls g = (cs ++ [c])%list -> length cs = h.1.2 ->
  control_parts c = [obj; head] -> h.2 = 1%nat ->
  part_parts_append h r gs
  = (pre
     ++ set_group_controls g
          (cs ++ [set_control_parts c
                    [obj; set_part_parts head (append (part_parts head) r)]])
     :: post)%list.
Proof.
  intros -> Hpre Hg Hcs Hc Hh. unfold part_parts_append.
  rewrite <- Hpre, alter_middle. f_equal. f_equal. f_equal.
  rewrite Hg, <- Hcs, alter_middle. f_equal. f_equal. f_equal.
  by rewrite Hc, Hh.
Qed.

Lemma requirement_fields_last tier (pre post : list Group) (g : Group)
    (cs : list Control) (c : Control) (obj head r : Part) :
  Forall no_controls post ->
  group_controls g = (cs ++ [c])%list ->
  control_parts c = [obj; head] ->
  requirement_fields tier
    (pre
     ++ set_group_controls g
          (cs ++ [set_control_parts c
                    [obj; set_part_parts head (append (part_parts head) r)]])
     :: post)
  = (requirement_fields tier (pre ++ g :: post) ++ part_ids tier r)%list.
Proof.
  intros Hpost Hg Hc. rewrite !requirement_fields_groups, !flat_map_app. simpl.
  rewrite (group_ids_no_controls tier post Hpost), !app_nil_r.
  rewrite <- (assoc_L (++)%list). f_equal.
  unfold group_ids. simpl. rewrite Hg, !flat_map_app. simpl. rewrite !app_nil_r.
  rewrite <- (assoc_L (++)%list). f_equal.
  unfold control_ids. simpl. rewrite Hc. simpl. rewrite !app_nil_r.
  by rewrite part_ids_append, (assoc_L (++)%list).
Qed.

Lemma in_order_initial : in_order initial_state.
Proof. split; [done|]. split; [done|]. intros t. by destruct t. Qed.

Lemma in_order_category_branch (st st' : State) (row : Row) :
  in_order st -> category_branch st row = inr st' -> in_order st'.
Proof.
  intros (Hcat & Hh & Hf) H. unfold category_branch in H.
  destruct (py_ne _ _ || is_none _); [|by injection H as <-].
  bind_inv H as g Hg. injection H as <-.
  apply create_category_inv in Hg as (cid & _ & ->).
  split; [|split]; simpl.
  - intros gi [= <-]. unfold append. rewrite length_app. simpl. lia.
  - intros h Hhd.
    destruct (Hh h Hhd) as (pre & g & post & cs & c & obj & head
                             & Hgs & Hpre & Hpost & Hg & Hcs & Hc & H1).
    exists pre, g,
      (post ++ [mkGroup ("eucs-" ++ cid) (r_title row)
                  [mkProperty "label" None (cid ++ ".")] []])%list,
      cs, c, obj, head.
    split; [unfold append; by rewrite Hgs, <- (assoc_L (++)%list)|].
    split; [done|]. split; [|done].
    apply Forall_app. split; [done|]. by apply Forall_singleton.
  - intros t. rewrite requirement_fields_append. unfold group_ids. simpl.
    rewrite app_nil_r.
    assert (tier_list t (set_category st (length (groups st))) = tier_list t st)
      as Ht by (by destruct t).
    specialize (Hf t). by destruct t.
Qed.

Lemma in_order_control_branch (st st' : State) (row : Row) :
  in_order st -> control_branch st row = inr st' -> in_order st'.
Proof.
  intros Hord H.
  destruct (control_branch_cases _ _ _ H)
    as [->|(cid & ctl & title & token & last & gi & Hcat & Hctl & Hlast & Htitle
             & Htok & Hne & Hgi)]; [done|].
  destruct Hord as (Hc & Hh & Hf).
  pose proof (Hc gi Hgi) as Hlen.
  destruct (lookup_lt_is_Some_2 (groups st) gi) as [g Hg]; [lia|].
  rewrite (control_branch_ok st row gi g cid ctl title token last) in H by done.
  injection H as <-.
  destruct (last_position_split _ _ _ Hlen Hg) as (pre & Hgs & Hpre).
  assert (<[gi := set_group_controls g
                    (append (group_controls g)
                       (new_control cid last title token (r_description row)))]>
            (groups st)
          = (pre ++ [set_group_controls g
                       (append (group_controls g)
                          (new_control cid last title token (r_description row)))])%list)
    as Hins.
  { rewrite Hgs, <- Hpre. apply insert_middle. }
  split; [|split]; simpl.
  - intros gj Hgj. rewrite length_insert. by apply Hc.
  - intros h [= <-]. rewrite Hins.
    exists pre, (set_group_controls g
                   (append (group_controls g)
                      (new_control cid last title token (r_description row)))),
      [], (group_controls g),
      (new_control cid last title token (r_description row)),
      (objective_part cid token (r_description row)), (headline_part cid token []).
    by repeat split.
  - intros t. transitivity (Some <$> tier_list t st); [|by destruct t].
    rewrite <- (Hf t), Hins, Hgs.
    rewrite !requirement_fields_groups, !flat_map_app. simpl. rewrite !app_nil_r.
    f_equal. rewrite group_ids_append. unfold control_ids. simpl.
    by rewrite app_nil_r.
Qed.

Lemma in_order_attach (t : Tier) (st : State) (key cid token d : string)
    (h : PartRef) :
  in_order st ->
  requirement_headline st = Some h ->
  in_order (attach t st key h (requirement_part (tier_name t) key cid token d)).
Proof.
  intros (Hc & Hh & Hf) Hhd.
  destruct (Hh h Hhd) as (pre & g & post & cs & c & obj & head
                           & Hgs & Hpre & Hpost & Hg & Hcs & Hcp & H1).
  pose proof (part_parts_append_last _ pre post g cs c obj head
                (requirement_part (tier_name t) key cid token d) h
                Hgs Hpre Hg Hcs Hcp H1) as Happ.
  split; [|split].
  - intros gi Hgi. rewrite groups_attach. unfold part_parts_append.
    rewrite length_alter. apply Hc. by destruct t.
  - intros h' Hh'.
    assert (h' = h) as -> by (destruct t; simpl in Hh'; congruence).
    rewrite groups_attach, Happ.
    eexists pre, _, post, cs, _, obj, _.
    split; [reflexivity|]. by repeat split.
  - intros t'. rewrite groups_attach, Happ, tier_list_attach.
    rewrite (requirement_fields_last _ pre post g cs c obj head _ Hpost Hg Hcp).
    rewrite <- Hgs, (Hf t'), requirement_part_ids.
    destruct (decide (t' = t)) as [->|_].
    + unfold append. by rewrite fmap_app.
    + by rewrite app_nil_r.
Qed.

Lemma in_order_add_tier (t : Tier) (st st' : State) (row : Row) :
  in_order st -> add_tier t st row = inr st' -> in_order st'.
Proof.
  intros Hord H. destruct (notna (tier_flag t row)) eqn:Hflag.
  - apply add_tier_inv in H
      as (raw & cid & title & token & d & h & Hready & _ & ->); [|done].
    apply in_order_attach; [done|]. by destruct Hready.
  - rewrite add_tier_skip in H by done. by injection H as <-.
Qed.

Lemma in_order_process_row (st st' : State) (row : Row) :
  in_order st -> process_row st row = inr st' -> in_order st'.
Proof.
  unfold process_row. intros Hord H. bind_inv H as st1 H1. injection H as <-.
  assert (in_order st1) as (Hc & Hh & Hf).
  { destruct (is_category_row row); [by eapply in_order_category_branch|].
    destruct (is_control_row row); [by eapply in_order_control_branch|].
    destruct (is_requirement_row row); [|by injection H1 as <-].
    unfold requirement_branch in H1.
    bind_inv H1 as s1 Hb. bind_inv H1 as s2 Hs.
    apply (in_order_add_tier High s2 st1 row); [|done].
    apply (in_order_add_tier Substantial s1 s2 row); [|done].
    by apply (in_order_add_tier Basic st s1 row). }
  split; [done|]. split; [done|]. intros t. specialize (Hf t). by destruct t.
Qed.

Lemma in_order_process_rows (rows : list Row) (st st' : State) :
  in_order st -> process_rows st rows = inr st' -> in_order st'.
Proof.
  revert st. induction rows as [|row rows IH]; simpl; intros st Hord H.
  - by injection H as <-.
  - bind_inv H as st1 H1. eapply IH; [|done]. by eapply in_order_process_row.
Qed.

(** X14: the list of a tier and the tree agree in order, not only in
    content.  When the loop completes, reading the catalog from its first
    group to its last, and inside a group from its first control to its
    last, the identifiers of the Requirement parts of a tier come in exactly
    the order of the list that the profile of the tier selects, which is the
    order of the flagged rows of the sheet.  New parts only ever go to the
    last headline of the tree: the current category is the last group, and
    the current headline belongs to the last control there is. *)
Theorem tier_list_is_tree_order (rows : list Row) (st : State) :
  build rows = inr st ->
  (forall t : Tier,
     requirement_fields (tier_name t) (groups st) = Some <$> tier_list t st
     /\ requirement_ids (tier_name t) (groups st) = tier_list t st
     /\ requirement_ids (tier_name t) (groups st)
        = tier_key t <$> flagged_raw_ids t rows)
  /\ (forall gi, category st = Some gi -> length (groups st) = S gi)
  /\ (forall h, requirement_headline st = Some h -> headline_last (groups st) h).
Proof.
  intros H.
  pose proof (in_order_process_rows rows _ _ in_order_initial H) as (Hc & Hh & Hf).
  split; [|by split]. intros t.
  assert (requirement_ids (tier_name t) (groups st) = tier_list t st) as Hids.
  { unfold requirement_ids, requirements_of. rewrite omap_fmap_id.
    change (requirement_identifier <$> requirements_in (tier_name t) (all_parts (groups st)))
      with (requirement_fields (tier_name t) (groups st)).
    by rewrite (Hf t), omap_id_Some. }
  split; [apply Hf|]. split; [done|].
  by rewrite Hids, (tier_list_build t rows st H).
Qed.

Lemma tier_list_is_tree_order_witness :
  let st := two_control_state in
  (forall t : Tier,
     requirement_fields (tier_name t) (groups st) = Some <$> tier_list t st
     /\ requirement_ids (tier_name t) (groups st) = tier_list t st
     /\ requirement_ids (tier_name t) (groups st)
        = tier_key t <$> flagged_raw_ids t two_control_rows)
  /\ (forall gi, category st = Some gi -> length (groups st) = S gi)
  /\ (forall h, requirement_headline st = Some h -> headline_last (groups st) h).
Proof.
  intros st. apply (tier_list_is_tree_order two_control_rows st). reflexivity.
Defined.

(** ** Which sheet names match *)

Lemma prefix_app (needle hay : string) :
  String.prefix needle hay = true <-> exists post, hay = needle ++ post.
Proof.
  revert hay. induction needle as [|c needle IH]; intros hay.
  - split; [by exists hay|]. intros _. by destruct hay.
  - destruct hay as [|d hay]; simpl.
    + split; [done|]. by intros [post H].
    + destruct (Ascii.ascii_dec c d) as [->|Hne].
      * rewrite IH. split; intros [post H]; exists post; [by rewrite H|].
        by injection H.
      * split; [done|]. intros [post H]. injection H as -> _. done.
Qed.

Lemma contains_app (needle hay : string) :
  Str.contains needle hay = true
  <-> exists pre post, hay = pre ++ needle ++ post.
Proof.
  induction hay as [|d hay IH].
  - cbn [Str.contains]. rewrite orb_false_r, prefix_app. split.
    + intros [post H]. by exists "", post.
    + intros (pre & post & H). destruct pre; [by exists post|done].
  - cbn [Str.contains]. rewrite orb_true_iff, prefix_app, IH. split.
    + intros [[post H]|(pre & post & H)].
      * by exists "", post.
      * exists (String d pre), post. by rewrite H.
    + intros (pre & post & H). destruct pre as [|e pre].
      * left. by exists post.
      * right. exists pre, post. by injection H.
Qed.

Lemma lower_app (a b : string) : Str.lower (a ++ b) = Str.lower a ++ Str.lower b.
Proof. induction a as [|c a IH]; simpl; [done|]. by rewrite IH. Qed.

Lemma lower_char_idemp (c : ascii) :
  Str.lower_char (Str.lower_char c) = Str.lower_char c.
Proof. by destruct c as [[] [] [] [] [] [] [] []]. Qed.

Lemma lower_idemp (s : string) : Str.lower (Str.lower s) = Str.lower s.
Proof.
  induction s as [|c s IH]; simpl; [done|]. by rewrite lower_char_idemp, IH.
Qed.

(** X15: which sheet names qualify, and what the choice returns.  A
    name passes the test ['controls' in str(key).lower()] exactly when its
    lower-case form has 'controls' as a run of consecutive characters; so
    the test does not see the case of the name, and a name passes as soon as
    any part of it spells the word in whatever case.  The name the loop over
    the sheet names leaves in [sheet_name] is one of the names of the
    workbook and passes the test; the variable stays unbound exactly when no
    name passes. *)
Theorem sheet_name_matching (key : string) :
  (mentions_controls key = true
   <-> exists pre post, Str.lower key = pre ++ "controls" ++ post)
  /\ mentions_controls (Str.lower key) = mentions_controls key
  /\ (forall pre w post,
        Str.lower w = "controls" -> key = pre ++ w ++ post ->
        mentions_controls key = true)
  /\ (forall names,
        select_sheet names = Some key ->
        key ∈ names /\ mentions_controls key = true)
  /\ (forall names,
        select_sheet names = None
        <-> Forall (fun k => mentions_controls k = false) names).
Proof.
  split; [apply contains_app|]. split.
  { unfold mentions_controls. by rewrite lower_idemp. }
  split.
  { intros pre w post Hw ->. apply contains_app.
    exists (Str.lower pre), (Str.lower post). by rewrite !lower_app, Hw. }
  split.
  - intros names H. rewrite select_sheet_last in H.
    apply last_Some_elem_of, list_elem_of_filter in H as [H1 H2]. done.
  - intros names. rewrite select_sheet_last, last_None. split.
    + intros H. apply Forall_forall. intros k Hk.
      destruct (mentions_controls k) eqn:E; [|done].
      by destruct (filter_nil_not_elem_of _ _ k H E).
    + intros H. induction H as [|k names Hk _ IH]; [done|].
      rewrite filter_cons, decide_False; [done|]. by rewrite Hk.
Qed.

Lemma sheet_name_matching_witness :
  mentions_controls "EUCS CONTROLS 2024" = true.
Proof.
  apply (proj1 (proj2 (proj2 (sheet_name_matching "EUCS CONTROLS 2024")))
           "EUCS " "CONTROLS" " 2024"); reflexivity.
Defined.

(** ** The sheets the loop accepts *)

Lemma row_patterns_disjoint (row : Row) :
  (is_category_row row = true ->
   is_control_row row = false /\ is_requirement_row row = false)
  /\ (is_control_row row = true ->
      is_category_row row = false /\ is_requirement_row row = false)
  /\ (is_requirement_row row = true ->
      is_category_row row = false /\ is_control_row row = false).
Proof.
  unfold is_category_row, is_control_row, is_requirement_row, notna.
  by destruct (isna (r_category row)), (isna (r_control row)),
    (isna (r_requirement row)).
Qed.















(** ** The identifiers of the Requirement parts *)

Lemma string_app_assoc (a b c : string) : (a ++ b) ++ c = a ++ (b ++ c).
Proof.
  induction a as [|x a IH]; [done|].
  change (String x ((a ++ b) ++ c) = String x (a ++ (b ++ c))). by rewrite IH.
Qed.

Lemma tier_key_snoc (t : Tier) (body : string) (c : ascii) :
  tier_key t (body ++ String c "") = body ++ String (tier_letter t c) "".
Proof.
  destruct t; simpl; [done|apply substantial_key_snoc|apply high_key_snoc].
Qed.

Lemma tier_key_empty (t : Tier) : tier_key t "" = "".
Proof. by destruct t. Qed.

Lemma substring_skip (body s : string) (n : nat) :
  substring (String.length body) n (body ++ s) = substring 0 n s.
Proof. induction body as [|c body IH]; simpl; [done|]. apply IH. Qed.

Lemma last_two_snoc2 (body : string) (a b : ascii) :
  Str.last_two (body ++ String a (String b "")) = String a (String b "").
Proof.
  unfold Str.last_two. rewrite string_app_length. simpl.
  replace (String.length body + 2 - 2)%nat with (String.length body) by lia.
  by rewrite substring_skip.
Qed.

Lemma last_two_whole (s : string) :
  (String.length s <= 2)%nat -> Str.last_two s = s.
Proof.
  unfold Str.last_two. intros H.
  destruct s as [|a [|b [|c s]]]; simpl in *; try done. lia.
Qed.

(** Either [s] has at most one character or it ends in two. *)
Lemma string_two_cases (s : string) :
  s = "" \/ (exists c, s = String c "")
  \/ exists body a b, s = body ++ String a (String b "").
Proof.
  destruct (string_snoc_cases s) as [->|(s1 & b & ->)]; [by left|]. right.
  destruct (string_snoc_cases s1) as [->|(body & a & ->)]; [left; by exists b|].
  right. exists body, a, b. by rewrite string_app_assoc.
Qed.

Lemma last_two_tier_key (t : Tier) (raw : string) :
  Str.last_two (tier_key t raw) = tier_key t (Str.last_two raw).
Proof.
  destruct (string_two_cases raw) as [->|[[c ->]|(body & a & b & ->)]].
  - by destruct t.
  - rewrite (last_two_whole (String c "")) by (simpl; lia).
    rewrite (tier_key_snoc t "" c : tier_key t (String c "") = _).
    apply last_two_whole. simpl. lia.
  - rewrite last_two_snoc2.
    change (String a (String b "")) with (String a "" ++ String b "").
    rewrite <- string_app_assoc, !tier_key_snoc, string_app_assoc. simpl.
    apply last_two_snoc2.
Qed.

(** X17: the identifier of a Requirement part keeps two characters of
    the requirement identifier.  The part made for a tier from a raw
    identifier has the alt-identifier rewritten for the tier, and the part
    identifier stem + '_req.' + the last two characters of the raw
    identifier, rewritten for the tier.  So two parts of one tier under one
    control have the same part identifier exactly when their raw identifiers
    agree, after rewriting, on their last two characters, even though their
    alt-identifiers differ: raw identifiers that end in the same two
    characters always collide. *)
Theorem requirement_part_identifiers (t : Tier) (raw1 raw2 cid title d1 d2 : string)
    (p1 p2 : Part) :
  create_requirement (tier_name t) (PyStr (tier_key t raw1)) (PyStr cid)
    (PyStr title) (PyStr d1) = inr p1 ->
  create_requirement (tier_name t) (PyStr (tier_key t raw2)) (PyStr cid)
    (PyStr title) (PyStr d2) = inr p2 ->
  (exists stem,
     control_stem (PyStr cid) (PyStr title) = inr stem
     /\ part_id p1 = stem ++ "_req." ++ tier_key t (Str.last_two raw1)
     /\ part_id p2 = stem ++ "_req." ++ tier_key t (Str.last_two raw2))
  /\ requirement_identifier p1 = Some (tier_key t raw1)
  /\ (part_id p1 = part_id p2
      <-> tier_key t (Str.last_two raw1) = tier_key t (Str.last_two raw2))
  /\ (forall body1 body2 a b,
        raw1 = body1 ++ String a (String b "") ->
        raw2 = body2 ++ String a (String b "") ->
        part_id p1 = part_id p2
        /\ (body1 <> body2 ->
            requirement_identifier p1 <> requirement_identifier p2)).
Proof.
  intros H1 H2.
  apply create_requirement_inv in H1
    as (rid1 & cid1 & title1 & token & d1' & [= <-] & [= <-] & [= <-] & Htok & _ & ->).
  apply create_requirement_inv in H2
    as (rid2 & cid2 & title2 & token2 & d2' & [= <-] & [= <-] & [= <-] & Htok2 & _ & ->).
  rewrite Htok in Htok2. injection Htok2 as <-.
  assert (forall raw d,
            part_id (requirement_part (tier_name t) (tier_key t raw) cid token d)
            = ("eucs-" ++ cid ++ "." ++ token) ++ "_req."
              ++ tier_key t (Str.last_two raw)) as Hid.
  { intros raw d. simpl. by rewrite last_two_tier_key. }
  assert (part_id (requirement_part (tier_name t) (tier_key t raw1) cid token d1)
          = part_id (requirement_part (tier_name t) (tier_key t raw2) cid token d2)
          <-> tier_key t (Str.last_two raw1) = tier_key t (Str.last_two raw2)) as Hiff.
  { rewrite !Hid. split; [|by intros ->]. intros E.
    apply (inj (String.append _)) in E. by apply (inj (String.append "_req.")) in E. }
  split.
  { exists ("eucs-" ++ cid ++ "." ++ token).
    split; [by apply control_stem_ok|]. by rewrite !Hid. }
  split; [by destruct t|]. split; [done|].
  intros body1 body2 a b -> ->. split.
  - apply Hiff. by rewrite !last_two_snoc2.
  - intros Hne E.
    assert (forall raw d,
              requirement_identifier
                (requirement_part (tier_name t) (tier_key t raw) cid token d)
              = Some (tier_key t raw)) as Hri by (intros; by destruct t).
    rewrite !Hri in E. injection E as E.
    change (String a (String b "")) with (String a "" ++ String b "") in E.
    rewrite <- !string_app_assoc, !tier_key_snoc in E.
    apply snoc_inj in E as [E _]. apply snoc_inj in E as [E _]. done.
Qed.

Lemma requirement_part_identifiers_witness :
  exists p1 p2,
    create_requirement "high" (PyStr "OIS-01.1H") (PyStr "OIS") (PyStr "ISMS scope")
      (PyStr "first") = inr p1
    /\ create_requirement "high" (PyStr "OIS-02.1H") (PyStr "OIS") (PyStr "ISMS scope")
         (PyStr "second") = inr p2
    /\ part_id p1 = part_id p2
    /\ requirement_identifier p1 <> requirement_identifier p2.
Proof.
  eexists _, _. split; [reflexivity|]. split; [reflexivity|].
  destruct (requirement_part_identifiers High "OIS-01.1B" "OIS-02.1B" "OIS"
              "ISMS scope" "first" "second" _ _ eq_refl eq_refl)
    as (_ & _ & _ & H).
  destruct (H "OIS-01." "OIS-02." "1"%char "B"%char eq_refl eq_refl) as [E Hne].
  split; [exact E|]. apply Hne. discriminate.
Defined.

(** ** The controls of the catalog *)

Lemma fmap_alter_same {A B : Type} (f : A -> B) (g : A -> A) (i : nat) (l : list A) :
  (forall x, f (g x) = f x) -> f <$> alter g i l = f <$> l.
Proof.
  intros Hg. revert i. induction l as [|y l IH]; intros [|i]; simpl; try done.
  - by rewrite Hg.
  - f_equal. apply IH.
Qed.

Lemma control_entries_part_parts_append (h : PartRef) (r : Part) (gs : list Group) :
  control_entries (part_parts_append h r gs) = control_entries gs.
Proof.
  unfold control_entries, part_parts_append.
  apply flat_map_alter_same. intros g _. simpl. by apply fmap_alter_same.
Qed.

Lemma control_entries_add_tier (t : Tier) (st st' : State) (row : Row) :
  add_tier t st row = inr st' ->
  control_entries (groups st') = control_entries (groups st).
Proof.
  intros H. destruct (notna (tier_flag t row)) eqn:Hflag.
  - apply add_tier_inv in H as (raw & cid & title & token & d & h & _ & _ & ->);
      [|done].
    rewrite groups_attach. apply control_entries_part_parts_append.
  - rewrite add_tier_skip in H by done. by injection H as <-.
Qed.

Lemma control_branch_created (st st' : State) (row : Row) :
  py_ne (r_control row) (current_loop_control st)
  || is_none (current_loop_control st) = true ->
  control_branch st row = inr st' ->
  exists (cid ctl title token : string) (last : ascii) (gi : nat),
    r_category row = PyStr cid /\ r_control row = PyStr ctl
    /\ Str.last_char ctl = Some last /\ r_title row = PyStr title
    /\ Str.first_token title = Some token
    /\ current_loop_control st <> PyStr ctl
    /\ category st = Some gi.
Proof.
  intros E H. pose proof H as H0. unfold control_branch in H. rewrite E in H.
  bind_inv H as c Hc. unfold create_control in Hc.
  bind_inv Hc as l Hl. apply py_last_inv in Hl as (ctl & ch & Hctl & Hlast & ->).
  bind_inv Hc as stem Hstem.
  apply control_stem_inv in Hstem as (cid & title & token & Hcat & Htitle & Htok & ->).
  bind_inv H as gi Hgi. apply read_local_inv in Hgi.
  exists cid, ctl, title, token, ch, gi. repeat split; try done.
  rewrite Hctl, differs_from_previous in E.
  apply negb_true_iff, bool_decide_eq_false in E. done.
Qed.

Lemma control_entries_process_row (st st' : State) (row : Row) :
  in_order st ->
  process_row st row = inr st' ->
  control_entries (groups st')
  = (control_entries (groups st)
     ++ if creates_control (current_loop_control st) row
        then new_control_entry row else [])%list
  /\ (creates_control (current_loop_control st) row = true ->
      length (new_control_entry row) = 1%nat).
Proof.
  intros Hord H. unfold process_row in H. bind_inv H as st1 H1. injection H as <-.
  simpl. unfold creates_control.
  destruct (row_patterns_disjoint row) as (Dcat & Dctl & Dreq).
  destruct (is_category_row row) eqn:Hcat.
  { destruct (Dcat eq_refl) as [-> _]. simpl. rewrite app_nil_r. split; [|done].
    unfold category_branch in H1.
    destruct (py_ne _ _ || is_none _); [|by injection H1 as <-].
    bind_inv H1 as g Hg. injection H1 as <-.
    apply create_category_inv in Hg as (cid & _ & ->). simpl.
    unfold control_entries, append. rewrite flat_map_app. simpl.
    by rewrite app_nil_r. }
  destruct (is_control_row row) eqn:Hctl.
  { simpl. destruct (py_ne _ _ || is_none _) eqn:E.
    2:{ unfold control_branch in H1. rewrite E in H1. injection H1 as <-.
        by rewrite app_nil_r. }
    destruct (control_branch_created _ _ _ E H1)
      as (cid & ctl & title & token & last & gi & Hc & Hk & Hlast & Htitle
          & Htok & Hne & Hgi).
    destruct Hord as (Hcl & _ & _). pose proof (Hcl gi Hgi) as Hlen.
    destruct (lookup_lt_is_Some_2 (groups st) gi) as [g Hg]; [lia|].
    rewrite (control_branch_ok st row gi g cid ctl title token last) in H1 by done.
    injection H1 as <-. simpl.
    destruct (last_position_split _ _ _ Hlen Hg) as (pre & Hgs & Hpre).
    unfold new_control_entry. rewrite Hc, Htitle, Htok. split; [|done].
    rewrite Hgs, <- Hpre, insert_middle. unfold control_entries.
    rewrite !flat_map_app. simpl. rewrite !app_nil_r. unfold append.
    by rewrite fmap_app, (assoc_L (++)%list). }
  simpl. rewrite app_nil_r. split; [|done].
  destruct (is_requirement_row row); [|by injection H1 as <-].
  unfold requirement_branch in H1.
  bind_inv H1 as s1 Hb. bind_inv H1 as s2 Hs.
  rewrite (control_entries_add_tier High s2 st1 row H1).
  rewrite (control_entries_add_tier Substantial s1 s2 row Hs).
  apply (control_entries_add_tier Basic st s1 row Hb).
Qed.

Lemma control_entries_process_rows (rows : list Row) (st st' : State) :
  in_order st ->
  process_rows st rows = inr st' ->
  control_entries (groups st')
  = (control_entries (groups st)
     ++ created_controls (current_loop_control st) rows)%list
  /\ length (created_controls (current_loop_control st) rows)
     = count_created_controls (current_loop_control st) rows.
Proof.
  revert st. induction rows as [|row rows IH]; simpl; intros st Hord H.
  - injection H as <-. by rewrite app_nil_r.
  - bind_inv H as st1 H1.
    destruct (control_entries_process_row st st1 row Hord H1) as [E1 L1].
    destruct (process_row_look_back st st1 row H1) as (_ & Hk & _).
    destruct (IH st1 (in_order_process_row st st1 row Hord H1) H) as [E2 L2].
    rewrite Hk in E2, L2. split.
    + by rewrite E2, E1, (assoc_L (++)%list).
    + rewrite length_app, L2.
      destruct (creates_control (current_loop_control st) row); [|done].
      by rewrite L1.
Qed.

(** X18: the controls of the catalog, in catalog order, are the controls
    the control rows of the sheet call for, in sheet order.  When the loop
    completes, reading the groups from first to last and their controls
    from first to last gives, for each control row whose identifier differs
    from the control cell of the row before it, exactly one control, with
    the identifier 'eucs-' + category cell + '.' + first word of the title
    and with the title of the row; no other row adds a control, and a
    control row that repeats the row before it adds none.  Each new control
    goes to the group that was created last, which is the last group. *)
Theorem controls_follow_the_sheet (rows : list Row) (st : State) :
  build rows = inr st ->
  control_entries (groups st) = created_controls PyNone rows
  /\ length (flat_map group_controls (groups st))
     = count_created_controls PyNone rows.
Proof.
  intros H.
  destruct (control_entries_process_rows rows initial_state st in_order_initial H)
    as [E L].
  simpl in E, L. split; [done|]. rewrite <- L, <- E. unfold control_entries.
  clear. induction (groups st) as [|g gs IH]; simpl; [done|].
  by rewrite !length_app, length_fmap, IH.
Qed.

Lemma controls_follow_the_sheet_witness :
  control_entries (groups two_control_state)
  = [("eucs-C1.Do", PyStr "Do Thing"); ("eucs-C2.Keep", PyStr "Keep Logs")]
  /\ length (flat_map group_controls (groups two_control_state)) = 2%nat.
Proof.
  apply (controls_follow_the_sheet two_control_rows two_control_state).
  reflexivity.
Defined.
